(** * Speech-to-text evaluation: engines, runner and aggregation

    A shallow embedding of the Python sources [utils.py], [transcribe.py],
    [evaluate.py], [config.py] and [models/*.py].  Python dictionaries
    that the code mutates are finite maps, values of dynamic type are
    [pyval], a call that may raise is an [outcome], the arithmetic of
    floats is rounded as IEEE 754 rounds it ([PyFloat]), and the external
    services (S3, the speech back ends, jiwer) are parameters of the
    functions that call them. *)

From Stdlib Require Import QArith Qcanon Ascii String DecimalString.
From stdpp Require Import base option list strings gmap numbers.

Set Warnings "-register-all".
Open Scope Qc_scope.
Open Scope string_scope.

(** ** Python values and exceptions *)

(** A dynamically typed value as the JSON-like data the code handles.  A
    number is given by its value, a rational: Python [int] and [float]
    are not told apart, and the operations on them round ([PyFloat]). *)
Inductive pyval :=
  | PNone
  | PBool (b : bool)
  | PNum (q : Qc)
  | PStr (s : string)
  | PList (l : list pyval)
  | PDict (d : list (string * pyval)).

(** An instance of [Exception], which is what [except Exception] catches:
    its class name and [str(e)].  Interrupts and interpreter exits are not
    modelled. *)
Record exn := Exn { exn_type : string; exn_msg : string }.

Definition py_str_exn (e : exn) : string := exn_msg e.

(** The result of running a Python expression: a value or a raised
    exception. *)
Inductive outcome (A : Type) :=
  | Ret (a : A)
  | Raise (e : exn).
Arguments Ret {A} a.
Arguments Raise {A} e.

#[export] Instance outcome_ret : MRet outcome := fun A a => Ret a.
#[export] Instance outcome_bind : MBind outcome := fun A B f m =>
  match m with
  | Ret a => f a
  | Raise e => Raise e
  end.
#[export] Instance outcome_fmap : FMap outcome := fun A B f m =>
  match m with
  | Ret a => Ret (f a)
  | Raise e => Raise e
  end.

(** [try: body except Exception as e: handler(e)] *)
Definition try_except {A} (body : outcome A) (handler : exn → outcome A) : outcome A :=
  match body with
  | Ret a => Ret a
  | Raise e => handler e
  end.

Definition raises {A} (o : outcome A) : Prop := ∃ e, o = Raise e.

Definition TypeError (msg : string) : exn := Exn "TypeError" msg.
Definition AttributeError (msg : string) : exn := Exn "AttributeError" msg.
(** [KeyError(key)]: [str(e)] is the [repr] of the key. *)
Definition KeyError (key_repr : string) : exn := Exn "KeyError" key_repr.
Definition IndexError (msg : string) : exn := Exn "IndexError" msg.
Definition ValueError (msg : string) : exn := Exn "ValueError" msg.

(** ** Strings *)

Module PyString.

Definition code (c : ascii) : N := N_of_ascii c.

(** [str.lower] on one code point below 256. *)
Definition lower_char (c : ascii) : ascii :=
  let n := code c in
  if ((65 <=? n) && (n <=? 90))%N then ascii_of_N (n + 32)
  else if ((192 <=? n) && (n <=? 222) && negb (n =? 215))%N then ascii_of_N (n + 32)
  else c.

Definition lower (s : string) : string :=
  string_of_list_ascii (map lower_char (list_ascii_of_string s)).

(** [str.isspace] on one code point below 256. *)
Definition is_space (c : ascii) : bool :=
  let n := code c in
  (((9 <=? n) && (n <=? 13)) || ((28 <=? n) && (n <=? 32))
   || (n =? 133) || (n =? 160))%N.

Fixpoint lstrip_chars (l : list ascii) : list ascii :=
  match l with
  | c :: l' => if is_space c then lstrip_chars l' else l
  | [] => []
  end.

Definition strip_chars (l : list ascii) : list ascii :=
  rev (lstrip_chars (rev (lstrip_chars l))).

(** [str.strip()] *)
Definition strip (s : string) : string :=
  string_of_list_ascii (strip_chars (list_ascii_of_string s)).

(** [l] cut at the last occurrence of [c]: what is before it and what is
    after it. *)
Fixpoint rsplit_at (c : ascii) (l : list ascii) : option (list ascii * list ascii) :=
  match l with
  | [] => None
  | x :: l' =>
      match rsplit_at c l' with
      | Some (a, b) => Some (x :: a, b)
      | None => if Ascii.eqb x c then Some ([], l') else None
      end
  end.

(** [os.path.basename] (posix) *)
Definition basename_chars (p : list ascii) : list ascii :=
  match rsplit_at "/" p with
  | Some (_, b) => b
  | None => p
  end.

Definition basename (p : string) : string :=
  string_of_list_ascii (basename_chars (list_ascii_of_string p)).

(** [os.path.splitext] (posix): the extension starts at the last dot of
    the last path component, leading dots of the component not counted. *)
Definition splitext_chars (p : list ascii) : list ascii * list ascii :=
  let '(dir, base) :=
    match rsplit_at "/" p with
    | Some (a, b) => ((a ++ ["/"%char])%list, b)
    | None => ([], p)
    end in
  match rsplit_at "." base with
  | Some (stem, ext) =>
      if forallb (Ascii.eqb ".") stem then (p, [])
      else ((dir ++ stem)%list, "."%char :: ext)
  | None => (p, [])
  end.

Definition splitext (p : string) : string * string :=
  let '(a, b) := splitext_chars (list_ascii_of_string p) in
  (string_of_list_ascii a, string_of_list_ascii b).

Fixpoint is_prefix (a l : list ascii) : bool :=
  match a, l with
  | [], _ => true
  | x :: a', y :: l' => Ascii.eqb x y && is_prefix a' l'
  | _ :: _, [] => false
  end.

(** [a in l] on strings *)
Fixpoint is_infix (a l : list ascii) : bool :=
  is_prefix a l || match l with [] => false | _ :: l' => is_infix a l' end.

End PyString.

(** ** Floats *)

(** A Python float is an IEEE 754 binary64 number.  A finite float is a
    rational, and an arithmetic operation on floats gives the exact
    result rounded to the nearest float, a tie going to the float whose
    last bit is even.  A result beyond the largest float is an infinity,
    for which [2 ^ 1024] with its sign stands (it is above every float
    and stays what it is when a float is added to it).  NaN is not
    modelled. *)
Module PyFloat.

(** [2 ^ e] for any integer [e]. *)
Definition pow2 (e : Z) : Q :=
  if (0 <=? e)%Z then inject_Z (2 ^ e) else Qinv (inject_Z (2 ^ (- e))).

(** The integer nearest to [n / d], a tie going to the even one
    ([0 ≤ n], [0 < d]). *)
Definition nearest_even (n d : Z) : Z :=
  let q := (n / d)%Z in
  match (2 * (n mod d) ?= d)%Z with
  | Lt => q
  | Gt => (q + 1)%Z
  | Eq => if Z.even q then q else (q + 1)%Z
  end.

(** The exponent of the last bit of the floats around [n / d]
    ([0 < n], [0 < d]): 52 below the binary exponent of [n / d], and
    never below -1074, the exponent of the subnormal floats. *)
Definition last_bit_exponent (n d : Z) : Z :=
  let k := (Z.log2 n - Z.log2 d)%Z in
  let below := if (0 <=? k)%Z then (n <? d * 2 ^ k)%Z else (n * 2 ^ (- k) <? d)%Z in
  Z.max ((if below then k - 1 else k) - 52) (-1074).

Definition infinity : Q := inject_Z (2 ^ 1024).

(** The float nearest to the rational [q]. *)
Definition round (q : Qc) : Qc :=
  let n := Z.abs (Qnum q) in
  let d := Zpos (Qden q) in
  if (n =? 0)%Z then 0%Qc
  else
    let e := last_bit_exponent n d in
    let m := nearest_even (n * 2 ^ Z.max 0 (- e)) (d * 2 ^ Z.max 0 e) in
    let v := (inject_Z m * pow2 e)%Q in
    Q2Qc (inject_Z (Z.sgn (Qnum q)) * (if Qle_bool infinity v then infinity else v)).

(** [x + y] and [x / y] on floats, [y] not zero; an [int] operand is
    the float of the same value. *)
Definition add (x y : Qc) : Qc := round (x + y).
Definition div (x y : Qc) : Qc := round (x / y).

End PyFloat.

(** ** Operations on dynamic values *)

Definition py_truthy (v : pyval) : bool :=
  match v with
  | PNone => false
  | PBool b => b
  | PNum q => negb (bool_decide (q = 0))
  | PStr s => negb (String.eqb s "")
  | PList l => match l with [] => false | _ => true end
  | PDict d => match d with [] => false | _ => true end
  end.

(** Truth value of an optional string argument ([None] or [str]). *)
Definition str_truthy (s : option string) : bool :=
  match s with
  | Some s => negb (String.eqb s "")
  | None => false
  end.

Fixpoint assoc (k : string) (d : list (string * pyval)) : option pyval :=
  match d with
  | [] => None
  | (k', v) :: d' => if String.eqb k k' then Some v else assoc k d'
  end.

(** [v.get(k, dflt)] *)
Definition py_get (v : pyval) (k : string) (dflt : pyval) : outcome pyval :=
  match v with
  | PDict d => Ret (default dflt (assoc k d))
  | _ => Raise (AttributeError "object has no attribute 'get'")
  end.

(** [repr(k)] of a string that has no quote, backslash or control
    character, as the keys the code writes have none. *)
Definition py_repr_str (k : string) : string := "'" ++ k ++ "'".

(** [repr(i)] of a non-negative integer. *)
Definition py_repr_nat (i : nat) : string := NilZero.string_of_uint (Nat.to_uint i).

(** [v[k]] for a string key *)
Definition py_getitem (v : pyval) (k : string) : outcome pyval :=
  match v with
  | PDict d =>
      match assoc k d with
      | Some x => Ret x
      | None => Raise (KeyError (py_repr_str k))
      end
  | _ => Raise (TypeError "object is not subscriptable by str")
  end.

(** [v[i]] for a non-negative integer index *)
Definition py_index (v : pyval) (i : nat) : outcome pyval :=
  match v with
  | PList l =>
      match l !! i with
      | Some x => Ret x
      | None => Raise (IndexError "list index out of range")
      end
  | PStr s =>
      match list_ascii_of_string s !! i with
      | Some c => Ret (PStr (String c EmptyString))
      | None => Raise (IndexError "string index out of range")
      end
  | PDict _ => Raise (KeyError (py_repr_nat i))
  | _ => Raise (TypeError "object is not subscriptable")
  end.

(** [k in v] *)
Definition py_contains (v : pyval) (k : string) : outcome bool :=
  match v with
  | PDict d => Ret (bool_decide (is_Some (assoc k d)))
  | PList l => Ret (existsb (λ x, match x with PStr s => String.eqb s k | _ => false end) l)
  | PStr s => Ret (PyString.is_infix (list_ascii_of_string k) (list_ascii_of_string s))
  | _ => Raise (TypeError "argument is not iterable")
  end.

(** The elements a [for] loop over [v] visits. *)
Definition py_iter (v : pyval) : outcome (list pyval) :=
  match v with
  | PList l => Ret l
  | PDict d => Ret (map (λ kv, PStr kv.1) d)
  | PStr s => Ret (map (λ c, PStr (String c EmptyString)) (list_ascii_of_string s))
  | _ => Raise (TypeError "object is not iterable")
  end.

(** [v.lower()] *)
Definition py_lower (v : pyval) : outcome string :=
  match v with
  | PStr s => Ret (PyString.lower s)
  | _ => Raise (AttributeError "object has no attribute 'lower'")
  end.

(** [0 + v], as [sum] and the arithmetic operators do. *)
Definition py_num (v : pyval) : outcome Qc :=
  match v with
  | PNum q => Ret q
  | PBool b => Ret (if b then 1 else 0)
  | _ => Raise (TypeError "unsupported operand type(s) for +")
  end.

(** [for x in l: ys.append(f(x))] where [f] may raise. *)
Fixpoint for_each {A B} (f : A → outcome B) (l : list A) : outcome (list B) :=
  match l with
  | [] => Ret []
  | x :: l' => y ← f x; ys ← for_each f l'; Ret (y :: ys)
  end.

(** [for x in l: acc = f(acc, x)] where [f] may raise. *)
Fixpoint fold_outcome {A B} (f : A → B → outcome A) (l : list B) (a : A) : outcome A :=
  match l with
  | [] => Ret a
  | x :: l' => a' ← f a x; fold_outcome f l' a'
  end.

(** [sum(vs)], as CPython computes it up to version 3.11: one addition
    for each element, from the left, each rounded.  (From 3.12 on [sum]
    compensates the rounding errors of floats; that is not modelled.) *)
Definition py_sum (vs : list pyval) : outcome Qc :=
  foldl (λ acc v, a ← acc; q ← py_num v; Ret (PyFloat.add a q)) (Ret 0) vs.

(** ** utils.py *)

(** The jiwer library: [wer(reference, hypothesis)] and
    [cer(reference, hypothesis)], which return a float or raise. *)
Record jiwer_lib := {
  wer : string → string → outcome Qc;
  cer : string → string → outcome Qc }.

(** One row handed to [csv.DictWriter.writerow]. *)
Record csv_row := {
  row_file_id : string;
  row_ground_truth : string;
  row_hypothesis : pyval;
  row_wer : pyval;
  row_cer : pyval;
  row_confidence : option pyval }.

Inductive csv_line :=
  | CsvHeader (fieldnames : list string)
  | CsvRow (r : csv_row).

(** The output directory of one test set: its JSON files by name without
    [.json] (the file of an item is named after its file id, and
    [metrics.json] is under [metrics]), and [results.csv] ([None] while
    the file does not exist). *)
Record output_dir := {
  json_files : gmap string (gmap string pyval);
  csv_file : option (list csv_line) }.

Definition key_in (k : string) (d : gmap string pyval) : bool :=
  bool_decide (is_Some (d !! k)).

Definition csv_fieldnames (result : gmap string pyval) : list string :=
  (["file_id"; "ground_truth"; "hypothesis"; "wer"; "cer"]
   ++ (if key_in "confidence" result then ["confidence"] else []))%list.

(** [save_result(output_dir, file_id, result, ground_truth=None)].  The
    dictionary [result] is updated in place: the updated dictionary is
    returned with the directory.  Writing the two local files is taken to
    succeed. *)
Definition save_result (J : jiwer_lib) (dir : output_dir) (file_id : string)
    (result : gmap string pyval) (ground_truth : option string)
    : outcome (gmap string pyval * output_dir) :=
  result ←
    (if str_truthy ground_truth && key_in "text" result then
       let gt := default "" ground_truth in
       let result := <["ground_truth" := PStr gt]> result in
       hyp ← py_lower (default PNone (result !! "text"));
       w ← wer J (PyString.lower gt) hyp;
       let result := <["wer" := PNum w]> result in
       hyp ← py_lower (default PNone (result !! "text"));
       c ← cer J (PyString.lower gt) hyp;
       Ret (<["cer" := PNum c]> result)
     else Ret result);
  let json := <[file_id := result]> (json_files dir) in
  let old :=
    match csv_file dir with
    | Some lines => lines
    | None => [CsvHeader (csv_fieldnames result)]
    end in
  let row := {|
    row_file_id := file_id;
    row_ground_truth := if str_truthy ground_truth then default "" ground_truth else "";
    row_hypothesis := default (PStr "") (result !! "text");
    row_wer := default (PStr "") (result !! "wer");
    row_cer := default (PStr "") (result !! "cer");
    row_confidence := result !! "confidence" |} in
  Ret (result, {| json_files := json; csv_file := Some (old ++ [CsvRow row])%list |}).

Record metrics := {
  avg_wer : Qc;
  avg_cer : Qc;
  num_files : nat }.

(** [calculate_metrics(results)] *)
Definition calculate_metrics (results : list (gmap string pyval)) : outcome metrics :=
  match results with
  | [] => Ret {| avg_wer := 0; avg_cer := 0; num_files := 0 |}
  | _ =>
      wer_sum ← py_sum (omap (λ r : gmap string pyval, r !! "wer") results);
      cer_sum ← py_sum (omap (λ r : gmap string pyval, r !! "cer") results);
      let count := length results in
      Ret {| avg_wer := if bool_decide (0 < count)%nat
                        then PyFloat.div wer_sum (Qc_of_Z (Z.of_nat count)) else 0;
             avg_cer := if bool_decide (0 < count)%nat
                        then PyFloat.div cer_sum (Qc_of_Z (Z.of_nat count)) else 0;
             num_files := count |}
  end.

(** ** transcribe.py *)

(** The corpus store and the audio prober, as [process_dataset] calls
    them. *)
Record corpus := {
  download_file_from_s3 : string → outcome string;
  get_audio_duration : string → outcome Qc;
  read_lines : string → outcome (list string) }.   (* the lines of a local file *)

(** [l] cut at the first occurrence of [c]. *)
Fixpoint split_first (c : ascii) (l : list ascii) : option (list ascii * list ascii) :=
  match l with
  | [] => None
  | x :: l' =>
      if Ascii.eqb x c then Some ([], l')
      else match split_first c l' with
           | Some (a, b) => Some (x :: a, b)
           | None => None
           end
  end.

(** One line of a transcript file: [line.strip().split(' ', 1)], kept when
    it has two parts, the transcript in lower case. *)
Definition parse_transcript_line (line : string) : option (string * string) :=
  match split_first " " (PyString.strip_chars (list_ascii_of_string line)) with
  | Some (key, transcript) =>
      Some (string_of_list_ascii key, PyString.lower (string_of_list_ascii transcript))
  | None => None
  end.

Definition add_transcript_line (transcript_dict : gmap string string) (line : string)
    : gmap string string :=
  match parse_transcript_line line with
  | Some (key, transcript) => <[key := transcript]> transcript_dict
  | None => transcript_dict
  end.

(** [build_transcript_dict(bucket_name, transcript_keys, tmpdir)] *)
Definition build_transcript_dict (C : corpus) (transcript_keys : list string)
    : outcome (gmap string string) :=
  fold_outcome
    (λ transcript_dict transcript_key,
       local_transcript_path ← download_file_from_s3 C transcript_key;
       lines ← read_lines C local_transcript_path;
       Ret (foldl add_transcript_line transcript_dict lines))
    transcript_keys ∅.

(** [OUTPUT_CONFIG['max_audio_duration']] of config.py: ten hours. *)
Definition max_audio_duration : Qc := Qc_of_Z (10 * 3600).

(** The variables of the loop of [process_dataset], the output directory
    it writes to, and the audio paths handed to [model.transcribe] so far. *)
Record run_state := {
  total_duration : Qc;
  results : list (gmap string pyval);
  out : output_dir;
  calls : list string }.

(** The body of the [try] of the loop for one audio file that has a
    ground truth.  Whatever an exception leaves behind stays. *)
Definition process_item (J : jiwer_lib) (C : corpus)
    (transcribe : string → outcome (gmap string pyval))
    (audio_file_key file_id ground_truth : string) (st : run_state) : run_state :=
  match download_file_from_s3 C audio_file_key with
  | Raise _ => st
  | Ret local_audio_path =>
      match get_audio_duration C local_audio_path with
      | Raise _ => st
      | Ret duration =>
          let st := {| total_duration := PyFloat.add (total_duration st) duration;
                       results := results st; out := out st;
                       calls := (calls st ++ [local_audio_path])%list |} in
          match transcribe local_audio_path with
          | Raise _ => st
          | Ret result =>
              match save_result J (out st) file_id result (Some ground_truth) with
              | Raise _ => st
              | Ret (result, dir) =>
                  let results' :=
                    if key_in "wer" result && key_in "cer" result then
                      (results st ++
                         [ {[ "file_id" := PStr file_id;
                              "wer" := default PNone (result !! "wer");
                              "cer" := default PNone (result !! "cer") ]} ])%list
                    else results st in
                  {| total_duration := total_duration st; results := results';
                     out := dir; calls := calls st |}
              end
          end
      end
  end.

Definition file_id_of (audio_file_key : string) : string :=
  (PyString.splitext (PyString.basename audio_file_key)).1.

(** The [for] loop over the audio files, with its [break] and
    [continue]. *)
Fixpoint process_files (J : jiwer_lib) (C : corpus) (budget : Qc)
    (transcribe : string → outcome (gmap string pyval))
    (transcript_dict : gmap string string)
    (audio_files : list string) (st : run_state) : run_state :=
  match audio_files with
  | [] => st
  | audio_file_key :: rest =>
      if bool_decide (budget ≤ total_duration st)%Qc then st
      else
        let file_id := file_id_of audio_file_key in
        match transcript_dict !! file_id with
        | None => process_files J C budget transcribe transcript_dict rest st
        | Some ground_truth =>
            process_files J C budget transcribe transcript_dict rest
              (process_item J C transcribe audio_file_key file_id ground_truth st)
        end
  end.

(** What [process_dataset] returns and writes to [metrics.json], with the
    state of the run after its loop and the output directory it leaves. *)
Record dataset_run := {
  run_test_set : string;
  run_model : string;
  run_metrics : metrics;
  run_total_duration : Qc;
  run_final : run_state;
  run_out : output_dir }.

(** An output directory that [prepare_output_dir] has just made. *)
Definition new_directory : output_dir := {| json_files := ∅; csv_file := None |}.

(** The state before the first audio file, in the output directory as
    [prepare_output_dir] found it ([os.makedirs(.., exist_ok=True)] keeps
    a directory that exists, with its files): [results.csv] is written
    anew with its header, the JSON files that were there stay. *)
Definition start_state (found : output_dir) : run_state := {|
  total_duration := 0;
  results := [];
  out := {| json_files := json_files found;
            csv_file := Some [CsvHeader ["file_id"; "ground_truth"; "hypothesis"; "wer"; "cer"]] |};
  calls := [] |}.

(** The start of a run in a new directory. *)
Definition initial_state : run_state := start_state new_directory.

(** The dictionary written to [metrics.json]. *)
Definition metrics_json (test_set model_name : string) (m : metrics) (total_duration : Qc)
    : gmap string pyval :=
  {[ "test_set" := PStr test_set; "model" := PStr model_name;
     "num_files" := PNum (Qc_of_Z (Z.of_nat (num_files m)));
     "total_duration" := PNum total_duration;
     "avg_wer" := PNum (avg_wer m); "avg_cer" := PNum (avg_cer m) ]}.

(** [process_dataset(model, bucket_name, prefix, output_dir, test_set)]:
    [None] when the listing of the bucket has no audio or no transcript
    files.  [audio_files] and [transcript_files] are the two listings,
    [budget] is [OUTPUT_CONFIG['max_audio_duration']], and [found] is the
    output directory of the test set as the call finds it. *)
Definition process_dataset (J : jiwer_lib) (C : corpus) (budget : Qc)
    (model_name : string) (transcribe : string → outcome (gmap string pyval))
    (audio_files transcript_files : list string) (test_set : string)
    (found : output_dir) : outcome (option dataset_run) :=
  match audio_files, transcript_files with
  | [], _ => Ret None
  | _, [] => Ret None
  | _, _ =>
      transcript_dict ← build_transcript_dict C transcript_files;
      let st := process_files J C budget transcribe transcript_dict audio_files
                  (start_state found) in
      m ← calculate_metrics (results st);
      let metrics_path := "metrics" in
      Ret (Some {| run_test_set := test_set; run_model := model_name;
                   run_metrics := m; run_total_duration := total_duration st;
                   run_final := st;
                   run_out := {| json_files :=
                                   <[metrics_path :=
                                       metrics_json test_set model_name m (total_duration st)]>
                                     (json_files (out st));
                                 csv_file := csv_file (out st) |} |})
  end.

(** ** The surroundings of the engines *)

(** What the interpreter, the operating system and the imported libraries
    provide to every engine. *)
Record py_env := {
  environ : gmap string string;          (* os.environ *)
  expanduser : string → string;          (* os.path.expanduser *)
  abspath : string → string;             (* os.path.abspath *)
  cuda_is_available : bool;              (* torch.cuda.is_available() *)
  mps_is_available : bool;               (* torch.backends.mps.is_available() *)
  read_file : string → outcome string;   (* open(path, 'rb').read() *)
  b64encode : string → string;           (* base64.b64encode(..).decode('utf-8') *)
  json_load : string → outcome pyval;    (* json.load *)
  py_float : pyval → outcome Qc;         (* float(v) *)
  py_repr : pyval → string }.            (* str(v) of a number or container *)

(** [f"{v}"] *)
Definition format_value (E : py_env) (v : pyval) : string :=
  match v with
  | PStr s => s
  | PNone => "None"
  | PBool true => "True"
  | PBool false => "False"
  | _ => py_repr E v
  end.

(** [config.get(k, dflt)] on a configuration dictionary *)
Definition config_get (config : gmap string pyval) (k : string) (dflt : pyval) : pyval :=
  default dflt (config !! k).

(** [os.environ.get(var, config.get('api_key'))] *)
Definition environ_get (E : py_env) (var : string) (dflt : pyval) : pyval :=
  match environ E !! var with
  | Some s => PStr s
  | None => dflt
  end.

Definition is_str (v : pyval) (s : string) : bool :=
  match v with
  | PStr s' => String.eqb s' s
  | _ => false
  end.

(** The dictionary every engine returns from its [except] clause and from
    its explicit failure returns. *)
Definition error_result (msg : string) : gmap string pyval :=
  {[ "text" := PStr ""; "error" := PStr msg ]}.

(** ** models/dolphin_model.py *)

Module Dolphin.

Definition waveform := list Qc.

(** What calling a loaded model gives: an object with a [text]
    attribute. *)
Record asr_result := { res_text : pyval }.

(** A loaded model: [model(waveform, lang_sym=.., region_sym=..)]. *)
Definition net := waveform → pyval → pyval → outcome asr_result.

(** The [dolphin] package. *)
Record lib := {
  load_model : pyval → string → pyval → outcome net;
  load_audio : string → outcome waveform }.

Record t := {
  config : gmap string pyval;
  name : string;
  model : option net;
  model_size : pyval;
  model_dir : string;
  device : pyval;
  language : pyval;
  region : pyval }.

(** [DolphinModel.__init__] *)
Definition init (E : py_env) (config : gmap string pyval) : outcome t :=
  let model_size := config_get config "model_size" (PStr "small") in
  model_dir ←
    match config_get config "model_dir" (PStr "~/.cache/dolphin") with
    | PStr s => Ret (expanduser E s)
    | _ => Raise (TypeError "expected str, bytes or os.PathLike object")
    end;
  Ret {| config := config; name := "dolphin"; model := None;
         model_size := model_size; model_dir := model_dir;
         device := config_get config "device" (PStr "cuda");
         language := config_get config "language" (PStr "en");
         region := config_get config "region" (PStr "US") |}.

(** [DolphinModel.load] *)
Definition load (L : lib) (self : t) : outcome t :=
  m ← load_model L (model_size self) (model_dir self) (device self);
  Ret {| config := config self; name := name self; model := Some m;
         model_size := model_size self; model_dir := model_dir self;
         device := device self; language := language self;
         region := region self |}.

(** A match of [<[^>]+>] at the head of the text: what follows the
    match.  The greedy class stops at the first [>]. *)
Fixpoint after_gt (l : list ascii) : option (list ascii) :=
  match l with
  | [] => None
  | c :: l' => if Ascii.eqb c ">" then Some l' else after_gt l'
  end.

Definition match_tag (l : list ascii) : option (list ascii) :=
  match l with
  | c :: c' :: l' =>
      if Ascii.eqb c "<" && negb (Ascii.eqb c' ">") then after_gt l' else None
  | _ => None
  end.

(** [re.sub(r'<[^>]+>', '', text)]: matches are taken leftmost and do
    not overlap; a position with no match keeps its character. *)
Fixpoint re_sub_tags_fuel (n : nat) (l : list ascii) : list ascii :=
  match n with
  | O => l
  | S n' =>
      match match_tag l with
      | Some rest => re_sub_tags_fuel n' rest
      | None =>
          match l with
          | [] => []
          | c :: l' => c :: re_sub_tags_fuel n' l'
          end
      end
  end.

Definition re_sub_tags (l : list ascii) : list ascii :=
  re_sub_tags_fuel (length l) l.

(** [DolphinModel.clean_hypothesis_text] *)
Definition clean_hypothesis_text (text : string) : string :=
  let cleaned_text := re_sub_tags (list_ascii_of_string text) in
  string_of_list_ascii (PyString.strip_chars cleaned_text).

(** [DolphinModel.transcribe] *)
Definition transcribe (L : lib) (self : t) (audio_path : string)
    : outcome (gmap string pyval) :=
  try_except
    (waveform ← load_audio L audio_path;
     result ←
       match model self with
       | Some m => m waveform (language self) (region self)
       | None => Raise (TypeError "'NoneType' object is not callable")
       end;
     hypothesis ← py_lower (res_text result);
     let raw_hypothesis := hypothesis in
     let clean_hypothesis := clean_hypothesis_text hypothesis in
     Ret {[ "raw_text" := PStr raw_hypothesis; "text" := PStr clean_hypothesis ]})
    (λ e, Ret (error_result (py_str_exn e))).

End Dolphin.

(** ** models/whisper_model.py *)

Module Whisper.

Definition handle := string.

(** The pipeline object: [pipe(audio_path)]. *)
Definition pipe_fn := string → outcome pyval.

(** The [transformers] package as [load] uses it. *)
Record lib := {
  model_from_pretrained : pyval → string → outcome handle;
  model_to : handle → pyval → outcome unit;
  processor_from_pretrained : pyval → outcome handle;
  pipeline : handle → handle → string → pyval → pyval → pyval → outcome pipe_fn }.

Record t := {
  config : gmap string pyval;
  name : string;
  model : option handle;
  processor : option handle;
  pipe : option pipe_fn;
  model_id : pyval;
  device : pyval;
  torch_dtype : string;
  batch_size : pyval;
  language : pyval }.

(** [WhisperModel.__init__] *)
Definition init (E : py_env) (config : gmap string pyval) : outcome t :=
  let device :=
    if py_truthy (config_get config "device" PNone) then config_get config "device" PNone
    else if cuda_is_available E then PStr "cuda"
    else if mps_is_available E then PStr "mps"
    else PStr "cpu" in
  Ret {| config := config; name := "whisper"; model := None; processor := None;
         pipe := None;
         model_id := config_get config "model_id" (PStr "openai/whisper-large-v3-turbo");
         device := device;
         torch_dtype := if is_str device "cuda" then "float16" else "float32";
         batch_size := config_get config "batch_size" (PNum 1);
         language := config_get config "language" (PStr "en") |}.

(** [WhisperModel.load] *)
Definition load (L : lib) (self : t) : outcome t :=
  m ← model_from_pretrained L (model_id self) (torch_dtype self);
  _ ← model_to L m (device self);
  p ← processor_from_pretrained L (model_id self);
  f ← pipeline L m p (torch_dtype self) (device self) (batch_size self) (language self);
  Ret {| config := config self; name := name self; model := Some m;
         processor := Some p; pipe := Some f; model_id := model_id self;
         device := device self; torch_dtype := torch_dtype self;
         batch_size := batch_size self; language := language self |}.

Definition format_chunk (chunk : pyval) : outcome pyval :=
  word ← py_get chunk "text" (PStr "");
  ts ← py_get chunk "timestamp" (PList [PNum 0; PNum 0]);
  start_time ← py_index ts 0;
  ts ← py_get chunk "timestamp" (PList [PNum 0; PNum 0]);
  end_time ← py_index ts 1;
  Ret (PDict [("word", word); ("start_time", start_time); ("end_time", end_time)]).

(** [WhisperModel.transcribe] *)
Definition transcribe (self : t) (audio_path : string) : outcome (gmap string pyval) :=
  try_except
    (result ←
       match pipe self with
       | Some f => f audio_path
       | None => Raise (TypeError "'NoneType' object is not callable")
       end;
     transcript ← py_get result "text" (PStr "");
     has_chunks ← py_contains result "chunks";
     chunks ←
       (if has_chunks : bool then
          cs ← py_getitem result "chunks";
          cs ← py_iter cs;
          for_each format_chunk cs
        else Ret ([] : list pyval));
     Ret {[ "text" := transcript; "chunks" := PList chunks ]})
    (λ e, Ret (error_result (py_str_exn e))).

End Whisper.

(** ** HTTP, as the [requests] package gives it *)

Record http_response := {
  status_code : Z;
  response_text : string;
  response_json : outcome pyval }.   (* response.json() *)

(** [obj.attr] on an object given by its attributes *)
Definition py_attr (v : pyval) (k : string) : outcome pyval :=
  match v with
  | PDict d =>
      match assoc k d with
      | Some x => Ret x
      | None => Raise (AttributeError k)
      end
  | _ => Raise (AttributeError k)
  end.

(** [a + b] on strings *)
Definition py_concat (a : string) (v : pyval) : outcome string :=
  match v with
  | PStr s => Ret (a ++ s)
  | _ => Raise (TypeError "can only concatenate str to str")
  end.

(** ** models/deepgram_model.py *)

Module Deepgram.

(** [client.listen.rest.v("1").transcribe_file(payload, options)] with
    the buffer of the payload. *)
Definition client_fn := string → pyval → outcome pyval.

Record lib := { DeepgramClient : pyval → outcome client_fn }.

Record t := {
  config : gmap string pyval;
  name : string;
  client : option client_fn;
  api_key : pyval;
  model : pyval;
  language : pyval;
  punctuate : pyval;
  smart_format : pyval }.

(** [DeepgramModel.__init__] *)
Definition init (E : py_env) (config : gmap string pyval) : outcome t :=
  Ret {| config := config; name := "deepgram"; client := None;
         api_key := environ_get E "DEEPGRAM_API_KEY" (config_get config "api_key" PNone);
         model := config_get config "model" (PStr "nova-3");
         language := config_get config "language" (PStr "en");
         punctuate := config_get config "punctuate" (PBool true);
         smart_format := config_get config "smart_format" (PBool true) |}.

(** [DeepgramModel.load] *)
Definition load (L : lib) (self : t) : outcome t :=
  if negb (py_truthy (api_key self)) then
    Raise (ValueError "Deepgram API key is required. Set it in config or DEEPGRAM_API_KEY environment variable.")
  else
    c ← DeepgramClient L (api_key self);
    Ret {| config := config self; name := name self; client := Some c;
           api_key := api_key self; model := model self; language := language self;
           punctuate := punctuate self; smart_format := smart_format self |}.

(** [response['results']['channels'][0]['alternatives'][0]] *)
Definition first_alternative (response : pyval) : outcome pyval :=
  r ← py_getitem response "results";
  cs ← py_getitem r "channels";
  c ← py_index cs 0;
  alts ← py_getitem c "alternatives";
  py_index alts 0.

Definition format_word (word : pyval) : outcome pyval :=
  w ← py_attr word "word";
  s ← py_attr word "start";
  e ← py_attr word "end";
  c ← py_attr word "confidence";
  dflt ← py_attr word "word";
  let p := match py_attr word "punctuated_word" with Ret x => x | Raise _ => dflt end in
  Ret (PDict [("word", w); ("start_time", s); ("end_time", e); ("confidence", c);
              ("punctuated_word", p)]).

(** [DeepgramModel.transcribe] *)
Definition transcribe (E : py_env) (self : t) (audio_path : string)
    : outcome (gmap string pyval) :=
  try_except
    (buffer_data ← read_file E audio_path;
     let options := PDict [("punctuate", punctuate self); ("language", language self);
                           ("model", model self); ("smart_format", smart_format self)] in
     response ←
       match client self with
       | Some f => f buffer_data options
       | None => Raise (AttributeError "'NoneType' object has no attribute 'listen'")
       end;
     alt ← first_alternative response;
     transcript ← py_getitem alt "transcript";
     alt ← first_alternative response;
     words_info ← py_getitem alt "words";
     words_info ← py_iter words_info;
     chunks ← for_each format_word words_info;
     alt ← first_alternative response;
     confidence ← py_get alt "confidence" (PNum 0);
     Ret {[ "text" := transcript; "chunks" := PList chunks; "confidence" := confidence ]})
    (λ e, Ret (error_result (py_str_exn e))).

End Deepgram.

(** ** models/google_model.py *)

Module Google.

Record lib := {
  (* subprocess.run(['gcloud', 'auth', 'print-access-token'], check=True).stdout *)
  gcloud_print_access_token : outcome string;
  (* requests.post(url, headers=.., json=..) *)
  post : string → pyval → pyval → outcome http_response }.

Record t := {
  config : gmap string pyval;
  name : string;
  api_key : pyval;
  language_code : pyval }.

(** [GoogleModel.__init__] *)
Definition init (E : py_env) (config : gmap string pyval) : outcome t :=
  Ret {| config := config; name := "google";
         api_key := environ_get E "GOOGLE_API_KEY" (config_get config "api_key" PNone);
         language_code := config_get config "language_code" (PStr "en-US") |}.

(** [except (subprocess.CalledProcessError, FileNotFoundError)] *)
Definition gcloud_failure (e : exn) : bool :=
  String.eqb (exn_type e) "CalledProcessError" || String.eqb (exn_type e) "FileNotFoundError".

(** [GoogleModel._check_gcloud_auth] *)
Definition _check_gcloud_auth (L : lib) (self : t) : outcome bool :=
  match gcloud_print_access_token L with
  | Ret stdout => Ret (negb (String.eqb (PyString.strip stdout) ""))
  | Raise e => if gcloud_failure e then Ret false else Raise e
  end.

(** [GoogleModel.load]: a warning is printed when there is neither a key
    nor a gcloud login; nothing is raised for it. *)
Definition load (L : lib) (self : t) : outcome t :=
  if negb (py_truthy (api_key self)) then
    authenticated ← _check_gcloud_auth L self;
    if negb authenticated then Ret self   (* print("WARNING: ...") *)
    else Ret self                         (* print("... initialized successfully.") *)
  else Ret self.

(** [GoogleModel._get_access_token] *)
Definition _get_access_token (L : lib) (self : t) : outcome pyval :=
  if py_truthy (api_key self) then Ret (api_key self)
  else
    match gcloud_print_access_token L with
    | Ret stdout => Ret (PStr (PyString.strip stdout))
    | Raise e => if gcloud_failure e then Ret PNone else Raise e
    end.

(** [Path(file_path).suffix] *)
Definition suffix (file_path : string) : string :=
  let name := PyString.basename_chars (list_ascii_of_string file_path) in
  match PyString.rsplit_at "." name with
  | Some (stem, ext) =>
      match stem, ext with
      | _ :: _, _ :: _ => string_of_list_ascii ("."%char :: ext)
      | _, _ => ""
      end
  | None => ""
  end.

(** [GoogleModel._detect_audio_format] *)
Definition _detect_audio_format (file_path : string) : string * Z :=
  let file_ext := PyString.lower (suffix file_path) in
  let encoding :=
    if String.eqb file_ext ".flac" then "FLAC"
    else if String.eqb file_ext ".wav" then "LINEAR16"
    else if String.eqb file_ext ".mp3" then "MP3"
    else if String.eqb file_ext ".ogg" then "OGG_OPUS"
    else "FLAC" in
  (encoding, 16000%Z).

Definition py_is_zero (v : pyval) : bool :=
  match v with
  | PNum q => bool_decide (q = 0)
  | PBool b => negb b
  | _ => false
  end.

(** [result["alternatives"][0]] when [result] has a non-empty list of
    alternatives. *)
Definition first_alternative (result : pyval) : outcome (option pyval) :=
  has ← py_contains result "alternatives";
  if has : bool then
    alts ← py_getitem result "alternatives";
    if py_truthy alts then
      alts ← py_getitem result "alternatives";
      alt ← py_index alts 0;
      Ret (Some alt)
    else Ret None
  else Ret None.

(** One turn of the first loop over [response_json["results"]]. *)
Definition add_transcript (acc : string * pyval) (result : pyval)
    : outcome (string * pyval) :=
  let '(transcript, confidence) := acc in
  alt ← first_alternative result;
  match alt with
  | Some alt =>
      t ← py_getitem alt "transcript";
      piece ← match t with
              | PStr s => Ret (s ++ " ")
              | _ => Raise (TypeError "unsupported operand type(s) for +")
              end;
      let transcript := transcript ++ piece in
      has ← py_contains alt "confidence";
      if has : bool then
        if py_is_zero confidence then
          c ← py_getitem alt "confidence";
          Ret (transcript, c)
        else Ret (transcript, confidence)
      else Ret (transcript, confidence)
  | None => Ret (transcript, confidence)
  end.

Fixpoint lstrip_s (l : list ascii) : list ascii :=
  match l with
  | c :: l' => if Ascii.eqb c "s" then lstrip_s l' else l
  | [] => []
  end.

(** [s.rstrip("s")] *)
Definition rstrip_s (v : pyval) : outcome pyval :=
  match v with
  | PStr s =>
      Ret (PStr (string_of_list_ascii (rev (lstrip_s (rev (list_ascii_of_string s))))))
  | _ => Raise (AttributeError "object has no attribute 'rstrip'")
  end.

Definition format_word (E : py_env) (word_info : pyval) : outcome pyval :=
  w ← py_getitem word_info "word";
  s ← py_getitem word_info "startTime";
  s ← rstrip_s s;
  s ← py_float E s;
  e ← py_getitem word_info "endTime";
  e ← rstrip_s e;
  e ← py_float E e;
  Ret (PDict [("word", w); ("start_time", PNum s); ("end_time", PNum e)]).

(** One turn of the second loop over [response_json["results"]]. *)
Definition add_words (E : py_env) (words : list pyval) (result : pyval)
    : outcome (list pyval) :=
  alt ← first_alternative result;
  match alt with
  | Some alt =>
      has ← py_contains alt "words";
      if has : bool then
        ws ← py_getitem alt "words";
        ws ← py_iter ws;
        new ← for_each (format_word E) ws;
        Ret (words ++ new)%list
      else Ret words
  | None => Ret words
  end.

Definition results_of (response_json : pyval) : outcome (list pyval) :=
  has ← py_contains response_json "results";
  if has : bool then
    rs ← py_getitem response_json "results";
    py_iter rs
  else Ret [].

(** [GoogleModel.transcribe] *)
Definition transcribe (E : py_env) (L : lib) (self : t) (audio_path : string)
    : outcome (gmap string pyval) :=
  try_except
    (access_token ← _get_access_token L self;
     if negb (py_truthy access_token) then
       Ret {[ "error" := PStr "Failed to get access token"; "text" := PStr "" ]}
     else
       let '(encoding, sample_rate_hertz) := _detect_audio_format audio_path in
       audio_content ← read_file E audio_path;
       let audio_content_base64 := b64encode E audio_content in
       let request_body :=
         PDict [("config", PDict [("encoding", PStr encoding);
                                 ("sampleRateHertz", PNum (Qc_of_Z sample_rate_hertz));
                                 ("languageCode", language_code self);
                                 ("enableWordTimeOffsets", PBool true);
                                 ("enableAutomaticPunctuation", PBool true)]);
                ("audio", PDict [("content", PStr audio_content_base64)])] in
       let headers :=
         PDict [("Content-Type", PStr "application/json");
                ("Authorization", PStr ("Bearer " ++ format_value E access_token))] in
       response ← post L "https://speech.googleapis.com/v1/speech:recognize"
                          headers request_body;
       if negb (status_code response =? 200)%Z then
         Ret {[ "error" := PStr (response_text response); "text" := PStr "" ]}
       else
         response_json ← response_json response;
         rs ← results_of response_json;
         '(transcript, confidence) ← fold_outcome add_transcript rs ("", PNum 0);
         rs ← results_of response_json;
         words ← fold_outcome (add_words E) rs [];
         Ret {[ "text" := PStr (PyString.strip transcript);
                "confidence" := confidence;
                "chunks" := PList words;
                "raw_response" := response_json ]})
    (λ e, Ret (error_result (py_str_exn e))).

End Google.

(** ** models/salad_model.py *)

Module Salad.

Record lib := {
  (* requests.post(url, headers=.., json=..) *)
  post : string → pyval → pyval → outcome http_response;
  (* requests.get(url, headers=..): the answer to the n-th status
     request of one call of transcribe *)
  get : nat → string → pyval → outcome http_response }.

Record t := {
  config : gmap string pyval;
  name : string;
  api_key : pyval;
  organization : pyval }.

(** [SaladModel.__init__] *)
Definition init (E : py_env) (config : gmap string pyval) : outcome t :=
  Ret {| config := config; name := "salad";
         api_key := environ_get E "SALAD_API_KEY" (config_get config "api_key" PNone);
         organization := config_get config "organization" (PStr "nurix-ai") |}.

(** [SaladModel.load] *)
Definition load (self : t) : outcome t :=
  if negb (py_truthy (api_key self)) then
    Raise (ValueError "Salad API key is required. Set it in config or SALAD_API_KEY environment variable.")
  else Ret self.

(** [SaladModel._get_presigned_url] *)
Definition _get_presigned_url (E : py_env) (audio_path : string) : string :=
  "file://" ++ abspath E audio_path.

Definition jobs_url (E : py_env) (self : t) : string :=
  "https://api.salad.com/api/public/organizations/" ++ format_value E (organization self)
    ++ "/inference-endpoints/transcribe/jobs".

(** [SaladModel._submit_transcription_job] *)
Definition _submit_transcription_job (E : py_env) (L : lib) (self : t)
    (audio_url audio_file_id : string) : outcome pyval :=
  let url := jobs_url E self in
  let headers := PDict [("Salad-Api-Key", api_key self);
                        ("Content-Type", PStr "application/json")] in
  let payload :=
    PDict [("input", PDict [("url", PStr audio_url); ("language_code", PStr "en");
                            ("return_as_file", PBool false);
                            ("sentence_level_timestamps", PBool true);
                            ("word_level_timestamps", PBool true);
                            ("diarization", PBool false);
                            ("sentence_diarization", PBool false);
                            ("srt", PBool false); ("summarize", PNum 0);
                            ("custom_vocabulary", PStr "")]);
           ("metadata", PDict [("audio_file_id", PStr audio_file_id)])] in
  response ← post L url headers payload;
  if negb (status_code response =? 200)%Z then Ret PNone
  else response_json response.

(** [SaladModel._get_job_status], for the [n]-th status request *)
Definition _get_job_status (E : py_env) (L : lib) (self : t) (n : nat) (job_id : pyval)
    : outcome pyval :=
  let url := jobs_url E self ++ "/" ++ format_value E job_id in
  let headers := PDict [("Salad-Api-Key", api_key self)] in
  response ← get L n url headers;
  if negb (status_code response =? 200)%Z then Ret PNone
  else response_json response.

Definition max_retries : nat := 60.

(** How the polling loop of [transcribe] ends: by [break] with the last
    status, by its [return] on a failed job, or by running out of
    retries (the [else] of the [for]). *)
Inductive poll_end :=
  | Completed (job_status : pyval)
  | JobFailed (result : gmap string pyval)
  | TimedOut.

(** [for retry in range(max_retries): ...], with [retries] turns left
    and [n] status requests made so far.  The five seconds slept between
    two requests are not modelled. *)
Fixpoint poll (E : py_env) (L : lib) (self : t) (job_id : pyval) (retries n : nat)
    : outcome poll_end :=
  match retries with
  | O => Ret TimedOut
  | S retries' =>
      job_status ← _get_job_status E L self n job_id;
      if negb (py_truthy job_status) then poll E L self job_id retries' (S n)
      else
        st ← py_get job_status "status" (PStr "");
        status ← py_lower st;
        if String.eqb status "succeeded" || String.eqb status "completed" then
          Ret (Completed job_status)
        else if String.eqb status "failed" || String.eqb status "error" then
          error_message ← py_get job_status "error" (PStr "Unknown error");
          Ret (JobFailed (error_result ("Job failed: " ++ format_value E error_message)))
        else poll E L self job_id retries' (S n)
  end.

Definition format_word (word_info : pyval) : outcome pyval :=
  w ← py_get word_info "word" (PStr "");
  s ← py_get word_info "start" (PNum 0);
  e ← py_get word_info "end" (PNum 0);
  c ← py_get word_info "confidence" (PNum 0);
  Ret (PDict [("word", w); ("start_time", s); ("end_time", e); ("confidence", c)]).

(** [SaladModel.transcribe] *)
Definition transcribe (E : py_env) (L : lib) (self : t) (audio_path : string)
    : outcome (gmap string pyval) :=
  try_except
    (let audio_file_id := (PyString.splitext (PyString.basename audio_path)).1 in
     let audio_url := _get_presigned_url E audio_path in
     job_response ← _submit_transcription_job E L self audio_url audio_file_id;
     no_id ← (if negb (py_truthy job_response) then Ret true
              else has ← py_contains job_response "id"; Ret (negb has));
     if no_id : bool then Ret (error_result "Failed to submit transcription job")
     else
       job_id ← py_getitem job_response "id";
       ended ← poll E L self job_id max_retries 0;
       match ended with
       | TimedOut => Ret (error_result "Job timed out")
       | JobFailed result => Ret result
       | Completed job_status =>
           text ← py_get job_status "text" (PStr "");
           has_words ← py_contains job_status "words";
           words_info ←
             (if has_words : bool then py_get job_status "words" (PList [])
              else
                has_segments ← py_contains job_status "word_segments";
                if has_segments : bool then py_get job_status "word_segments" (PList [])
                else Ret (PList []));
           words_info ← py_iter words_info;
           chunks ← for_each format_word words_info;
           Ret {[ "text" := text; "chunks" := PList chunks; "job_id" := job_id ]}
       end)
    (λ e, Ret (error_result (py_str_exn e))).

End Salad.

(** ** models/aws_model.py *)

Module AWS.

(** The requests sent to S3 and to Transcribe, in the order sent. *)
Inductive event :=
  | Upload (path bucket key : string)
  | StartJob (job_name media_uri : string)
  | GetJob (job_name : string)
  | Download (bucket key : string)
  | Delete (bucket : string) (key : option string).

Record s3_client := {
  upload_file : string → string → string → outcome unit;
  (* download_file(bucket, key, path): the content left at path *)
  download_file : string → string → string → outcome string;
  delete_object : string → option string → outcome unit }.

Record transcribe_client := {
  (* job name, media uri, media format, language code, output bucket, output key *)
  start_transcription_job :
    string → string → string → pyval → string → string → outcome pyval;
  (* the answer to the n-th status request of one call of transcribe *)
  get_transcription_job : nat → string → outcome pyval }.

Record lib := {
  client_transcribe : outcome transcribe_client;   (* boto3.client('transcribe') *)
  client_s3 : outcome s3_client;                   (* boto3.client('s3') *)
  uuid4 : string;                                  (* str(uuid.uuid4()) *)
  temp_name : string }.                            (* NamedTemporaryFile(..).name *)

Record t := {
  config : gmap string pyval;
  name : string;
  transcribe_client_of : option transcribe_client;
  s3_client_of : option s3_client;
  language_code : pyval;
  max_concurrent_jobs : pyval;
  output_bucket_name : pyval;
  output_prefix : pyval }.

(** [AWSModel.__init__] *)
Definition init (E : py_env) (config : gmap string pyval) : outcome t :=
  Ret {| config := config; name := "aws";
         transcribe_client_of := None; s3_client_of := None;
         language_code := config_get config "language_code" (PStr "en-US");
         max_concurrent_jobs := config_get config "max_concurrent_jobs" (PNum (Qc_of_Z 90));
         output_bucket_name := config_get config "output_bucket_name" PNone;
         output_prefix := config_get config "output_prefix" (PStr "transcripts") |}.

(** [AWSModel.load] *)
Definition load (L : lib) (self : t) : outcome t :=
  tc ← client_transcribe L;
  s3 ← client_s3 L;
  Ret {| config := config self; name := name self;
         transcribe_client_of := Some tc; s3_client_of := Some s3;
         language_code := language_code self;
         max_concurrent_jobs := max_concurrent_jobs self;
         output_bucket_name := output_bucket_name self;
         output_prefix := output_prefix self |}.

(** The engine object and the requests sent so far. *)
Record world := { me : t; trace : list event }.

(** A call in progress has returned, has raised, or is still in its
    waiting loop when the steps allowed to it are used up. *)
Inductive run (A : Type) :=
  | Returned (a : A)
  | Raised (e : exn)
  | Waiting.
Arguments Returned {A} a.
Arguments Raised {A} e.
Arguments Waiting {A}.

Definition M (A : Type) : Type := world → run A * world.

Definition ret {A} (a : A) : M A := λ w, (Returned a, w).

Definition bind {A B} (m : M A) (f : A → M B) : M B := λ w,
  match m w with
  | (Returned a, w') => f a w'
  | (Raised e, w') => (Raised e, w')
  | (Waiting, w') => (Waiting, w')
  end.

(** A Python expression that sends no request. *)
Definition lift {A} (o : outcome A) : M A := λ w,
  match o with
  | Ret a => (Returned a, w)
  | Raise e => (Raised e, w)
  end.

(** A request: it is sent, then it answers or raises. *)
Definition request {A} (ev : event) (o : outcome A) : M A := λ w,
  let w' := {| me := me w; trace := (trace w ++ [ev])%list |} in
  match o with
  | Ret a => (Returned a, w')
  | Raise e => (Raised e, w')
  end.

Definition get_me : M t := λ w, (Returned (me w), w).

(** [self.output_bucket_name = bucket_name] *)
Definition set_output_bucket_name (b : string) : M unit := λ w,
  let self := me w in
  (Returned tt,
   {| me := {| config := config self; name := name self;
               transcribe_client_of := transcribe_client_of self;
               s3_client_of := s3_client_of self;
               language_code := language_code self;
               max_concurrent_jobs := max_concurrent_jobs self;
               output_bucket_name := PStr b;
               output_prefix := output_prefix self |};
      trace := trace w |}).

(** [try: body except Exception as e: handler(e)] *)
Definition try_catch {A} (body : M A) (handler : exn → M A) : M A := λ w,
  match body w with
  | (Raised e, w') => handler e w'
  | r => r
  end.

Declare Scope aws_scope.
Delimit Scope aws_scope with aws.
Notation "x ⇐ c ; k" := (bind c (λ x, k))
  (at level 20, c at level 100, k at level 200, right associativity) : aws_scope.
Notation "' x ⇐ c ; k" := (bind c (λ x, k))
  (at level 20, x pattern, c at level 100, k at level 200, right associativity) : aws_scope.
Open Scope aws_scope.

(** [None.attr] *)
Definition none_has_no (attr : string) : exn :=
  AttributeError ("'NoneType' object has no attribute '" ++ attr ++ "'").

(** [self.s3_client.attr] *)
Definition the_s3 (attr : string) : M s3_client :=
  self ⇐ get_me;
  match s3_client_of self with
  | Some c => ret c
  | None => lift (Raise (none_has_no attr))
  end.

(** [self.transcribe_client.attr] *)
Definition the_transcribe (attr : string) : M transcribe_client :=
  self ⇐ get_me;
  match transcribe_client_of self with
  | Some c => ret c
  | None => lift (Raise (none_has_no attr))
  end.

Definition media_format_map : list (string * string) :=
  [(".wav", "wav"); (".mp3", "mp3"); (".flac", "flac"); (".ogg", "ogg");
   (".amr", "amr"); (".webm", "webm"); (".mp4", "mp4"); (".m4a", "m4a")].

Fixpoint lookup_format (ext : string) (m : list (string * string)) : string :=
  match m with
  | [] => "mp3"
  | (k, v) :: m' => if String.eqb ext k then v else lookup_format ext m'
  end.

(** [while True: ...]: [fuel] turns are allowed, [n] status requests
    have been made.  Answers with the last status response and the job
    status in it.  The five seconds slept between two requests are not
    modelled. *)
Fixpoint wait_for_job (job_name : string) (fuel n : nat) : M (pyval * pyval) :=
  match fuel with
  | O => λ w, (Waiting, w)
  | S fuel' =>
      tc ⇐ the_transcribe "get_transcription_job";
      status ⇐ request (GetJob job_name) (get_transcription_job tc n job_name);
      job_status ⇐ lift (j ← py_getitem status "TranscriptionJob";
                         py_getitem j "TranscriptionJobStatus");
      if is_str job_status "COMPLETED" || is_str job_status "FAILED"
      then ret (status, job_status)
      else wait_for_job job_name fuel' (S n)
  end.

(** [item.get('alternatives', [{}])[0].get(k, dflt)] *)
Definition first_of (item : pyval) (k : string) (dflt : pyval) : outcome pyval :=
  alts ← py_get item "alternatives" (PList [PDict []]);
  alt ← py_index alts 0;
  py_get alt k dflt.

(** One turn of the loop over the items of the transcript. *)
Definition add_segment (E : py_env) (word_segments : list pyval) (item : pyval)
    : outcome (list pyval) :=
  ty ← py_get item "type" PNone;
  if is_str ty "pronunciation" then
    s ← py_get item "start_time" (PNum 0);
    start_time ← py_float E s;
    e ← py_get item "end_time" (PNum 0);
    end_time ← py_float E e;
    content ← first_of item "content" (PStr "");
    c ← first_of item "confidence" (PNum 0);
    confidence ← py_float E c;
    Ret (word_segments ++
           [PDict [("word", content); ("start_time", PNum start_time);
                   ("end_time", PNum end_time); ("confidence", PNum confidence)]])%list
  else Ret word_segments.

Definition segment_confidence (segment : pyval) : pyval :=
  match segment with
  | PDict d => default (PNum 0) (assoc "confidence" d)
  | _ => PNum 0
  end.

(** [AWSModel.transcribe(audio_path, bucket_name=None, audio_key=None)],
    allowed [fuel] turns of its waiting loop. *)
Definition transcribe (E : py_env) (L : lib) (fuel : nat) (audio_path : string)
    (bucket_name audio_key : option string) : M (gmap string pyval) :=
  try_catch
    (let job_name := "transcribe-" ++ uuid4 L in
     let file_ext := PyString.lower (PyString.splitext audio_path).2 in
     let media_format := lookup_format file_ext media_format_map in
     '(bucket_name, audio_key) ⇐
       (if negb (str_truthy bucket_name) then
          let bucket_name := "your-transcribe-temp-bucket" in
          let audio_key := "temp-uploads/" ++ PyString.basename audio_path in
          s3 ⇐ the_s3 "upload_file";
          _ ⇐ request (Upload audio_path bucket_name audio_key)
                      (upload_file s3 audio_path bucket_name audio_key);
          ret (bucket_name, Some audio_key)
        else ret (default "" bucket_name, audio_key));
     _ ⇐ set_output_bucket_name bucket_name;
     self ⇐ get_me;
     let output_key := format_value E (output_prefix self) ++ "/" ++ job_name
                         ++ "/transcript.json" in
     let media_uri := "s3://" ++ bucket_name ++ "/"
                        ++ match audio_key with Some k => k | None => "None" end in
     tc ⇐ the_transcribe "start_transcription_job";
     _ ⇐ request (StartJob job_name media_uri)
                 (start_transcription_job tc job_name media_uri media_format
                    (language_code self) bucket_name output_key);
     '(status, job_status) ⇐ wait_for_job job_name fuel 0;
     _ ⇐ (if is_str job_status "FAILED" then
            lift (j ← py_getitem status "TranscriptionJob";
                  error_reason ← py_get j "FailureReason" (PStr "Unknown error");
                  Raise (Exn "Exception"
                           ("Transcription job failed: " ++ format_value E error_reason)))
          else ret tt);
     let tmp_path := temp_name L in
     s3 ⇐ the_s3 "download_file";
     content ⇐ request (Download bucket_name output_key)
                       (download_file s3 bucket_name output_key tmp_path);
     transcript_result ⇐ lift (json_load E content);
     transcript_text ⇐ lift (r ← py_get transcript_result "results" (PDict []);
                             ts ← py_get r "transcripts" (PList [PDict []]);
                             t0 ← py_index ts 0;
                             py_get t0 "transcript" (PStr ""));
     items ⇐ lift (r ← py_get transcript_result "results" (PDict []);
                   its ← py_get r "items" (PList []);
                   py_iter its);
     word_segments ⇐ lift (fold_outcome (add_segment E) items []);
     _ ⇐ (if negb (str_truthy audio_key) || negb (str_truthy (Some bucket_name)) then
            try_catch
              (s3 ⇐ the_s3 "delete_object";
               _ ⇐ request (Delete bucket_name audio_key)
                           (delete_object s3 bucket_name audio_key);
               request (Delete bucket_name (Some output_key))
                       (delete_object s3 bucket_name (Some output_key)))
              (λ _, ret tt)
          else ret tt);
     confidence ⇐ lift
       (match word_segments with
        | [] => Ret (PNum 0)
        | _ => total ← py_sum (map segment_confidence word_segments);
               Ret (PNum (PyFloat.div total (Qc_of_Z (Z.of_nat (length word_segments)))))
        end);
     ret {[ "text" := transcript_text; "chunks" := PList word_segments;
            "job_name" := PStr job_name; "confidence" := confidence ]})
    (λ e, ret (error_result (py_str_exn e))).

End AWS.

(** ** models/model_factory.py *)

(** An instance of one of the six engine classes. *)
Inductive engine :=
  | DolphinModel (m : Dolphin.t)
  | WhisperModel (m : Whisper.t)
  | GoogleModel (m : Google.t)
  | AWSModel (m : AWS.t)
  | SaladModel (m : Salad.t)
  | DeepgramModel (m : Deepgram.t).

Definition class_name (e : engine) : string :=
  match e with
  | DolphinModel _ => "DolphinModel"
  | WhisperModel _ => "WhisperModel"
  | GoogleModel _ => "GoogleModel"
  | AWSModel _ => "AWSModel"
  | SaladModel _ => "SaladModel"
  | DeepgramModel _ => "DeepgramModel"
  end.

(** [model_map]: the class of each name, as its constructor. *)
Definition model_map (E : py_env)
    : list (string * (gmap string pyval → outcome engine)) :=
  [("dolphin", λ config, DolphinModel <$> Dolphin.init E config);
   ("whisper", λ config, WhisperModel <$> Whisper.init E config);
   ("google", λ config, GoogleModel <$> Google.init E config);
   ("aws", λ config, AWSModel <$> AWS.init E config);
   ("salad", λ config, SaladModel <$> Salad.init E config);
   ("deepgram", λ config, DeepgramModel <$> Deepgram.init E config)].

Fixpoint map_lookup {A} (k : string) (m : list (string * A)) : option A :=
  match m with
  | [] => None
  | (k', v) :: m' => if String.eqb k k' then Some v else map_lookup k m'
  end.

(** [get_model(model_name, config)] *)
Definition get_model (E : py_env) (model_name : string) (config : gmap string pyval)
    : outcome engine :=
  match map_lookup model_name (model_map E) with
  | None =>
      Raise (ValueError ("Unknown model: " ++ model_name ++ ". Available models: "
                         ++ String.concat ", " (map fst (model_map E))))
  | Some cls => cls config
  end.

(** ** Properties the statements below speak of *)

(** A result whose [error] is present has the empty [text]. *)
Definition error_implies_empty_text (d : gmap string pyval) : Prop :=
  is_Some (d !! "error") → d !! "text" = Some (PStr "").

(** A result that carries no metrics of its own. *)
Definition no_metrics (d : gmap string pyval) : Prop :=
  d !! "wer" = None ∧ d !! "cer" = None.

(** What every result of an engine satisfies. *)
Definition engine_result (d : gmap string pyval) : Prop :=
  error_implies_empty_text d ∧ no_metrics d.

(** Nothing that [load] sets is set. *)
Definition unloaded (e : engine) : Prop :=
  match e with
  | DolphinModel m => Dolphin.model m = None
  | WhisperModel m =>
      Whisper.model m = None ∧ Whisper.processor m = None ∧ Whisper.pipe m = None
  | GoogleModel _ => True
  | AWSModel m => AWS.transcribe_client_of m = None ∧ AWS.s3_client_of m = None
  | SaladModel _ => True
  | DeepgramModel m => Deepgram.client m = None
  end.

(** The class [model_map] gives to a name. *)
Definition class_of_name (model_name : string) : option string :=
  if String.eqb model_name "dolphin" then Some "DolphinModel"
  else if String.eqb model_name "whisper" then Some "WhisperModel"
  else if String.eqb model_name "google" then Some "GoogleModel"
  else if String.eqb model_name "aws" then Some "AWSModel"
  else if String.eqb model_name "salad" then Some "SaladModel"
  else if String.eqb model_name "deepgram" then Some "DeepgramModel"
  else None.

(** The text has a tag at its head: [<], one or more characters other
    than [>], then [>]. *)
Definition tag_at_head (l : list ascii) : Prop :=
  ∃ m b, l = ("<"%char :: m ++ ">"%char :: b)%list ∧ m ≠ [] ∧ ">"%char ∉ m.

(** The text has a tag somewhere. *)
Definition has_tag (l : list ascii) : Prop :=
  ∃ a s, l = (a ++ s)%list ∧ tag_at_head s.

(** [out] is [l] with some of its tags deleted and nothing else changed. *)
Inductive tags_deleted : list ascii → list ascii → Prop :=
  | td_nil : tags_deleted [] []
  | td_keep c l out : tags_deleted l out → tags_deleted (c :: l) (c :: out)
  | td_tag m l out :
      m ≠ [] → ">"%char ∉ m → tags_deleted l out →
      tags_deleted ("<"%char :: m ++ ">"%char :: l)%list out.

(** The text neither starts nor ends with white space. *)
Definition stripped (l : list ascii) : Prop :=
  (∀ c l', l = c :: l' → PyString.is_space c = false) ∧
  (∀ c l', l = (l' ++ [c])%list → PyString.is_space c = false).

(** No transcript of the dictionary is the empty string. *)
Definition values_nonempty (d : gmap string string) : Prop :=
  ∀ k t, d !! k = Some t → t ≠ "".

(** A configuration whose [model_dir], when given, is a string. *)
Definition model_dir_is_str (config : gmap string pyval) : Prop :=
  ∀ v, config !! "model_dir" = Some v → ∃ s, v = PStr s.

(** The accumulated duration: the durations added to [acc] one by one,
    in order, each addition a float addition, as [total_duration +=
    duration] does. *)
Definition accumulated (acc : Qc) (durations : list Qc) : Qc :=
  foldl PyFloat.add acc durations.

(** The budget rule in the words of the specification: items are taken in
    order while the duration accumulated over the items taken before is
    below the budget. *)
Fixpoint within_budget (D acc : Qc) (items : list (string * Qc)) : list (string * Qc) :=
  match items with
  | [] => []
  | (x, d) :: rest =>
      if bool_decide (acc < D)%Qc then (x, d) :: within_budget D (PyFloat.add acc d) rest
      else []
  end.

(** The audio files the loop can hand to the engine: those with a ground
    truth whose download and duration probe succeed, with the local path
    and the duration. *)
Definition probe (C : corpus) (transcript_dict : gmap string string)
    (audio_file_key : string) : option (string * Qc) :=
  match transcript_dict !! file_id_of audio_file_key with
  | None => None
  | Some _ =>
      match download_file_from_s3 C audio_file_key with
      | Raise _ => None
      | Ret path =>
          match get_audio_duration C path with
          | Raise _ => None
          | Ret d => Some (path, d)
          end
      end
  end.

Definition duration_of (C : corpus) (path : string) : Qc :=
  match get_audio_duration C path with
  | Ret d => d
  | Raise _ => 0
  end.

(** The duration accumulated over the audio files at [paths], from zero. *)
Definition sum_durations (C : corpus) (paths : list string) : Qc :=
  accumulated 0 (map (duration_of C) paths).

Definition is_delete (ev : AWS.event) : Prop :=
  match ev with
  | AWS.Delete _ _ => True
  | _ => False
  end.

Definition is_get_job (ev : AWS.event) : bool :=
  match ev with
  | AWS.GetJob _ => true
  | _ => false
  end.

(** The output directory after one more item has been recorded: its JSON
    file holds [result], and one row is appended to the CSV log. *)
Definition row_of (file_id ground_truth : string) (result : gmap string pyval) : csv_row := {|
  row_file_id := file_id;
  row_ground_truth := ground_truth;
  row_hypothesis := default (PStr "") (result !! "text");
  row_wer := default (PStr "") (result !! "wer");
  row_cer := default (PStr "") (result !! "cer");
  row_confidence := result !! "confidence" |}.

Definition recorded (dir : output_dir) (file_id ground_truth : string)
    (result : gmap string pyval) : output_dir := {|
  json_files := <[file_id := result]> (json_files dir);
  csv_file := Some (match csv_file dir with
                    | Some lines => lines
                    | None => [CsvHeader (csv_fieldnames result)]
                    end ++ [CsvRow (row_of file_id ground_truth result)])%list |}.

(** The entry [process_dataset] appends to [results] for a scored item. *)
Definition scored_entry (file_id : string) (w c : Qc) : gmap string pyval :=
  {[ "file_id" := PStr file_id; "wer" := PNum w; "cer" := PNum c ]}.

(** The result dictionary after [save_result] has scored it. *)
Definition scored (result : gmap string pyval) (ground_truth : string) (w c : Qc)
    : gmap string pyval :=
  <["cer" := PNum c]> (<["wer" := PNum w]> (<["ground_truth" := PStr ground_truth]> result)).

Definition num_files_of (o : outcome (option dataset_run)) : option nat :=
  match o with
  | Ret (Some r) => Some (num_files (run_metrics r))
  | _ => None
  end.

Definition final_of (o : outcome (option dataset_run)) : option run_state :=
  match o with
  | Ret (Some r) => Some (run_final r)
  | _ => None
  end.

(** Whatever the state it starts from, [m] sends only requests that
    satisfy [P], and what it returns, when it returns, satisfies [Q]. *)
Definition aws_post {A} (m : AWS.M A) (P : AWS.event → Prop) (Q : A → Prop) : Prop :=
  ∀ w, ∃ evs, AWS.trace (m w).2 = (AWS.trace w ++ evs)%list ∧ Forall P evs ∧
              ∀ a, (m w).1 = AWS.Returned a → Q a.

(** ** evaluate.py *)

Module Evaluate.

(** A dictionary that is gone through in insertion order, as
    [references.items()] is: a key that is set again keeps its place. *)
Fixpoint dict_set (k v : string) (d : list (string * string)) : list (string * string) :=
  match d with
  | [] => [(k, v)]
  | (k', v') :: d' =>
      if String.eqb k k' then (k, v) :: d' else (k', v') :: dict_set k v d'
  end.

Definition add_reference_line (transcript_dict : list (string * string)) (line : string)
    : list (string * string) :=
  match parse_transcript_line line with
  | Some (key, transcript) => dict_set key transcript transcript_dict
  | None => transcript_dict
  end.

(** [load_reference_transcripts(reference_path)], given the lines of the
    transcript files found under the path, or of the path itself when it
    is a file.  Reading the files is taken to succeed. *)
Definition load_reference_transcripts (trans_files : list (list string))
    : list (string * string) :=
  foldl (λ transcript_dict lines, foldl add_reference_line transcript_dict lines)
        [] trans_files.

(** One turn of the loop of [load_hypothesis_transcripts] over the JSON
    files: the path, and what [json.load] gives for the file. *)
Definition add_hypothesis (hypothesis_dict : gmap string string)
    (json_file : string * outcome pyval) : outcome (gmap string string) :=
  let file_id := (PyString.splitext (PyString.basename json_file.1)).1 in
  try_except
    (data ← json_file.2;
     has ← py_contains data "text";
     if has : bool then
       t ← py_getitem data "text";
       h ← py_lower t;
       Ret (<[file_id := h]> hypothesis_dict)
     else Ret hypothesis_dict)
    (λ e, if String.eqb (exn_type e) "JSONDecodeError" then Ret hypothesis_dict
          else Raise e).

(** [load_hypothesis_transcripts(hypothesis_path)] *)
Definition load_hypothesis_transcripts (json_files : list (string * outcome pyval))
    : outcome (gmap string string) :=
  fold_outcome add_hypothesis json_files ∅.

(** An entry of the list [calculate_metrics] returns. *)
Record row := {
  ev_file_id : string;      (* 'file_id' *)
  ev_reference : string;    (* 'reference' *)
  ev_hypothesis : string;   (* 'hypothesis' *)
  ev_wer : Qc;              (* 'wer' *)
  ev_cer : Qc }.            (* 'cer' *)

(** [calculate_metrics(references, hypotheses)] *)
Definition calculate_metrics (J : jiwer_lib) (references : list (string * string))
    (hypotheses : gmap string string) : outcome (list row) :=
  fold_outcome
    (λ results '(file_id, reference),
       match hypotheses !! file_id with
       | Some hypothesis =>
           file_wer ← wer J reference hypothesis;
           file_cer ← cer J reference hypothesis;
           Ret (results ++ [ {| ev_file_id := file_id; ev_reference := reference;
                                ev_hypothesis := hypothesis; ev_wer := file_wer;
                                ev_cer := file_cer |} ])%list
       | None => Ret results
       end)
    references [].

(** The summary [save_summary(results, output_json)] writes. *)
Definition save_summary (results : list row) : metrics :=
  match results with
  | [] => {| avg_wer := 0; avg_cer := 0; num_files := 0 |}
  | _ =>
      {| avg_wer := PyFloat.div (foldl PyFloat.add 0 (map ev_wer results))
                                (Qc_of_Z (Z.of_nat (length results)));
         avg_cer := PyFloat.div (foldl PyFloat.add 0 (map ev_cer results))
                                (Qc_of_Z (Z.of_nat (length results)));
         num_files := length results |}
  end.

End Evaluate.

(** ** config.py and the configuration [main] of transcribe.py makes *)

(** [API_KEYS] *)
Definition API_KEYS : gmap string pyval :=
  {[ "deepgram" := PNone; "salad" := PNone; "google" := PNone; "aws" := PNone ]}.

(** [MODEL_CONFIGS] *)
Definition MODEL_CONFIGS : gmap string (gmap string pyval) :=
  {[ "dolphin" := {[ "model_size" := PStr "small"; "model_dir" := PStr "~/.cache/dolphin";
                     "device" := PStr "cuda"; "language" := PStr "en";
                     "region" := PStr "US" ]};
     "whisper" := {[ "model_id" := PStr "openai/whisper-large-v3-turbo"; "device" := PNone;
                     "batch_size" := PNum 1; "language" := PStr "en" ]};
     "google" := {[ "language_code" := PStr "en-US" ]};
     "aws" := {[ "language_code" := PStr "en-US";
                 "max_concurrent_jobs" := PNum (Qc_of_Z 90);
                 "output_prefix" := PStr "transcripts" ]};
     "salad" := {[ "organization" := PStr "nurix-ai" ]};
     "deepgram" := {[ "model" := PStr "nova-3"; "language" := PStr "en";
                      "punctuate" := PBool true; "smart_format" := PBool true ]} ]}.

(** The configuration [main] hands to [get_model], for the [--model] and
    the [--api-key] of the command line ([None] when the option is not
    given). *)
Definition main_model_config (model : string) (api_key : option string)
    : gmap string pyval :=
  let API_KEYS :=
    if str_truthy api_key then <[model := PStr (default "" api_key)]> API_KEYS
    else API_KEYS in
  let model_config := default ∅ (MODEL_CONFIGS !! model) in
  if key_in model API_KEYS && py_truthy (default PNone (API_KEYS !! model))
  then <["api_key" := default PNone (API_KEYS !! model)]> model_config
  else model_config.

(** The model [main] creates: [get_model(args.model, model_config)]. *)
Definition main_get_model (E : py_env) (model : string) (api_key : option string)
    : outcome engine :=
  get_model E model (main_model_config model api_key).

(** ** Properties of the runner and of the transcript files *)

(** An entry of [results] whose two metrics are numbers. *)
Definition numeric_entry (r : gmap string pyval) : Prop :=
  ∃ w c, r !! "wer" = Some (PNum w) ∧ r !! "cer" = Some (PNum c).

(** The header [process_dataset] writes to [results.csv]. *)
Definition log_header : csv_line :=
  CsvHeader ["file_id"; "ground_truth"; "hypothesis"; "wer"; "cer"].

(** The output of a run in the directory [found] is consistent: the log
    is the header followed by [rows]; the JSON files are those that were
    in [found] and those the rows name, and one that no row names is as it
    was; every entry of [results] is the entry of a row. *)
Definition consistent_output (found : output_dir) (st : run_state) (rows : list csv_row)
    : Prop :=
  csv_file (out st) = Some (log_header :: map CsvRow rows) ∧
  dom (json_files (out st))
    = dom (json_files found) ∪ list_to_set (row_file_id <$> rows) ∧
  (∀ id, id ∉ row_file_id <$> rows →
         json_files (out st) !! id = json_files found !! id) ∧
  (length (results st) ≤ length rows ≤ length (calls st))%nat ∧
  Forall (λ r, ∃ id, r !! "file_id" = Some (PStr id) ∧ id ∈ row_file_id <$> rows)
         (results st).

(** [s.endswith(suffixes)] for a tuple of suffixes *)
Definition is_suffix (a l : list ascii) : bool := PyString.is_prefix (rev a) (rev l).

Definition endswith (s : string) (suffixes : list string) : bool :=
  existsb (λ x, is_suffix (list_ascii_of_string x) (list_ascii_of_string s)) suffixes.

(** [list_files_in_s3(bucket_name, prefix, extensions)], given the pages
    the paginator yields for the bucket and the prefix: a page is the
    keys of its ['Contents'], or has no ['Contents']. *)
Definition list_files_in_s3 (pages : list (option (list string))) (extensions : list string)
    : list string :=
  flat_map (λ page : option (list string),
              match page with
              | Some contents =>
                  List.filter (λ key, endswith (PyString.lower key) extensions) contents
              | None => []
              end) pages.

(** The extensions [process_dataset] lists the audio files and the
    transcript files with. *)
Definition audio_extensions : list string := [".wav"; ".mp3"; ".flac"].
Definition transcript_extensions : list string := [".trans.txt"].

(** All the keys of the pages, in the order listed. *)
Definition all_keys (pages : list (option (list string))) : list string :=
  flat_map (λ page : option (list string), default [] page) pages.

(** An entry of the transcript dictionary as [build_transcript_dict] makes
    them: the id is not empty and has no space, the transcript is not
    empty and is in lower case. *)
Definition entry_ok (k t : string) : Prop :=
  k ≠ "" ∧ (" "%char ∉ list_ascii_of_string k) ∧ t ≠ "" ∧ PyString.lower t = t.

(** A status answer of Salad on which the polling loop goes on: nothing
    usable, or a status that is neither a success nor a failure. *)
Definition salad_pending (E : py_env) (L : Salad.lib) (self : Salad.t) (job_id : pyval)
    (k : nat) : Prop :=
  ∃ js, Salad._get_job_status E L self k job_id = Ret js ∧
        (py_truthy js = false ∨
         ∃ s, py_get js "status" (PStr "") = Ret (PStr s) ∧
              PyString.lower s ∉ ["succeeded"; "completed"; "failed"; "error"]).

(** The submission of a Salad job is answered with a job that has an
    [id]. *)
Definition salad_submitted (E : py_env) (L : Salad.lib) (self : Salad.t)
    (audio_path : string) (job_id : pyval) : Prop :=
  ∃ d, Salad._submit_transcription_job E L self (Salad._get_presigned_url E audio_path)
         (PyString.splitext (PyString.basename audio_path)).1 = Ret (PDict d) ∧
       assoc "id" d = Some job_id.

(** The job status in a status response of Transcribe, as the waiting
    loop of the AWS engine reads it. *)
Definition aws_job_status (status : pyval) : outcome pyval :=
  j ← py_getitem status "TranscriptionJob"; py_getitem j "TranscriptionJobStatus".

(** The [k]-th status request is answered with a status that is neither
    [COMPLETED] nor [FAILED]. *)
Definition aws_job_running (tc : AWS.transcribe_client) (job_name : string) (k : nat)
    : Prop :=
  ∃ status js, AWS.get_transcription_job tc k job_name = Ret status ∧
               aws_job_status status = Ret js ∧
               is_str js "COMPLETED" = false ∧ is_str js "FAILED" = false.

(** The engine of [w] has been loaded with the two clients. *)
Definition aws_loaded (w : AWS.world) (tc : AWS.transcribe_client) (s3 : AWS.s3_client)
    : Prop :=
  AWS.transcribe_client_of (AWS.me w) = Some tc ∧ AWS.s3_client_of (AWS.me w) = Some s3.

(** A row of evaluate.py is the score of a file that has both a
    reference and a hypothesis. *)
Definition row_scored (J : jiwer_lib) (references : list (string * string))
    (hypotheses : gmap string string) (r : Evaluate.row) : Prop :=
  (Evaluate.ev_file_id r, Evaluate.ev_reference r) ∈ references ∧
  hypotheses !! Evaluate.ev_file_id r = Some (Evaluate.ev_hypothesis r) ∧
  wer J (Evaluate.ev_reference r) (Evaluate.ev_hypothesis r) = Ret (Evaluate.ev_wer r) ∧
  cer J (Evaluate.ev_reference r) (Evaluate.ev_hypothesis r) = Ret (Evaluate.ev_cer r).

(** The lines of the transcript files, as [build_transcript_dict] gets
    them, file by file. *)
Definition read_transcripts (C : corpus) (transcript_keys : list string)
    : outcome (list (list string)) :=
  for_each (λ transcript_key,
              local_transcript_path ← download_file_from_s3 C transcript_key;
              read_lines C local_transcript_path)
           transcript_keys.

(** The transcript of the last of [lines] that is kept for [file_id]. *)
Definition last_transcript (file_id : string) (lines : list string) : option string :=
  list.last (omap (λ line, match parse_transcript_line line with
                           | Some (key, transcript) =>
                               if String.eqb key file_id then Some transcript else None
                           | None => None
                           end) lines).

(** The references of evaluate.py and the transcript dictionary of the
    runner hold the same transcripts: each id once, with the same
    text. *)
Definition same_transcripts (references : list (string * string))
    (transcript_dict : gmap string string) : Prop :=
  NoDup references.*1 ∧
  ∀ file_id t, (file_id, t) ∈ references ↔ transcript_dict !! file_id = Some t.

(** A JSON file evaluate.py can take: one that does not parse, or an
    object whose [text], when it has one, is a string. *)
Definition readable_json (json_file : string * outcome pyval) : Prop :=
  match json_file.2 with
  | Raise e => exn_type e = "JSONDecodeError"
  | Ret (PDict d) =>
      match assoc "text" d with
      | Some (PStr _) | None => True
      | Some _ => False
      end
  | Ret _ => False
  end.

(** The hypothesis a JSON file gives for [file_id]: its [text] in lower
    case, when the file is named after [file_id] and has a [text]. *)
Definition hypothesis_in (file_id : string) (json_file : string * outcome pyval)
    : option string :=
  match json_file.2 with
  | Ret (PDict d) =>
      match assoc "text" d with
      | Some (PStr s) =>
          if String.eqb (file_id_of json_file.1) file_id then Some (PyString.lower s)
          else None
      | _ => None
      end
  | _ => None
  end.

(** Google has no usable token from gcloud: the program is missing or
    fails, or it prints nothing but white space. *)
Definition no_gcloud_token (L : Google.lib) : Prop :=
  match Google.gcloud_print_access_token L with
  | Ret stdout => PyString.strip stdout = ""
  | Raise e => Google.gcloud_failure e = true
  end.

(** ** Concrete surroundings, to run the definitions *)

Module Sample.

(** Edit distance between two token lists. *)
Fixpoint edit_distance {A} (eqb : A → A → bool) (a : list A) : list A → nat :=
  fix inner (b : list A) : nat :=
    match a, b with
    | [], _ => length b
    | _, [] => length a
    | x :: a', y :: b' =>
        if eqb x y then edit_distance eqb a' b'
        else S (Nat.min (edit_distance eqb a' b)
                        (Nat.min (inner b') (edit_distance eqb a' b')))
    end.

(** The words of a sentence: split at spaces, empty pieces dropped. *)
Fixpoint words_of (cur : list ascii) (l : list ascii) : list (list ascii) :=
  match l with
  | [] => match cur with [] => [] | _ => [rev cur] end
  | c :: l' =>
      if Ascii.eqb c " " then
        match cur with [] => words_of [] l' | _ => rev cur :: words_of [] l' end
      else words_of (c :: cur) l'
  end.

Definition list_eqb (a b : list ascii) : bool := bool_decide (a = b).

Definition rate {A} (eqb : A → A → bool) (reference hypothesis : list A) : outcome Qc :=
  match reference with
  | [] => Raise (ValueError "one or more references are empty strings")
  | _ => Ret (PyFloat.div (Qc_of_Z (Z.of_nat (edit_distance eqb reference hypothesis)))
                          (Qc_of_Z (Z.of_nat (length reference))))
  end.

(** jiwer: edit distance over the words (the characters) of the
    reference, divided by their number; an empty reference raises. *)
Definition jiwer : jiwer_lib := {|
  wer := λ r h, rate list_eqb (words_of [] (list_ascii_of_string r))
                              (words_of [] (list_ascii_of_string h));
  cer := λ r h, rate Ascii.eqb (PyString.strip_chars (list_ascii_of_string r))
                               (PyString.strip_chars (list_ascii_of_string h)) |}.

Definition env (vars : gmap string string) : py_env := {|
  environ := vars;
  expanduser := λ p, p;
  abspath := λ p, p;
  cuda_is_available := false;
  mps_is_available := false;
  read_file := λ _, Ret "RIFF";
  b64encode := λ s, s;
  json_load := λ _, Ret (PDict [("results",
                 PDict [("transcripts", PList [PDict [("transcript", PStr "hello world")]]);
                        ("items", PList [])])]);
  py_float := λ v, match v with
                   | PNum q => Ret q
                   | _ => Raise (ValueError "could not convert to float")
                   end;
  py_repr := λ _, "?" |}.

(** A corpus of five two-second files, each with the same reference,
    listed in one transcript file. *)
Definition five_files : list string :=
  ["librispeech/test-clean/a.flac"; "librispeech/test-clean/b.flac";
   "librispeech/test-clean/c.flac"; "librispeech/test-clean/d.flac";
   "librispeech/test-clean/e.flac"].

Definition store : corpus := {|
  download_file_from_s3 := λ key, Ret ("/tmp/" ++ PyString.basename key);
  get_audio_duration := λ _, Ret (Qc_of_Z 2);
  read_lines := λ _, Ret ["a HELLO WORLD"; "b HELLO WORLD"; "c HELLO WORLD";
                          "d HELLO WORLD"; "e HELLO WORLD"] |}.

(** An engine that fails on [c.flac] the way the specification's stub
    does: a result with [error] alone. *)
Definition stub_error_only (path : string) : outcome (gmap string pyval) :=
  if String.eqb path "/tmp/c.flac" then Ret {[ "error" := PStr "boom" ]}
  else Ret {[ "text" := PStr "hello world" ]}.

(** An engine that fails on [c.flac] the way the six engines do: the
    result of their [except] clause. *)
Definition stub_engine_error (path : string) : outcome (gmap string pyval) :=
  if String.eqb path "/tmp/c.flac" then Ret (error_result "boom")
  else Ret {[ "text" := PStr "hello world" ]}.

Definition run_with (transcribe : string → outcome (gmap string pyval))
    : outcome (option dataset_run) :=
  process_dataset jiwer store max_audio_duration "stub" transcribe
    five_files ["librispeech/test-clean/1.trans.txt"] "test-clean" new_directory.

Definition status_response (s : string) : pyval :=
  PDict [("TranscriptionJob", PDict [("TranscriptionJobStatus", PStr s)])].

Definition s3 : AWS.s3_client := {|
  AWS.upload_file := λ _ _ _, Ret tt;
  AWS.download_file := λ _ _ _, Ret "{...}";
  AWS.delete_object := λ _ _, Ret tt |}.

(** A Transcribe service whose job answers [status] to every request. *)
Definition transcribe_service (status : string) : AWS.transcribe_client := {|
  AWS.start_transcription_job := λ _ _ _ _ _ _, Ret (PDict []);
  AWS.get_transcription_job := λ _ _, Ret (status_response status) |}.

Definition aws_lib (status : string) : AWS.lib := {|
  AWS.client_transcribe := Ret (transcribe_service status);
  AWS.client_s3 := Ret s3;
  AWS.uuid4 := "0000";
  AWS.temp_name := "/tmp/tmp0" |}.

(** A loaded AWS engine whose job answers [status] for ever. *)
Definition aws_engine (status : string) : AWS.t := {|
  AWS.config := ∅; AWS.name := "aws";
  AWS.transcribe_client_of := Some (transcribe_service status);
  AWS.s3_client_of := Some s3;
  AWS.language_code := PStr "en-US";
  AWS.max_concurrent_jobs := PNum (Qc_of_Z 90);
  AWS.output_bucket_name := PNone;
  AWS.output_prefix := PStr "transcripts" |}.

Definition aws_world (status : string) : AWS.world :=
  {| AWS.me := aws_engine status; AWS.trace := [] |}.

(** A Salad service whose job is accepted and answers [status] to every
    status request. *)
Definition salad_lib (status : string) : Salad.lib := {|
  Salad.post := λ _ _ _, Ret {| status_code := 200; response_text := "";
                                response_json := Ret (PDict [("id", PStr "job-1")]) |};
  Salad.get := λ _ _ _, Ret {| status_code := 200; response_text := "";
                               response_json := Ret (PDict [("status", PStr status)]) |} |}.

Definition salad_engine : Salad.t := {|
  Salad.config := ∅; Salad.name := "salad";
  Salad.api_key := PStr "key"; Salad.organization := PStr "nurix-ai" |}.

(** A Dolphin model that answers [output] for every audio. *)
Definition dolphin_lib : Dolphin.lib := {|
  Dolphin.load_model := λ _ _ _, Ret (λ _ _ _, Ret {| Dolphin.res_text := PStr "" |});
  Dolphin.load_audio := λ _, Ret [] |}.

Definition dolphin_engine (output : string) : Dolphin.t := {|
  Dolphin.config := ∅; Dolphin.name := "dolphin";
  Dolphin.model := Some (λ _ _ _, Ret {| Dolphin.res_text := PStr output |});
  Dolphin.model_size := PStr "small"; Dolphin.model_dir := "~/.cache/dolphin";
  Dolphin.device := PStr "cuda"; Dolphin.language := PStr "en";
  Dolphin.region := PStr "US" |}.

(** A machine with no [gcloud] program. *)
Definition google_lib : Google.lib := {|
  Google.gcloud_print_access_token := Raise (Exn "FileNotFoundError" "gcloud");
  Google.post := λ _ _ _, Ret {| status_code := 200; response_text := "";
                                 response_json := Ret (PDict []) |} |}.

(** The key of every engine is set in the environment, and another one
    in the configuration. *)
Definition keys_in_environ : gmap string string :=
  {[ "SALAD_API_KEY" := "env-key"; "DEEPGRAM_API_KEY" := "env-key";
     "GOOGLE_API_KEY" := "env-key" ]}.

Definition key_in_config : gmap string pyval := {[ "api_key" := PStr "config-key" ]}.

Definition deepgram_lib : Deepgram.lib := {|
  Deepgram.DeepgramClient := λ _, Ret (λ _ _, Ret (PDict [])) |}.

End Sample.

(** ** Further surroundings *)

Module Scenario.

(** A Salad service whose job is accepted and answers [status] to the
    first [k] status requests and [later] to the following ones. *)
Definition salad_lib_after (k : nat) (status later : string) : Salad.lib := {|
  Salad.post := Salad.post (Sample.salad_lib status);
  Salad.get := λ n _ _,
    Ret {| status_code := 200; response_text := "";
           response_json :=
             Ret (PDict [("status", PStr (if (n <? k)%nat then status else later))]) |} |}.

(** A Transcribe service whose job is in progress at the first [k]
    status requests and has failed for [reason] at the following ones. *)
Definition failing_service (k : nat) (reason : string) : AWS.transcribe_client := {|
  AWS.start_transcription_job := λ _ _ _ _ _ _, Ret (PDict []);
  AWS.get_transcription_job := λ n _,
    if (n <? k)%nat then Ret (Sample.status_response "IN_PROGRESS")
    else Ret (PDict [("TranscriptionJob",
                      PDict [("TranscriptionJobStatus", PStr "FAILED");
                             ("FailureReason", PStr reason)])]) |}.

(** A loaded AWS engine with that service, before any request. *)
Definition failing_world (k : nat) (reason : string) : AWS.world := {|
  AWS.me := {| AWS.config := ∅; AWS.name := "aws";
               AWS.transcribe_client_of := Some (failing_service k reason);
               AWS.s3_client_of := Some Sample.s3;
               AWS.language_code := PStr "en-US";
               AWS.max_concurrent_jobs := PNum (Qc_of_Z 90);
               AWS.output_bucket_name := PNone;
               AWS.output_prefix := PStr "transcripts" |};
  AWS.trace := [] |}.

(** A corpus whose transcript file has two lines for the id [a]. *)
Definition repeated_store : corpus := {|
  download_file_from_s3 := λ key, Ret ("/tmp/" ++ PyString.basename key);
  get_audio_duration := λ _, Ret (Qc_of_Z 2);
  read_lines := λ _, Ret ["a FIRST"; "b OTHER"; "a SECOND"] |}.

(** A Google engine with the key [key]. *)
Definition google_engine (key : pyval) : Google.t := {|
  Google.config := ∅; Google.name := "google";
  Google.api_key := key; Google.language_code := PStr "en-US" |}.

(** A machine on which gcloud prints a token. *)
Definition google_lib_logged_in : Google.lib := {|
  Google.gcloud_print_access_token := Ret "ya29.token ";
  Google.post := Google.post Sample.google_lib |}.

(** The float [0.1]. *)
Definition tenth : Qc := Q2Qc (3602879701896397 # 36028797018963968).

(** A corpus of twelve audio files of a tenth of a second each, every one
    with a ground truth. *)
Definition twelve_files : list string :=
  ["t/01.flac"; "t/02.flac"; "t/03.flac"; "t/04.flac"; "t/05.flac"; "t/06.flac";
   "t/07.flac"; "t/08.flac"; "t/09.flac"; "t/10.flac"; "t/11.flac"; "t/12.flac"].

Definition twelve_truths : gmap string string :=
  list_to_map ((λ key, (file_id_of key, "hello world")) <$> twelve_files).

Definition tenths_store : corpus := {|
  download_file_from_s3 := λ key, Ret ("/tmp/" ++ PyString.basename key);
  get_audio_duration := λ _, Ret tenth;
  read_lines := λ _, Ret [] |}.

(** An output directory that holds the files of an earlier run. *)
Definition used_directory : output_dir := {|
  json_files := {[ "zz" := {[ "text" := PStr "from an earlier run" ]};
                   "metrics" := {[ "num_files" := PNum 1 ]} ]};
  csv_file := Some [log_header;
                    CsvRow (row_of "zz" "" {[ "text" := PStr "from an earlier run" ]})] |}.

End Scenario.

(** * Theorems *)

Open Scope list_scope.
Open Scope Qc_scope.

(** Equality of two rationals given in closed form. *)
Ltac qc_eq := apply (bool_decide_unpack _); vm_compute; exact I.

(** A dictionary written out with its keys has the metrics it lists and
    the [error] it lists. *)
Ltac literal_result :=
  split; [intros [? H]; vm_compute in H; discriminate H | split; vm_compute; reflexivity].

(** Runs a body of binds in [H : body = Ret d] to the dictionary it
    returns, case by case. *)
Ltac run_body H :=
  unfold mbind, outcome_bind, mret, outcome_ret in H;
  repeat match type of H with
         | context [match ?x with _ => _ end] => destruct x eqn:?; cbv beta iota in H
         end;
  try discriminate H;
  injection H as <-.

Lemma str_truthy_true s : s ≠ "" → str_truthy (Some s) = true.
Proof. intros Hs. simpl. destruct (String.eqb_spec s ""); [done | reflexivity]. Qed.

(** ** The duration budget of the runner *)

Section Runner.

Variables (J : jiwer_lib) (C : corpus) (D : Qc).
Variable transcribe : string → outcome (gmap string pyval).
Variable transcript_dict : gmap string string.

Lemma process_item_probe key gt st :
  transcript_dict !! file_id_of key = Some gt →
  let st' := process_item J C transcribe key (file_id_of key) gt st in
  match probe C transcript_dict key with
  | Some (p, d) =>
      calls st' = (calls st ++ [p])%list ∧
      total_duration st' = PyFloat.add (total_duration st) d
  | None => st' = st
  end.
Proof.
  intros Hgt. unfold probe, process_item. rewrite Hgt.
  destruct (download_file_from_s3 C key) as [path|]; [|done].
  destruct (get_audio_duration C path) as [d|]; [|done].
  destruct (transcribe path) as [r|]; [|done].
  destruct (save_result _ _ _ _ _) as [[r' dir]|]; done.
Qed.

Lemma process_files_within files : ∀ st,
  let st' := process_files J C D transcribe transcript_dict files st in
  let taken := within_budget D (total_duration st) (omap (probe C transcript_dict) files) in
  calls st' = (calls st ++ taken.*1)%list ∧
  total_duration st' = accumulated (total_duration st) taken.*2.
Proof.
  induction files as [|key rest IH]; intros st; cbv zeta; cbn [process_files].
  - simpl. by rewrite app_nil_r.
  - case_bool_decide as Hb.
    + assert (within_budget D (total_duration st)
                (omap (probe C transcript_dict) (key :: rest)) = []) as ->.
      { destruct (omap (probe C transcript_dict) (key :: rest)) as [|[x d] l];
          simpl; [reflexivity|].
        rewrite bool_decide_false; [done|]. by apply Qcle_not_lt. }
      simpl. by rewrite app_nil_r.
    + apply Qcnot_le_lt in Hb.
      destruct (transcript_dict !! file_id_of key) as [gt|] eqn:Hgt.
      * pose proof (process_item_probe key gt st Hgt) as Hp. simpl in Hp.
        destruct (IH (process_item J C transcribe key (file_id_of key) gt st)) as [IH1 IH2].
        simpl. destruct (probe C transcript_dict key) as [[p d]|] eqn:Hpr.
        -- destruct Hp as [Hc Ht]. simpl. rewrite bool_decide_true by done.
           rewrite IH1, IH2, Hc, Ht. simpl. by rewrite <- app_assoc.
        -- rewrite Hp. apply IH.
      * assert (probe C transcript_dict key = None) as Hpr.
        { unfold probe. by rewrite Hgt. }
        simpl. rewrite Hpr. apply IH.
Qed.

Lemma within_budget_before items : ∀ acc p x s,
  within_budget D acc items = (p ++ x :: s)%list → accumulated acc p.*2 < D.
Proof.
  induction items as [|[y d] rest IH]; intros acc p x s; simpl.
  - by destruct p.
  - case_bool_decide as Hb; [|by destruct p].
    destruct p as [|q p]; simpl; intros Heq; [done|].
    injection Heq as <- Heq. by apply IH in Heq.
Qed.

Lemma within_budget_stops items : ∀ acc p x s,
  within_budget D acc items = (p ++ x :: s)%list →
  D ≤ accumulated acc (p ++ [x]).*2 → s = [].
Proof.
  induction items as [|[y d] rest IH]; intros acc p x s; simpl.
  - by destruct p.
  - case_bool_decide as Hb; [|by destruct p].
    destruct p as [|q p]; simpl; intros Heq Hle.
    + injection Heq as <- Heq. simpl in Hle.
      destruct rest as [|[z e] rest]; simpl in Heq; [done|].
      rewrite bool_decide_false in Heq; [done|]. by apply Qcle_not_lt.
    + injection Heq as <- Heq. by apply (IH _ _ _ _ Heq).
Qed.

Lemma within_budget_sublist items : ∀ acc x,
  x ∈ within_budget D acc items → x ∈ items.
Proof.
  induction items as [|[y d] rest IH]; intros acc x; simpl; [done|].
  case_bool_decide; [|by intros ?%elem_of_nil].
  intros [->|Hin]%elem_of_cons; [left | right; eauto].
Qed.

Lemma probe_duration key p d :
  probe C transcript_dict key = Some (p, d) → duration_of C p = d.
Proof.
  unfold probe, duration_of.
  destruct (transcript_dict !! _); [|done].
  destruct (download_file_from_s3 C key) as [path|]; [|done].
  destruct (get_audio_duration C path) as [d'|] eqn:Hd; [|done].
  intros [= <- <-]. by rewrite Hd.
Qed.

Lemma durations_probed (items : list (string * Qc)) :
  (∀ x, x ∈ items → duration_of C x.1 = x.2) →
  map (duration_of C) items.*1 = items.*2.
Proof.
  induction items as [|[p d] rest IH]; intros H; [done|].
  cbn [fmap list_fmap map fst snd]. f_equal.
  - apply (H (p, d)). left.
  - apply IH. intros x Hx. apply H. by right.
Qed.

Lemma taken_durations files acc x :
  x ∈ within_budget D acc (omap (probe C transcript_dict) files) →
  duration_of C x.1 = x.2.
Proof.
  intros Hin%within_budget_sublist. apply list_elem_of_omap in Hin as (key & _ & Hp).
  destruct x as [p d]. by apply (probe_duration key).
Qed.

(** C5.  For every budget [D], every list of audio files and every
    output directory found, the paths handed to the engine are exactly
    the files that can be processed, taken in order while the duration
    accumulated before them stays below [D]: an item is transcribed only
    when the duration accumulated over the items transcribed before it is
    less than [D]; once the accumulated duration has reached [D] no
    further item is started; and the item that takes it to [D] or above
    is itself transcribed and its duration stays in the total.  The
    accumulated duration is the total the code keeps: the durations
    added one by one, each addition rounded as a float addition is. *)
Theorem duration_budget_enforced (audio_files : list string) (found : output_dir) :
  let st := process_files J C D transcribe transcript_dict audio_files
              (start_state found) in
  calls st = (within_budget D 0 (omap (probe C transcript_dict) audio_files)).*1 ∧
  total_duration st = sum_durations C (calls st) ∧
  (∀ p x s, calls st = (p ++ x :: s)%list → sum_durations C p < D) ∧
  (∀ p x s, calls st = (p ++ x :: s)%list → D ≤ sum_durations C (p ++ [x]) → s = []).
Proof.
  intros st. destruct (process_files_within audio_files (start_state found)) as [Hc Ht].
  simpl in Hc, Ht. fold st in Hc, Ht.
  set (taken := within_budget D 0 (omap (probe C transcript_dict) audio_files)) in *.
  assert (Hd : ∀ x, x ∈ taken → duration_of C x.1 = x.2).
  { intros x. apply taken_durations. }
  assert (Hpre : ∀ l, (∃ r, taken = (l ++ r)%list) →
                      sum_durations C l.*1 = accumulated 0 l.*2).
  { intros l [r Hr]. unfold sum_durations. rewrite durations_probed; [done|].
    intros x Hx. apply Hd. rewrite Hr. apply elem_of_app. by left. }
  split; [done|]. split.
  { rewrite Ht, Hc. symmetry. apply Hpre. exists []. by rewrite app_nil_r. }
  split.
  - intros p x s Heq. rewrite Hc in Heq.
    apply fmap_app_inv in Heq as (p' & r' & -> & Hr & Htk).
    destruct r' as [|x' s']; [done|].
    rewrite Hpre by (by eexists).
    apply (within_budget_before _ _ _ _ _ Htk).
  - intros p x s Heq Hle. rewrite Hc in Heq.
    apply fmap_app_inv in Heq as (p' & r' & -> & Hr & Htk).
    destruct r' as [|x' s']; [done|]. simpl in Hr. injection Hr as -> ->.
    enough (s' = []) as -> by done.
    apply (within_budget_stops _ _ _ _ _ Htk).
    replace (p'.*1 ++ [x'.1])%list with ((p' ++ [x']).*1) in Hle
      by (by rewrite fmap_app).
    rewrite Hpre in Hle; [done|].
    exists s'. by rewrite <- app_assoc.
Qed.

End Runner.

(** With a budget of three seconds and files of two seconds each, the
    second file takes the total to four: it is transcribed, and the third
    file and those after it are not. *)
Example budget_crossed_by_second_item :
  calls (process_files Sample.jiwer Sample.store (Qc_of_Z 3) Sample.stub_error_only
           {[ "a" := "hello world"; "b" := "hello world"; "c" := "hello world" ]}
           Sample.five_files initial_state)
  = ["/tmp/a.flac"; "/tmp/b.flac"].
Proof. vm_compute. reflexivity. Qed.

(** With a budget of one second and files of a tenth of a second each,
    eleven files are transcribed and not ten: the total kept after ten
    additions of the float 0.1 is 0.9999999999999999, below the budget,
    and after the eleventh it is 1.0999999999999999. *)
Example budget_reached_by_eleventh_tenth :
  let st := process_files Sample.jiwer Scenario.tenths_store 1 Sample.stub_error_only
              Scenario.twelve_truths Scenario.twelve_files initial_state in
  length (calls st) = 11%nat ∧
  total_duration st = Q2Qc (4953959590107545 # 4503599627370496) ∧
  accumulated 0 (replicate 10 Scenario.tenth) = Q2Qc (9007199254740991 # 9007199254740992).
Proof.
  cbv zeta. split; [vm_compute; reflexivity|]. split; qc_eq.
Qed.

(** ** Ground truths *)

Lemma split_first_Some c l a b : split_first c l = Some (a, b) → l = a ++ c :: b.
Proof.
  revert a. induction l as [|x l IH]; intros a; simpl; [done|].
  destruct (Ascii.eqb_spec x c) as [->|_].
  - by intros [= <- <-].
  - destruct (split_first c l) as [[a' b']|]; [|done].
    intros [= <- <-]. simpl. f_equal. by apply IH.
Qed.

Lemma strip_chars_no_trailing_space l a :
  PyString.strip_chars l ≠ a ++ [" "%char].
Proof.
  unfold PyString.strip_chars. intros Heq.
  apply (f_equal (@rev ascii)) in Heq. rewrite rev_involutive, rev_app_distr in Heq.
  simpl in Heq. revert Heq. generalize (rev (PyString.lstrip_chars l)). intros y.
  induction y as [|c y IH]; simpl; [done|].
  destruct (PyString.is_space c) eqn:Hc; [done|]. intros [= -> _].
  vm_compute in Hc. discriminate Hc.
Qed.

Lemma parse_transcript_line_nonempty line k t :
  parse_transcript_line line = Some (k, t) → t ≠ "".
Proof.
  unfold parse_transcript_line.
  destruct (split_first _ _) as [[key transcript]|] eqn:Hs; [|done].
  intros [= <- <-]. apply split_first_Some in Hs.
  destruct transcript as [|c transcript]; [by apply strip_chars_no_trailing_space in Hs|].
  discriminate.
Qed.

Lemma add_transcript_line_nonempty d line :
  values_nonempty d → values_nonempty (add_transcript_line d line).
Proof.
  intros Hd. unfold add_transcript_line.
  destruct (parse_transcript_line line) as [[key transcript]|] eqn:Hp; [|done].
  intros k t. rewrite lookup_insert. case_decide.
  - intros [= <-]. by apply parse_transcript_line_nonempty in Hp.
  - apply Hd.
Qed.

(** The transcripts that [build_transcript_dict] collects are never
    empty: a processed item always has a ground truth to be scored
    against. *)
Lemma build_transcript_dict_nonempty C transcript_keys d :
  build_transcript_dict C transcript_keys = Ret d → values_nonempty d.
Proof.
  unfold build_transcript_dict.
  assert (values_nonempty (∅ : gmap string string)) as H0.
  { intros k t. by rewrite lookup_empty. }
  revert H0. generalize (∅ : gmap string string). 
  induction transcript_keys as [|key keys IH]; intros d0 H0; simpl.
  - by intros [= <-].
  - unfold mbind, outcome_bind.
    destruct (download_file_from_s3 C key) as [path|]; [|done].
    destruct (read_lines C path) as [lines|]; [|done].
    apply IH. clear IH. revert d0 H0.
    induction lines as [|line lines IHl]; intros d0 H0; simpl; [done|].
    by apply IHl, add_transcript_line_nonempty.
Qed.

(** An audio file with no ground truth is passed over: nothing is
    transcribed and nothing is written for it. *)
Lemma process_files_skips_missing_ground_truth J C D transcribe
    (transcript_dict : gmap string string) key rest st :
  transcript_dict !! file_id_of key = None →
  process_files J C D transcribe transcript_dict (key :: rest) st =
    if bool_decide (D ≤ total_duration st) then st
    else process_files J C D transcribe transcript_dict rest st.
Proof. intros H. simpl. by rewrite H. Qed.

(** ** What [save_result] scores and what the runner counts *)

Section Scoring.

Variables (J : jiwer_lib) (C : corpus).
Variable transcribe : string → outcome (gmap string pyval).

Lemma key_in_false k (d : gmap string pyval) : key_in k d = false ↔ d !! k = None.
Proof.
  unfold key_in. rewrite bool_decide_eq_false, <- eq_None_not_Some. done.
Qed.

Lemma key_in_true k (d : gmap string pyval) : key_in k d = true ↔ is_Some (d !! k).
Proof. unfold key_in. by rewrite bool_decide_eq_true. Qed.

(** Without a ground truth, or without a [text], the result is written
    as it is. *)
Lemma save_result_unscored dir file_id r gt :
  str_truthy gt && key_in "text" r = false →
  save_result J dir file_id r gt =
    Ret (r, recorded dir file_id (if str_truthy gt then default "" gt else "") r).
Proof. intros H. unfold save_result. rewrite H. reflexivity. Qed.

(** With a ground truth and a [text] that jiwer scores, the metrics are
    stored in the result before it is written. *)
Lemma save_result_scored dir file_id r gt t w c :
  gt ≠ "" → r !! "text" = Some (PStr t) →
  wer J (PyString.lower gt) (PyString.lower t) = Ret w →
  cer J (PyString.lower gt) (PyString.lower t) = Ret c →
  save_result J dir file_id r (Some gt) =
    Ret (scored r gt w c, recorded dir file_id gt (scored r gt w c)).
Proof.
  intros Hgt Ht Hw Hc. unfold save_result.
  pose proof (str_truthy_true gt Hgt) as Htr.
  assert (key_in "text" r = true) as -> by (apply key_in_true; eauto).
  rewrite Htr. simpl.
  rewrite lookup_insert_ne by done. rewrite Ht. simpl. rewrite Hw. simpl.
  rewrite lookup_insert_ne by done. rewrite lookup_insert_ne by done.
  rewrite Ht. simpl. rewrite Hc. simpl. reflexivity.
Qed.

Lemma process_item_unscored key file_id gt st path d r :
  download_file_from_s3 C key = Ret path → get_audio_duration C path = Ret d →
  transcribe path = Ret r →
  str_truthy (Some gt) && key_in "text" r = false →
  r !! "wer" = None ∨ r !! "cer" = None →
  let st' := process_item J C transcribe key file_id gt st in
  results st' = results st ∧
  out st' = recorded (out st) file_id (if str_truthy (Some gt) then gt else "") r.
Proof.
  intros Hdl Hd Htr Hun Hno. unfold process_item. rewrite Hdl, Hd, Htr.
  cbn [out]. rewrite save_result_unscored by done.
  assert (key_in "wer" r && key_in "cer" r = false) as ->.
  { apply andb_false_iff. destruct Hno as [H|H]; [left|right]; by apply key_in_false. }
  done.
Qed.

Lemma process_item_scored key file_id gt st path d r t w c :
  download_file_from_s3 C key = Ret path → get_audio_duration C path = Ret d →
  transcribe path = Ret r →
  gt ≠ "" → r !! "text" = Some (PStr t) →
  wer J (PyString.lower gt) (PyString.lower t) = Ret w →
  cer J (PyString.lower gt) (PyString.lower t) = Ret c →
  let st' := process_item J C transcribe key file_id gt st in
  results st' = results st ++ [scored_entry file_id w c] ∧
  out st' = recorded (out st) file_id gt (scored r gt w c).
Proof.
  intros Hdl Hd Htr Hgt Ht Hw Hc. unfold process_item. rewrite Hdl, Hd, Htr.
  cbn [out]. rewrite (save_result_scored _ _ _ _ t w c) by done.
  assert (key_in "wer" (scored r gt w c) && key_in "cer" (scored r gt w c) = true) as ->.
  { apply andb_true_iff. split; apply key_in_true; unfold scored.
    - rewrite lookup_insert_ne by done. rewrite lookup_insert_eq. eauto.
    - rewrite lookup_insert_eq. eauto. }
  cbn [results out]. split; [|done].
  unfold scored_entry, scored. rewrite lookup_insert_eq.
  rewrite lookup_insert_ne by done. rewrite lookup_insert_eq. done.
Qed.

End Scoring.

(** C1, as the code has it.  Whether an item is scored does not depend on
    its [error] field: it depends on the [text] key alone, the ground
    truth of a processed item being present.  A result without [text]
    (the stub that returns [error] alone) gets no wer and no cer, is left
    out of [results] and is still written to its JSON file and to the CSV
    log with an empty hypothesis; a result with a [text], with or without
    [error], is scored against that text and counted.  With the stub that
    returns [error] alone for one item of five, [num_files] is 4. *)
Theorem error_items_scored_by_text (J : jiwer_lib) (C : corpus)
    (transcribe : string → outcome (gmap string pyval))
    (key file_id gt path : string) (d : Qc) (r : gmap string pyval) (st : run_state) :
  download_file_from_s3 C key = Ret path → get_audio_duration C path = Ret d →
  transcribe path = Ret r → gt ≠ "" →
  let st' := process_item J C transcribe key file_id gt st in
  (r !! "text" = None → no_metrics r →
     results st' = results st ∧ out st' = recorded (out st) file_id gt r ∧
     row_hypothesis (row_of file_id gt r) = PStr "" ∧
     row_wer (row_of file_id gt r) = PStr "" ∧ row_cer (row_of file_id gt r) = PStr "") ∧
  (∀ t w c, r !! "text" = Some (PStr t) →
     wer J (PyString.lower gt) (PyString.lower t) = Ret w →
     cer J (PyString.lower gt) (PyString.lower t) = Ret c →
     results st' = results st ++ [scored_entry file_id w c] ∧
     out st' = recorded (out st) file_id gt (scored r gt w c)) ∧
  num_files_of (Sample.run_with Sample.stub_error_only) = Some 4%nat.
Proof.
  intros Hdl Hd Htr Hgt st'. split; [|split].
  - intros Ht [Hw Hc].
    pose proof (str_truthy_true gt Hgt) as Hs.
    destruct (process_item_unscored J C transcribe key file_id gt st path d r)
      as [H1 H2]; try done.
    { rewrite Hs. simpl. by apply key_in_false. }
    { by left. }
    rewrite Hs in H2. unfold row_of. simpl. rewrite Ht, Hw, Hc. done.
  - intros t w c Ht Hw Hc. by apply (process_item_scored J C transcribe _ _ _ _ path d r t).
  - vm_compute. reflexivity.
Qed.

(** C1, witness: the failed item of the engines, [{'text': '', 'error':
    'boom'}], is scored with wer 1 and cer 1 and appended to [results]. *)
Lemma error_items_scored_by_text_witness :
  results (process_item Sample.jiwer Sample.store Sample.stub_engine_error
             "librispeech/test-clean/c.flac" "c" "hello world" initial_state)
  = [scored_entry "c" 1 1].
Proof.
  destruct (error_items_scored_by_text Sample.jiwer Sample.store Sample.stub_engine_error
              "librispeech/test-clean/c.flac" "c" "hello world" "/tmp/c.flac"
              (Qc_of_Z 2) (error_result "boom") initial_state)
    as (_ & H & _); [reflexivity | reflexivity | reflexivity | discriminate |].
  destruct (H "" 1 1) as [H1 _].
  - reflexivity.
  - simpl. f_equal. qc_eq.
  - simpl. f_equal. qc_eq.
  - exact H1.
Defined.

(** C1, counterexample: when the engine answers one item of five with the
    result of its [except] clause, whose [error] is set, that item gets a
    wer and a cer and all five items are counted. *)
Lemma error_item_counted :
  Sample.stub_engine_error "/tmp/c.flac" = Ret (error_result "boom") ∧
  is_Some (error_result "boom" !! "error") ∧
  num_files_of (Sample.run_with Sample.stub_engine_error) = Some 5%nat ∧
  ((λ st, (λ r : gmap string pyval, (key_in "wer" r, key_in "cer" r))
            <$> json_files (out st) !! "c")
     <$> final_of (Sample.run_with Sample.stub_engine_error)) = Some (Some (true, true)).
Proof.
  split; [reflexivity|]. split; [by eexists|]. split; vm_compute; reflexivity.
Qed.

(** C10.  When the ground truth of an item is absent or empty,
    [save_result] computes no wer and no cer, whatever the text of the
    result: the result is written unchanged to its JSON file and a row
    with an empty [ground_truth] field is appended to the CSV log; and
    the runner, given a result that carries no metrics of its own, leaves
    the item out of [results], so out of [num_files] and the averages. *)
Theorem missing_ground_truth_not_scored (J : jiwer_lib) (C : corpus)
    (transcribe : string → outcome (gmap string pyval))
    (dir : output_dir) (key file_id path : string) (gt : option string) (d : Qc)
    (r : gmap string pyval) (st : run_state) :
  str_truthy gt = false →
  r !! "wer" = None ∨ r !! "cer" = None →
  download_file_from_s3 C key = Ret path → get_audio_duration C path = Ret d →
  transcribe path = Ret r →
  save_result J dir file_id r gt = Ret (r, recorded dir file_id "" r) ∧
  row_ground_truth (row_of file_id "" r) = "" ∧
  let st' := process_item J C transcribe key file_id "" st in
  results st' = results st ∧ out st' = recorded (out st) file_id "" r.
Proof.
  intros Hgt Hno Hdl Hd Htr. split; [|split; [done|]].
  - rewrite save_result_unscored by (by rewrite Hgt). by rewrite Hgt.
  - by apply (process_item_unscored J C transcribe key file_id "" st path d r).
Qed.

(** C10, witness: a successful transcription with a non-empty text and an
    empty ground truth. *)
Lemma missing_ground_truth_not_scored_witness :
  save_result Sample.jiwer (out initial_state) "a" {[ "text" := PStr "hello world" ]} None
  = Ret ({[ "text" := PStr "hello world" ]},
         recorded (out initial_state) "a" "" {[ "text" := PStr "hello world" ]}).
Proof.
  apply (missing_ground_truth_not_scored Sample.jiwer Sample.store Sample.stub_error_only
           (out initial_state) "librispeech/test-clean/a.flac" "a" "/tmp/a.flac" None
           (Qc_of_Z 2) {[ "text" := PStr "hello world" ]} initial_state);
    [reflexivity | by left | reflexivity | reflexivity | reflexivity].
Defined.

(** ** The factory *)

Lemma get_model_dolphin E config :
  model_dir_is_str config →
  ∃ m, get_model E "dolphin" config = Ret (DolphinModel m) ∧ Dolphin.model m = None.
Proof.
  intros Hdir. unfold get_model. simpl. unfold Dolphin.init, config_get.
  destruct (config !! "model_dir") as [v|] eqn:Hv; simpl.
  - destruct (Hdir v Hv) as [s ->]. simpl. eexists. split; [reflexivity | done].
  - eexists. split; [reflexivity | done].
Qed.

Lemma get_model_unknown E model_name config :
  model_name ∉ ["dolphin"; "whisper"; "google"; "aws"; "salad"; "deepgram"] →
  get_model E model_name config =
    Raise (ValueError ("Unknown model: " ++ model_name
      ++ ". Available models: dolphin, whisper, google, aws, salad, deepgram")%string).
Proof.
  intros Hn. unfold get_model. simpl.
  repeat match goal with
  | |- context [String.eqb model_name ?k] =>
      destruct (String.eqb_spec model_name k) as [->|_];
        [exfalso; apply Hn; set_solver|]
  end.
  reflexivity.
Qed.

(** C9.  For each of the six names, [get_model] returns an instance of
    the class the name stands for, on which nothing that [load] sets is
    set; for any other name it raises a [ValueError] whose message lists
    the six names.  The configuration is one whose [model_dir], when
    given, is a string. *)
Theorem get_model_known_or_error (E : py_env) (model_name : string)
    (config : gmap string pyval) :
  model_dir_is_str config →
  (model_name ∈ ["dolphin"; "whisper"; "google"; "aws"; "salad"; "deepgram"] →
     ∃ e, get_model E model_name config = Ret e ∧
          class_of_name model_name = Some (class_name e) ∧ unloaded e) ∧
  (model_name ∉ ["dolphin"; "whisper"; "google"; "aws"; "salad"; "deepgram"] →
     get_model E model_name config =
       Raise (ValueError ("Unknown model: " ++ model_name
         ++ ". Available models: dolphin, whisper, google, aws, salad, deepgram")%string)).
Proof.
  intros Hdir. split; [|apply get_model_unknown].
  intros Hin. repeat (apply elem_of_cons in Hin as [->|Hin]).
  - destruct (get_model_dolphin E config Hdir) as (m & -> & Hm). by eexists.
  - eexists. split; [reflexivity | done].
  - eexists. split; [reflexivity | done].
  - eexists. split; [reflexivity | done].
  - eexists. split; [reflexivity | done].
  - eexists. split; [reflexivity | done].
  - by apply elem_of_nil in Hin.
Qed.

(** C9, witness: the configuration of config.py for Dolphin. *)
Lemma get_model_known_or_error_witness :
  ∃ e, get_model (Sample.env ∅) "dolphin" {[ "model_dir" := PStr "~/.cache/dolphin" ]} = Ret e ∧
       class_of_name "dolphin" = Some (class_name e) ∧ unloaded e.
Proof.
  apply (get_model_known_or_error (Sample.env ∅) "dolphin"
           {[ "model_dir" := PStr "~/.cache/dolphin" ]}).
  - intros v Hv. apply lookup_singleton_Some in Hv as [_ <-]. by eexists.
  - set_solver.
Defined.

(** What [load] sets is what [unloaded] finds unset. *)
Lemma load_ends_unloaded :
  (∀ L m m', Dolphin.load L m = Ret m' → ¬ unloaded (DolphinModel m')) ∧
  (∀ L m m', Whisper.load L m = Ret m' → ¬ unloaded (WhisperModel m')) ∧
  (∀ L m m', AWS.load L m = Ret m' → ¬ unloaded (AWSModel m')) ∧
  (∀ L m m', Deepgram.load L m = Ret m' → ¬ unloaded (DeepgramModel m')).
Proof.
  repeat split; intros L m m' H.
  - unfold Dolphin.load in H. run_body H. simpl. done.
  - unfold Whisper.load in H. run_body H. simpl. by intros (? & ? & ?).
  - unfold AWS.load in H. run_body H. simpl. by intros (? & ?).
  - unfold Deepgram.load in H. run_body H. simpl. done.
Qed.

(** ** Credentials *)

(** C3, as the code has it.  Each of the Salad, Deepgram and Google
    engines takes its key from its environment variable when that
    variable is set, and from the [api_key] of the configuration only
    when it is not; Google falls back to the gcloud token only when the
    key so resolved is empty or absent. *)
Theorem credential_resolution_order (E : py_env) (config : gmap string pyval) :
  let resolved var :=
    match environ E !! var with
    | Some v => PStr v
    | None => default PNone (config !! "api_key")
    end in
  (∃ m, Salad.init E config = Ret m ∧ Salad.api_key m = resolved "SALAD_API_KEY") ∧
  (∃ m, Deepgram.init E config = Ret m ∧ Deepgram.api_key m = resolved "DEEPGRAM_API_KEY") ∧
  (∃ m, Google.init E config = Ret m ∧ Google.api_key m = resolved "GOOGLE_API_KEY" ∧
        ∀ L, Google._get_access_token L m =
             if py_truthy (resolved "GOOGLE_API_KEY") then Ret (resolved "GOOGLE_API_KEY")
             else match Google.gcloud_print_access_token L with
                  | Ret stdout => Ret (PStr (PyString.strip stdout))
                  | Raise e => if Google.gcloud_failure e then Ret PNone else Raise e
                  end).
Proof.
  intros resolved. repeat split; eexists; (split; [reflexivity|]); try done.
Qed.

(** C3, counterexample: with the environment variable and the explicit
    [api_key] of the configuration both set, each engine uses the value
    of the environment variable, not the explicit one. *)
Lemma explicit_key_not_preferred :
  Salad.api_key <$> Salad.init (Sample.env Sample.keys_in_environ) Sample.key_in_config
    = Ret (PStr "env-key") ∧
  Deepgram.api_key <$> Deepgram.init (Sample.env Sample.keys_in_environ) Sample.key_in_config
    = Ret (PStr "env-key") ∧
  Google.api_key <$> Google.init (Sample.env Sample.keys_in_environ) Sample.key_in_config
    = Ret (PStr "env-key") ∧
  Sample.key_in_config !! "api_key" = Some (PStr "config-key") ∧
  PStr "env-key" ≠ PStr "config-key".
Proof. repeat split; try reflexivity. discriminate. Qed.

(** C4, as the code has it.  With no key, [load] of the Salad engine and
    of the Deepgram engine raise a [ValueError] that names the key.
    [load] of the Google engine does not raise when there is neither a
    key nor a gcloud login: it returns, and the first [transcribe]
    reports the missing token in its [error]. *)
Theorem missing_credentials_at_load (E : py_env) (DL : Deepgram.lib) (GL : Google.lib)
    (s : Salad.t) (dg : Deepgram.t) (g : Google.t) (audio_path : string) :
  py_truthy (Salad.api_key s) = false →
  py_truthy (Deepgram.api_key dg) = false →
  py_truthy (Google.api_key g) = false →
  Google._check_gcloud_auth GL g = Ret false →
  Salad.load s = Raise (ValueError
    "Salad API key is required. Set it in config or SALAD_API_KEY environment variable.") ∧
  Deepgram.load DL dg = Raise (ValueError
    "Deepgram API key is required. Set it in config or DEEPGRAM_API_KEY environment variable.") ∧
  Google.load GL g = Ret g ∧
  Google.transcribe E GL g audio_path =
    Ret {[ "error" := PStr "Failed to get access token"; "text" := PStr "" ]}.
Proof.
  intros Hs Hd Hg Hc. unfold Salad.load, Deepgram.load, Google.load.
  rewrite Hs, Hd, Hg, Hc. simpl. repeat split.
  unfold Google.transcribe, Google._get_access_token. rewrite Hg.
  unfold Google._check_gcloud_auth in Hc.
  destruct (Google.gcloud_print_access_token GL) as [stdout|e].
  - injection Hc as Hc. apply negb_false_iff, String.eqb_eq in Hc. rewrite Hc. reflexivity.
  - destruct (Google.gcloud_failure e); [reflexivity | discriminate].
Qed.

(** C4, witness: engines built from an empty configuration on a machine
    with no key in the environment and no gcloud. *)
Lemma missing_credentials_at_load_witness :
  Salad.init (Sample.env ∅) ∅ ≫= Salad.load = Raise (ValueError
    "Salad API key is required. Set it in config or SALAD_API_KEY environment variable.").
Proof.
  refine (proj1 (missing_credentials_at_load (Sample.env ∅) Sample.deepgram_lib
    Sample.google_lib
    {| Salad.config := ∅; Salad.name := "salad"; Salad.api_key := PNone;
       Salad.organization := PStr "nurix-ai" |}
    {| Deepgram.config := ∅; Deepgram.name := "deepgram"; Deepgram.client := None;
       Deepgram.api_key := PNone; Deepgram.model := PStr "nova-3";
       Deepgram.language := PStr "en"; Deepgram.punctuate := PBool true;
       Deepgram.smart_format := PBool true |}
    {| Google.config := ∅; Google.name := "google"; Google.api_key := PNone;
       Google.language_code := PStr "en-US" |}
    "/tmp/a.flac" _ _ _ _)); reflexivity.
Defined.

(** C4, counterexample: the Google engine built with no key, on a
    machine with no gcloud, loads without raising. *)
Lemma google_load_without_credentials :
  ∃ g, Google.init (Sample.env ∅) ∅ = Ret g ∧
       py_truthy (Google.api_key g) = false ∧
       Google._check_gcloud_auth Sample.google_lib g = Ret false ∧
       Google.load Sample.google_lib g = Ret g ∧
       ¬ raises (Google.load Sample.google_lib g).
Proof.
  eexists. split; [reflexivity|]. repeat split; try reflexivity.
  intros [e He]. discriminate He.
Qed.

(** ** Dolphin: tags and raw text *)

Section Tags.

Import Dolphin.

Lemma after_gt_Some l rest :
  after_gt l = Some rest → ∃ m, l = m ++ ">"%char :: rest ∧ ">"%char ∉ m.
Proof.
  revert rest. induction l as [|c l IH]; intros rest; simpl; [done|].
  destruct (Ascii.eqb_spec c ">") as [->|Hc].
  - intros [= ->]. exists []. split; [done | apply not_elem_of_nil].
  - intros (m & -> & Hm)%IH. exists (c :: m). split; [done|].
    apply not_elem_of_cons. split; [congruence | done].
Qed.

Lemma after_gt_None l : after_gt l = None ↔ ">"%char ∉ l.
Proof.
  induction l as [|c l IH]; simpl.
  - split; [intros _; apply not_elem_of_nil | done].
  - destruct (Ascii.eqb_spec c ">") as [->|Hc].
    + split; [done | intros H; exfalso; apply H; left].
    + rewrite IH, not_elem_of_cons. split; [intros ?; split; congruence | by intros [_ ?]].
Qed.

Lemma after_gt_app m rest : ">"%char ∉ m → after_gt (m ++ ">"%char :: rest) = Some rest.
Proof.
  induction m as [|c m IH]; simpl; intros Hm.
  - reflexivity.
  - apply not_elem_of_cons in Hm as [Hc Hm].
    destruct (Ascii.eqb_spec c ">") as [->|_]; [done | by apply IH].
Qed.

Lemma match_tag_Some l rest :
  match_tag l = Some rest →
  ∃ m, l = "<"%char :: m ++ ">"%char :: rest ∧ m ≠ [] ∧ ">"%char ∉ m.
Proof.
  destruct l as [|c [|c' l]]; simpl; try done.
  destruct (Ascii.eqb_spec c "<") as [->|]; [|done].
  destruct (Ascii.eqb_spec c' ">") as [->|Hc']; [done|]. simpl.
  intros (m & -> & Hm)%after_gt_Some. exists (c' :: m). split; [done|].
  split; [done|]. apply not_elem_of_cons. split; [congruence | done].
Qed.

Lemma match_tag_at_head l : tag_at_head l → is_Some (match_tag l).
Proof.
  intros (m & b & -> & Hm & Hgt). destruct m as [|c m]; [done|].
  apply not_elem_of_cons in Hgt as [Hc Hgt]. simpl.
  destruct (Ascii.eqb_spec c ">") as [->|_]; [done|]. simpl.
  rewrite after_gt_app by done. by eexists.
Qed.

Lemma match_tag_shorter l rest : match_tag l = Some rest → (length rest < length l)%nat.
Proof.
  intros (m & -> & _)%match_tag_Some. simpl. rewrite length_app. simpl. lia.
Qed.

Lemma re_sub_tags_fuel_enough n : ∀ l k,
  (length l ≤ n)%nat → (length l ≤ k)%nat →
  re_sub_tags_fuel n l = re_sub_tags_fuel k l.
Proof.
  induction n as [|n IH]; intros l k Hn Hk.
  - destruct l; [|simpl in Hn; lia]. by destruct k.
  - destruct k as [|k].
    { destruct l; [done | simpl in Hk; lia]. }
    simpl. destruct (match_tag l) as [rest|] eqn:Hm.
    + apply match_tag_shorter in Hm. apply IH; lia.
    + destruct l as [|c l]; [done|]. simpl in Hn, Hk. f_equal. apply IH; lia.
Qed.

Lemma re_sub_tags_nil : re_sub_tags [] = [].
Proof. reflexivity. Qed.

Lemma re_sub_tags_match l rest :
  match_tag l = Some rest → re_sub_tags l = re_sub_tags rest.
Proof.
  intros Hm. unfold re_sub_tags. pose proof (match_tag_shorter _ _ Hm) as Hlt.
  destruct l as [|c l]; [done|]. cbn [length re_sub_tags_fuel]. rewrite Hm.
  simpl in Hlt. apply re_sub_tags_fuel_enough; lia.
Qed.

Lemma re_sub_tags_keep c l :
  match_tag (c :: l) = None → re_sub_tags (c :: l) = c :: re_sub_tags l.
Proof.
  intros Hm. unfold re_sub_tags. cbn [length re_sub_tags_fuel]. by rewrite Hm.
Qed.

(** Induction along the scan of [re.sub]. *)
Lemma re_sub_tags_ind (P : list ascii → Prop) :
  P [] →
  (∀ l rest, match_tag l = Some rest → P rest → P l) →
  (∀ c l, match_tag (c :: l) = None → P l → P (c :: l)) →
  ∀ l, P l.
Proof.
  intros Hnil Hmatch Hkeep l.
  remember (length l) as n eqn:Hn. revert l Hn.
  induction n as [n IH] using lt_wf_ind. intros l ->.
  destruct (match_tag l) as [rest|] eqn:Hm.
  - apply (Hmatch _ _ Hm). apply (IH (length rest)); [by apply match_tag_shorter | done].
  - destruct l as [|c l]; [done|]. apply Hkeep; [done|].
    apply (IH (length l)); [simpl; lia | done].
Qed.

Lemma re_sub_tags_deletes l : tags_deleted l (re_sub_tags l).
Proof.
  induction l as [| l rest Hm IH | c l Hm IH] using re_sub_tags_ind.
  - constructor.
  - rewrite (re_sub_tags_match _ _ Hm).
    apply match_tag_Some in Hm as (m & -> & Hne & Hgt). by constructor.
  - rewrite (re_sub_tags_keep _ _ Hm). by constructor.
Qed.

Lemma tags_deleted_elem l out c : tags_deleted l out → c ∈ out → c ∈ l.
Proof.
  induction 1 as [| c' l out _ IH | m l out _ _ _ IH]; intros Hin.
  - done.
  - apply elem_of_cons in Hin as [->|Hin]; [left | right; auto].
  - right. apply elem_of_app. right. right. auto.
Qed.

(** The output of the scan has no tag at its head. *)
Lemma re_sub_tags_head l : match_tag (re_sub_tags l) = None.
Proof.
  induction l as [| l rest Hm IH | c l Hm IH] using re_sub_tags_ind.
  - reflexivity.
  - by rewrite (re_sub_tags_match _ _ Hm).
  - rewrite (re_sub_tags_keep _ _ Hm).
    destruct (re_sub_tags l) as [|c' out] eqn:Hout; [reflexivity|].
    cbn [match_tag]. destruct (Ascii.eqb_spec c "<") as [->|]; [|reflexivity].
    destruct (Ascii.eqb_spec c' ">") as [->|Hc']; [reflexivity|]. simpl.
    apply after_gt_None.
    assert (Hsub : ∀ x, x ∈ c' :: out → x ∈ l).
    { intros x. rewrite <- Hout. apply tags_deleted_elem, re_sub_tags_deletes. }
    destruct l as [|c2 l]; [by rewrite re_sub_tags_nil in Hout|].
    cbn [match_tag] in Hm. simpl in Hm.
    destruct (Ascii.eqb_spec c2 ">") as [->|Hc2].
    + rewrite re_sub_tags_keep in Hout by (by destruct l). congruence.
    + simpl in Hm. apply after_gt_None in Hm.
      intros Hin. assert (">"%char ∈ c2 :: l) as Hin' by (apply Hsub; by right).
      apply elem_of_cons in Hin' as [?|?]; [congruence | done].
Qed.

Lemma re_sub_tags_suffix l : ∀ a s, re_sub_tags l = a ++ s → match_tag s = None.
Proof.
  induction l as [| l rest Hm IH | c l Hm IH] using re_sub_tags_ind; intros a s.
  - rewrite re_sub_tags_nil. intros Heq. symmetry in Heq.
    apply app_eq_nil in Heq as [_ ->]. reflexivity.
  - rewrite (re_sub_tags_match _ _ Hm). apply IH.
  - destruct a as [|c' a]; simpl.
    + intros <-. apply re_sub_tags_head.
    + rewrite (re_sub_tags_keep _ _ Hm). intros [= _ Heq]. by apply (IH a).
Qed.

(** No tag is left in what [re.sub] returns. *)
Lemma re_sub_tags_no_tag l : ¬ has_tag (re_sub_tags l).
Proof.
  intros (a & s & Heq & Htag). apply match_tag_at_head in Htag as [rest Hrest].
  apply re_sub_tags_suffix in Heq. congruence.
Qed.

Lemma has_tag_infix a l b : has_tag l → has_tag (a ++ l ++ b).
Proof.
  intros (a' & s & -> & m & b' & -> & Hm & Hgt).
  exists (a ++ a'), ("<"%char :: m ++ ">"%char :: b' ++ b). split.
  - rewrite <- !app_assoc. simpl. by rewrite <- app_assoc.
  - by exists m, (b' ++ b).
Qed.

Lemma lstrip_chars_suffix l : ∃ a, l = a ++ PyString.lstrip_chars l.
Proof.
  induction l as [|c l [a IH]]; simpl; [by exists []|].
  destruct (PyString.is_space c).
  - exists (c :: a). simpl. by f_equal.
  - by exists [].
Qed.

Lemma lstrip_chars_head l c l' :
  PyString.lstrip_chars l = c :: l' → PyString.is_space c = false.
Proof.
  induction l as [|x l IH]; simpl; [done|].
  destruct (PyString.is_space x) eqn:Hx; [done|]. by intros [= <- _].
Qed.

Lemma lstrip_chars_last l c l' :
  PyString.lstrip_chars l = l' ++ [c] → ∃ l'', l = l'' ++ [c].
Proof.
  destruct (lstrip_chars_suffix l) as [a Ha]. intros Heq.
  exists (a ++ l'). rewrite Ha at 1. rewrite Heq. by rewrite app_assoc.
Qed.

Lemma strip_chars_infix l : ∃ a b, l = a ++ PyString.strip_chars l ++ b.
Proof.
  unfold PyString.strip_chars.
  destruct (lstrip_chars_suffix l) as [a Ha].
  destruct (lstrip_chars_suffix (rev (PyString.lstrip_chars l))) as [b Hb].
  exists a, (rev b). rewrite <- rev_app_distr, <- Hb, rev_involutive. done.
Qed.

Lemma strip_chars_stripped l : stripped (PyString.strip_chars l).
Proof.
  unfold PyString.strip_chars. split.
  - intros c l' Heq. apply (f_equal (@rev ascii)) in Heq.
    rewrite rev_involutive in Heq. simpl in Heq.
    apply lstrip_chars_last in Heq as [l'' Heq].
    apply (f_equal (@rev ascii)) in Heq. rewrite rev_involutive, rev_app_distr in Heq.
    simpl in Heq. by apply lstrip_chars_head in Heq.
  - intros c l' Heq. apply (f_equal (@rev ascii)) in Heq.
    rewrite rev_involutive, rev_app_distr in Heq. simpl in Heq.
    by apply lstrip_chars_head in Heq.
Qed.

End Tags.

(** C8, on the code.  When the Dolphin model answers [output] for an
    audio, [text] is as claimed: the lower-case hypothesis with its tags
    deleted, leftmost first, and the white space around the rest
    stripped, so that no tag is left in [text] and [text] neither starts
    nor ends with white space.  But [raw_text] is [output] in lower case
    (tags kept), not the untouched output that the docstring of
    [transcribe] and its comments announce: [raw_hypothesis] is assigned
    after [.lower()]. *)
Theorem dolphin_text_and_raw_text (L : Dolphin.lib) (self : Dolphin.t)
    (audio_path output : string) (wf : Dolphin.waveform) (m : Dolphin.net) :
  Dolphin.load_audio L audio_path = Ret wf →
  Dolphin.model self = Some m →
  m wf (Dolphin.language self) (Dolphin.region self) = Ret {| Dolphin.res_text := PStr output |} →
  let raw := PyString.lower output in
  let cleaned := Dolphin.re_sub_tags (list_ascii_of_string raw) in
  let text := PyString.strip_chars cleaned in
  Dolphin.transcribe L self audio_path =
    Ret {[ "raw_text" := PStr raw; "text" := PStr (string_of_list_ascii text) ]} ∧
  tags_deleted (list_ascii_of_string raw) cleaned ∧
  ¬ has_tag cleaned ∧ ¬ has_tag text ∧ stripped text.
Proof.
  intros Ha Hm Hr raw cleaned text. split; [|split; [|split; [|split]]].
  - unfold Dolphin.transcribe. rewrite Ha, Hm. simpl. rewrite Hr. reflexivity.
  - apply re_sub_tags_deletes.
  - apply re_sub_tags_no_tag.
  - intros Htag. destruct (strip_chars_infix cleaned) as (a & b & Heq).
    apply (re_sub_tags_no_tag (list_ascii_of_string raw)).
    fold cleaned. rewrite Heq. by apply has_tag_infix.
  - apply strip_chars_stripped.
Qed.

(** C8, witness: a typical answer of the model. *)
Lemma dolphin_text_and_raw_text_witness :
  Dolphin.transcribe Sample.dolphin_lib (Sample.dolphin_engine "<en><US><asr> Hello <1.0>")
    "/tmp/a.flac"
  = Ret {[ "raw_text" := PStr "<en><us><asr> hello <1.0>"; "text" := PStr "hello" ]}.
Proof.
  apply (dolphin_text_and_raw_text Sample.dolphin_lib
           (Sample.dolphin_engine "<en><US><asr> Hello <1.0>") "/tmp/a.flac"
           "<en><US><asr> Hello <1.0>" []
           (λ _ _ _, Ret {| Dolphin.res_text := PStr "<en><US><asr> Hello <1.0>" |}));
    reflexivity.
Defined.

(** C8, the failing input: the answer of the model has an upper-case
    region tag and upper-case letters; [raw_text] is not that answer. *)
Lemma dolphin_raw_text_not_untouched :
  (λ d : gmap string pyval, d !! "raw_text")
    <$> Dolphin.transcribe Sample.dolphin_lib
          (Sample.dolphin_engine "<en><US><asr> Hello <1.0>") "/tmp/a.flac"
  = Ret (Some (PStr "<en><us><asr> hello <1.0>")) ∧
  PStr "<en><us><asr> hello <1.0>" ≠ PStr "<en><US><asr> Hello <1.0>".
Proof. split; [vm_compute; reflexivity | discriminate]. Qed.

(** ** The engines: results and exceptions *)

Lemma engine_result_error msg : engine_result (error_result msg).
Proof. split; [intros _; vm_compute; reflexivity | split; vm_compute; reflexivity]. Qed.

Lemma try_except_engine (body : outcome (gmap string pyval)) :
  (∀ d, body = Ret d → engine_result d) →
  ∃ d, try_except body (λ e, Ret (error_result (py_str_exn e))) = Ret d ∧ engine_result d.
Proof.
  intros Hb. destruct body as [d|e]; simpl.
  - exists d. split; [done | by apply Hb].
  - eexists. split; [done | apply engine_result_error].
Qed.

Lemma whisper_transcribe_result (self : Whisper.t) (audio_path : string) :
  ∃ d, Whisper.transcribe self audio_path = Ret d ∧ engine_result d.
Proof.
  apply try_except_engine. intros d H. run_body H; literal_result.
Qed.

Lemma dolphin_transcribe_result (L : Dolphin.lib) (self : Dolphin.t) (audio_path : string) :
  ∃ d, Dolphin.transcribe L self audio_path = Ret d ∧ engine_result d.
Proof.
  apply try_except_engine. intros d H. run_body H; literal_result.
Qed.

Lemma deepgram_transcribe_result (E : py_env) (self : Deepgram.t) (audio_path : string) :
  ∃ d, Deepgram.transcribe E self audio_path = Ret d ∧ engine_result d.
Proof.
  apply try_except_engine. intros d H. run_body H; literal_result.
Qed.

Lemma google_transcribe_result (E : py_env) (L : Google.lib) (self : Google.t)
    (audio_path : string) :
  ∃ d, Google.transcribe E L self audio_path = Ret d ∧ engine_result d.
Proof.
  apply try_except_engine. intros d H. run_body H; try literal_result.
  all: split; [intros _; vm_compute; reflexivity | split; vm_compute; reflexivity].
Qed.

Lemma salad_poll_failed E L self job_id retries : ∀ n r,
  Salad.poll E L self job_id retries n = Ret (Salad.JobFailed r) → ∃ msg, r = error_result msg.
Proof.
  induction retries as [|retries IH]; intros n r H; [discriminate|].
  cbn [Salad.poll] in H. unfold mbind, outcome_bind in H.
  destruct (Salad._get_job_status E L self n job_id) as [js|]; [|discriminate].
  destruct (negb (py_truthy js)); [by apply IH in H|].
  destruct (py_get js "status" (PStr "")) as [st|]; [|discriminate].
  destruct (py_lower st) as [status|]; [|discriminate].
  destruct (_ || _); [discriminate|].
  destruct (_ || _); [|by apply IH in H].
  destruct (py_get js "error" _) as [em|]; [|discriminate].
  injection H as <-. by eexists.
Qed.

Lemma salad_transcribe_result (E : py_env) (L : Salad.lib) (self : Salad.t)
    (audio_path : string) :
  ∃ d, Salad.transcribe E L self audio_path = Ret d ∧ engine_result d.
Proof.
  apply try_except_engine. generalize Salad.max_retries. intros retries d H.
  unfold mbind, outcome_bind, mret, outcome_ret in H.
  destruct (Salad._submit_transcription_job _ _ _ _ _) as [jr|]; [|discriminate].
  destruct (if negb (py_truthy jr) then _ else _) as [[]|]; [| |discriminate].
  { injection H as <-. apply engine_result_error. }
  destruct (py_getitem jr "id") as [job_id|]; [|discriminate].
  destruct (Salad.poll _ _ _ _ _ _) as [[js|r|]|] eqn:Hp; [| | |discriminate].
  - run_body H; literal_result.
  - injection H as <-. apply salad_poll_failed in Hp as [msg ->]. apply engine_result_error.
  - injection H as <-. apply engine_result_error.
Qed.

(** ** AWS: requests sent and results *)

Section AwsRules.

Import AWS.
Context {P : event → Prop}.

Lemma post_ret {A} (a : A) (Q : A → Prop) : Q a → aws_post (ret a) P Q.
Proof.
  intros HQ w. exists []. simpl. rewrite app_nil_r.
  split; [done|]. split; [constructor|]. by intros ? [= <-].
Qed.

Lemma post_lift {A} (o : outcome A) (Q : A → Prop) :
  (∀ a, o = Ret a → Q a) → aws_post (lift o) P Q.
Proof.
  intros HQ w. exists []. unfold lift. destruct o as [a|e]; simpl; rewrite app_nil_r.
  - split; [done|]. split; [constructor|]. intros ? [= <-]. by apply HQ.
  - split; [done|]. split; [constructor | done].
Qed.

Lemma post_request {A} (ev : event) (o : outcome A) (Q : A → Prop) :
  P ev → (∀ a, o = Ret a → Q a) → aws_post (request ev o) P Q.
Proof.
  intros HP HQ w. exists [ev]. unfold request. destruct o as [a|e]; simpl.
  - split; [done|]. split; [by constructor|]. intros ? [= <-]. by apply HQ.
  - split; [done|]. split; [by constructor | done].
Qed.

Lemma post_get_me : aws_post get_me P (λ _, True).
Proof.
  intros w. exists []. simpl. rewrite app_nil_r. split; [done|]. split; [constructor | done].
Qed.

Lemma post_set_output_bucket_name b : aws_post (set_output_bucket_name b) P (λ _, True).
Proof.
  intros w. exists []. simpl. rewrite app_nil_r. split; [done|]. split; [constructor | done].
Qed.

Lemma post_bind {A B} (m : M A) (f : A → M B) (Q1 : A → Prop) (Q : B → Prop) :
  aws_post m P Q1 → (∀ a, Q1 a → aws_post (f a) P Q) → aws_post (bind m f) P Q.
Proof.
  intros Hm Hf w. unfold bind. destruct (Hm w) as (evs1 & Ht1 & HP1 & HQ1).
  destruct (m w) as [[a|e|] w1]; simpl in *.
  - destruct (Hf a (HQ1 a eq_refl) w1) as (evs2 & Ht2 & HP2 & HQ2).
    exists (evs1 ++ evs2). rewrite Ht2, Ht1, app_assoc.
    split; [done|]. split; [by apply Forall_app | done].
  - exists evs1. split; [done|]. split; [done | done].
  - exists evs1. split; [done|]. split; [done | done].
Qed.

Lemma post_then {A B} (m : M A) (f : A → M B) (Q : B → Prop) :
  aws_post m P (λ _, True) → (∀ a, aws_post (f a) P Q) → aws_post (bind m f) P Q.
Proof. intros Hm Hf. apply (post_bind m f (λ _, True)); auto. Qed.

Lemma post_try_catch {A} (body : M A) (handler : exn → M A) (Q : A → Prop) :
  aws_post body P Q → (∀ e, aws_post (handler e) P Q) → aws_post (try_catch body handler) P Q.
Proof.
  intros Hb Hh w. unfold try_catch. destruct (Hb w) as (evs1 & Ht1 & HP1 & HQ1).
  destruct (body w) as [[a|e|] w1]; simpl in *.
  - exists evs1. by repeat split.
  - destruct (Hh e w1) as (evs2 & Ht2 & HP2 & HQ2).
    exists (evs1 ++ evs2). rewrite Ht2, Ht1, app_assoc.
    split; [done|]. split; [by apply Forall_app | done].
  - exists evs1. by repeat split.
Qed.

Lemma post_any {A} (o : outcome A) : aws_post (lift o) P (λ _, True).
Proof. by apply post_lift. Qed.

Lemma post_the_s3 attr : aws_post (the_s3 attr) P (λ _, True).
Proof.
  unfold the_s3. apply post_then; [apply post_get_me|]. intros self.
  destruct (s3_client_of self); [by apply post_ret | apply post_any].
Qed.

Lemma post_the_transcribe attr : aws_post (the_transcribe attr) P (λ _, True).
Proof.
  unfold the_transcribe. apply post_then; [apply post_get_me|]. intros self.
  destruct (transcribe_client_of self); [by apply post_ret | apply post_any].
Qed.

Lemma post_wait_for_job job_name fuel :
  P (GetJob job_name) → ∀ n, aws_post (wait_for_job job_name fuel n) P (λ _, True).
Proof.
  intros HP. induction fuel as [|fuel IH]; intros n.
  - intros w. exists []. simpl. rewrite app_nil_r. split; [done|]. split; [constructor | done].
  - cbn [wait_for_job]. apply post_then; [apply post_the_transcribe|]. intros tc.
    apply post_then; [by apply post_request|]. intros status.
    apply post_then; [apply post_any|]. intros job_status.
    destruct (_ || _); [by apply post_ret | apply IH].
Qed.

End AwsRules.

(** The requests of one call of [transcribe] satisfy [P] when every
    request other than a deletion does and, if the caller gave a bucket,
    deletions do too; the dictionary it returns is an engine result. *)
Lemma aws_transcribe_post (E : py_env) (L : AWS.lib) (fuel : nat) (audio_path : string)
    (bucket_name audio_key : option string) (P : AWS.event → Prop) :
  (∀ ev, ¬ is_delete ev → P ev) →
  (str_truthy bucket_name = true → ∀ ev, P ev) →
  aws_post (AWS.transcribe E L fuel audio_path bucket_name audio_key) P engine_result.
Proof.
  intros HP Hall. unfold AWS.transcribe.
  apply post_try_catch; [|intros e; apply post_ret, engine_result_error].
  cbv zeta.
  eapply (post_bind _ _ (λ bk, str_truthy bucket_name = false →
                               str_truthy bk.2 = true ∧ str_truthy (Some bk.1) = true)).
  { destruct (str_truthy bucket_name) eqn:Hb; cbn [negb].
    - apply post_ret. discriminate.
    - apply post_then; [apply post_the_s3|]. intros s3.
      apply post_then; [apply post_request; [apply HP; simpl; tauto | done]|]. intros _.
      apply post_ret. intros _. split; reflexivity. }
  intros [b k] Hbk. cbn [fst snd] in Hbk.
  apply post_then; [apply post_set_output_bucket_name|]. intros _.
  apply post_then; [apply post_get_me|]. intros self.
  apply post_then; [apply post_the_transcribe|]. intros tc.
  apply post_then; [apply post_request; [apply HP; simpl; tauto | done]|]. intros _.
  apply post_then; [apply post_wait_for_job; apply HP; simpl; tauto|]. intros [status job_status].
  apply post_then.
  { destruct (is_str job_status "FAILED"); [apply post_any | by apply post_ret]. }
  intros _.
  apply post_then; [apply post_the_s3|]. intros s3.
  apply post_then; [apply post_request; [apply HP; simpl; tauto | done]|]. intros content.
  apply post_then; [apply post_any|]. intros transcript_result.
  apply post_then; [apply post_any|]. intros transcript_text.
  apply post_then; [apply post_any|]. intros items.
  apply post_then; [apply post_any|]. intros word_segments.
  apply post_then.
  { destruct (negb (str_truthy k) || negb (str_truthy (Some b))) eqn:Hc; [|by apply post_ret].
    assert (str_truthy bucket_name = true) as Hb.
    { destruct (str_truthy bucket_name); [done|].
      destruct Hbk as [Hk Hb']; [done|]. rewrite Hk, Hb' in Hc. discriminate. }
    apply post_try_catch; [|intros e; by apply post_ret].
    apply post_then; [apply post_the_s3|]. intros s3'.
    apply post_then; [apply post_request; [by apply Hall | done]|]. intros _.
    apply post_request; [by apply Hall | done]. }
  intros _.
  apply post_then; [apply post_any|]. intros confidence.
  apply post_ret. literal_result.
Qed.

(** ** A job that never reaches a final status *)

Lemma aws_wait_in_progress job_name fuel : ∀ n w,
  AWS.transcribe_client_of (AWS.me w) = Some (Sample.transcribe_service "IN_PROGRESS") →
  AWS.wait_for_job job_name fuel n w =
    (AWS.Waiting, {| AWS.me := AWS.me w;
                     AWS.trace := AWS.trace w ++ replicate fuel (AWS.GetJob job_name) |}).
Proof.
  induction fuel as [|fuel IH]; intros n w Hc.
  - simpl. rewrite app_nil_r. by destruct w.
  - cbn [AWS.wait_for_job]. unfold AWS.bind, AWS.the_transcribe, AWS.get_me, AWS.ret.
    cbn -[AWS.wait_for_job replicate]. rewrite Hc. cbn -[AWS.wait_for_job replicate].
    rewrite IH by done. cbn [AWS.me AWS.trace replicate]. by rewrite <- app_assoc.
Qed.

Lemma aws_transcribe_in_progress fuel :
  AWS.transcribe (Sample.env ∅) (Sample.aws_lib "IN_PROGRESS") fuel "/tmp/a.wav" None None
    (Sample.aws_world "IN_PROGRESS") =
  (AWS.Waiting,
   {| AWS.me := AWS.me ((AWS.set_output_bucket_name "your-transcribe-temp-bucket"
                           (Sample.aws_world "IN_PROGRESS")).2);
      AWS.trace := [AWS.Upload "/tmp/a.wav" "your-transcribe-temp-bucket" "temp-uploads/a.wav";
                    AWS.StartJob "transcribe-0000"
                      "s3://your-transcribe-temp-bucket/temp-uploads/a.wav"]
                   ++ replicate fuel (AWS.GetJob "transcribe-0000") |}).
Proof.
  unfold AWS.transcribe, AWS.try_catch, AWS.bind.
  cbn -[AWS.wait_for_job replicate].
  rewrite aws_wait_in_progress by reflexivity. reflexivity.
Qed.

Lemma count_get_job_replicate job_name fuel :
  length (List.filter is_get_job (replicate fuel (AWS.GetJob job_name))) = fuel.
Proof. induction fuel as [|fuel IH]; simpl; [done | by rewrite IH]. Qed.

(** A Salad job that is never finished: each status request is answered
    with nothing usable or with a status that is neither a success nor a
    failure.  The loop gives up after the retries it was given. *)
Lemma salad_poll_times_out E L self job_id retries : ∀ n,
  (∀ k, (n ≤ k < n + retries)%nat →
     ∃ js, Salad._get_job_status E L self k job_id = Ret js ∧
           (py_truthy js = false ∨
            ∃ s, py_get js "status" (PStr "") = Ret (PStr s) ∧
                 PyString.lower s ∉ ["succeeded"; "completed"; "failed"; "error"])) →
  Salad.poll E L self job_id retries n = Ret Salad.TimedOut.
Proof.
  induction retries as [|retries IH]; intros n Hall; [reflexivity|].
  cbn [Salad.poll]. destruct (Hall n) as (js & -> & Hjs); [lia|].
  unfold mbind, outcome_bind.
  assert (Hrest : Salad.poll E L self job_id retries (S n) = Ret Salad.TimedOut).
  { apply IH. intros k Hk. apply Hall. lia. }
  destruct Hjs as [->|(s & -> & Hs)]; [done|].
  destruct (negb (py_truthy js)); [done|]. cbn [py_lower].
  assert (∀ x, x ∈ ["succeeded"; "completed"; "failed"; "error"] →
               String.eqb (PyString.lower s) x = false) as Hne.
  { intros x Hx. destruct (String.eqb_spec (PyString.lower s) x); [congruence | done]. }
  rewrite !Hne by set_solver. done.
Qed.

(** C6 on the code.  The Salad engine gives up after its 60 status
    requests and reports the timeout in [error].  The AWS engine has no
    such bound: for a job that stays in progress, whatever number of
    turns its waiting loop is allowed, it has made that many status
    requests and is still waiting, with nothing returned. *)
Theorem polling_bounded_for_salad_only :
  Salad.transcribe (Sample.env ∅) (Sample.salad_lib "running") Sample.salad_engine "/tmp/a.wav"
    = Ret (error_result "Job timed out") ∧
  ∀ fuel,
    let r := AWS.transcribe (Sample.env ∅) (Sample.aws_lib "IN_PROGRESS") fuel "/tmp/a.wav"
               None None (Sample.aws_world "IN_PROGRESS") in
    r.1 = AWS.Waiting ∧ length (List.filter is_get_job (AWS.trace r.2)) = fuel.
Proof.
  split.
  - unfold Salad.transcribe.
    assert (Salad.poll (Sample.env ∅) (Sample.salad_lib "running") Sample.salad_engine
              (PStr "job-1") Salad.max_retries 0 = Ret Salad.TimedOut) as Hp.
    { apply salad_poll_times_out. intros k _. eexists. split; [reflexivity|].
      right. exists "running". split; [reflexivity|].
      rewrite !not_elem_of_cons. repeat split; try discriminate. apply not_elem_of_nil. }
    cbn -[Salad.poll Salad.max_retries]. rewrite Hp. reflexivity.
  - intros fuel r. subst r. rewrite aws_transcribe_in_progress. cbn [fst snd AWS.trace].
    split; [reflexivity|]. cbn [app List.filter is_get_job]. apply count_get_job_replicate.
Qed.

Lemma aws_transcribe_not_raised (E : py_env) (L : AWS.lib) (fuel : nat) (audio_path : string)
    (bucket_name audio_key : option string) (w : AWS.world) :
  match (AWS.transcribe E L fuel audio_path bucket_name audio_key w).1 with
  | AWS.Returned d => engine_result d
  | AWS.Raised _ => False
  | AWS.Waiting => True
  end.
Proof.
  destruct (aws_transcribe_post E L fuel audio_path bucket_name audio_key (λ _, True))
    with (w := w) as (evs & _ & _ & HQ); [done | done |].
  destruct (AWS.transcribe _ _ _ _ _ _ w) as [[d|e|] w'] eqn:Hr; cbn [fst] in *;
    [by apply HQ | | done].
  unfold AWS.transcribe, AWS.try_catch in Hr.
  destruct (AWS.bind _ _ w) as [[d|e'|] w'']; discriminate Hr.
Qed.

(** C2 on the code.  [transcribe] of the Whisper, Dolphin, Deepgram,
    Google and Salad engines always returns a dictionary, in which [text]
    is empty whenever [error] is present.  [transcribe] of the AWS engine
    never raises and what it returns is such a dictionary, but it does
    not always return: for a job that stays in progress it is still
    waiting after any number of turns of its loop. *)
Theorem transcribe_results_and_aws_wait :
  (∀ self path, ∃ d, Whisper.transcribe self path = Ret d ∧ engine_result d) ∧
  (∀ L self path, ∃ d, Dolphin.transcribe L self path = Ret d ∧ engine_result d) ∧
  (∀ E self path, ∃ d, Deepgram.transcribe E self path = Ret d ∧ engine_result d) ∧
  (∀ E L self path, ∃ d, Google.transcribe E L self path = Ret d ∧ engine_result d) ∧
  (∀ E L self path, ∃ d, Salad.transcribe E L self path = Ret d ∧ engine_result d) ∧
  (∀ E L fuel path bucket_name audio_key w,
     match (AWS.transcribe E L fuel path bucket_name audio_key w).1 with
     | AWS.Returned d => engine_result d
     | AWS.Raised _ => False
     | AWS.Waiting => True
     end) ∧
  (∀ fuel d,
     (AWS.transcribe (Sample.env ∅) (Sample.aws_lib "IN_PROGRESS") fuel "/tmp/a.wav"
        None None (Sample.aws_world "IN_PROGRESS")).1 ≠ AWS.Returned d).
Proof.
  split; [apply whisper_transcribe_result|].
  split; [apply dolphin_transcribe_result|].
  split; [apply deepgram_transcribe_result|].
  split; [apply google_transcribe_result|].
  split; [apply salad_transcribe_result|].
  split; [apply aws_transcribe_not_raised|].
  intros fuel d. rewrite aws_transcribe_in_progress. discriminate.
Qed.

(** The cleanup does run when the caller names the bucket and gives no
    key: then the key [None] and the transcript are what it asks S3 to
    delete. *)
Lemma aws_cleanup_for_caller_bucket :
  AWS.trace (AWS.transcribe (Sample.env ∅) (Sample.aws_lib "COMPLETED") 1 "/tmp/a.wav"
               (Some "corpus") None (Sample.aws_world "COMPLETED")).2 =
    [AWS.StartJob "transcribe-0000" "s3://corpus/None";
     AWS.GetJob "transcribe-0000";
     AWS.Download "corpus" "transcripts/transcribe-0000/transcript.json";
     AWS.Delete "corpus" None;
     AWS.Delete "corpus" (Some "transcripts/transcribe-0000/transcript.json")].
Proof. vm_compute. reflexivity. Qed.

(** C7 on the code.  When [transcribe] of the AWS engine is called with
    no bucket and uploads the audio itself, it sends no deletion at all,
    on any path and whatever the services answer.  On a job that
    completes it returns the text after an upload, a job start, a status
    request and a download; on a job that fails it returns the error
    after the upload, the job start and the status request; the uploaded
    audio and the transcript stay in the bucket. *)
Theorem aws_uploaded_objects_not_deleted (E : py_env) (L : AWS.lib) (fuel : nat)
    (audio_path : string) (audio_key : option string) (w : AWS.world) :
  (∃ evs, AWS.trace (AWS.transcribe E L fuel audio_path None audio_key w).2
            = AWS.trace w ++ evs ∧ Forall (λ ev, ¬ is_delete ev) evs) ∧
  (let r := AWS.transcribe (Sample.env ∅) (Sample.aws_lib "COMPLETED") 1 "/tmp/a.wav"
              None None (Sample.aws_world "COMPLETED") in
   match r.1 with
   | AWS.Returned d => d !! "text" = Some (PStr "hello world") ∧ d !! "error" = None
   | _ => False
   end ∧
   AWS.trace r.2 =
     [AWS.Upload "/tmp/a.wav" "your-transcribe-temp-bucket" "temp-uploads/a.wav";
      AWS.StartJob "transcribe-0000" "s3://your-transcribe-temp-bucket/temp-uploads/a.wav";
      AWS.GetJob "transcribe-0000";
      AWS.Download "your-transcribe-temp-bucket" "transcripts/transcribe-0000/transcript.json"]) ∧
  (let r := AWS.transcribe (Sample.env ∅) (Sample.aws_lib "FAILED") 1 "/tmp/a.wav"
              None None (Sample.aws_world "FAILED") in
   match r.1 with
   | AWS.Returned d =>
       d !! "text" = Some (PStr "") ∧
       d !! "error" = Some (PStr "Transcription job failed: Unknown error")
   | _ => False
   end ∧
   AWS.trace r.2 =
     [AWS.Upload "/tmp/a.wav" "your-transcribe-temp-bucket" "temp-uploads/a.wav";
      AWS.StartJob "transcribe-0000" "s3://your-transcribe-temp-bucket/temp-uploads/a.wav";
      AWS.GetJob "transcribe-0000"]).
Proof.
  split; [|split].
  - destruct (aws_transcribe_post E L fuel audio_path None audio_key (λ ev, ¬ is_delete ev))
      with (w := w) as (evs & Ht & HP & _); [done | discriminate |].
    by exists evs.
  - vm_compute. repeat split.
  - vm_compute. repeat split.
Qed.

(** * Further properties of the code *)

(** ** Aggregation *)

Lemma py_sum_numbers_from (qs : list Qc) : ∀ a,
  foldl (λ acc v, a ← acc; q ← py_num v; Ret (PyFloat.add a q)) (Ret a) (map PNum qs)
  = Ret (foldl PyFloat.add a qs).
Proof. induction qs as [|q qs IH]; intros a; simpl; [done | apply IH]. Qed.

(** The [sum] of numbers is their accumulation from zero. *)
Lemma py_sum_numbers (qs : list Qc) : py_sum (map PNum qs) = Ret (foldl PyFloat.add 0 qs).
Proof. apply py_sum_numbers_from. Qed.

(** The average of three rates of 0.1 is 0.10000000000000002, as the
    float additions and the float division of the code give it. *)
Example average_of_three_tenths :
  ∃ m, calculate_metrics [scored_entry "a" Scenario.tenth Scenario.tenth;
                          scored_entry "b" Scenario.tenth Scenario.tenth;
                          scored_entry "c" Scenario.tenth Scenario.tenth] = Ret m ∧
       avg_wer m = Q2Qc (7205759403792795 # 72057594037927936) ∧ num_files m = 3%nat.
Proof.
  eexists. split; [reflexivity|]. split; [|reflexivity]. cbn [avg_wer]. qc_eq.
Qed.

Lemma omap_numbers (rs : list (gmap string pyval)) (k : string)
    (pick : gmap string pyval → Qc) :
  Forall (λ r, r !! k = Some (PNum (pick r))) rs →
  omap (λ r : gmap string pyval, r !! k) rs = map PNum (map pick rs).
Proof.
  induction 1 as [|r rs Hr _ IH]; [done|].
  change (omap (λ r : gmap string pyval, r !! k) (r :: rs))
    with (match r !! k with
          | Some y => y :: omap (λ r : gmap string pyval, r !! k) rs
          | None => omap (λ r : gmap string pyval, r !! k) rs
          end).
  rewrite Hr, IH. done.
Qed.

(** ** The run as a whole *)

Lemma save_result_shape J dir file_id r gt r' dir' :
  save_result J dir file_id r gt = Ret (r', dir') →
  dir' = recorded dir file_id (if str_truthy gt then default "" gt else "") r' ∧
  (r' = r ∨ ∃ w c, r' = scored r (default "" gt) w c).
Proof.
  unfold save_result. destruct (str_truthy gt && key_in "text" r) eqn:Hc.
  - unfold mbind, outcome_bind.
    destruct (py_lower _) as [hyp|]; [|done].
    destruct (wer J _ hyp) as [w|]; [|done].
    destruct (py_lower _) as [hyp'|]; [|done].
    destruct (cer J _ hyp') as [c|]; [|done].
    intros [= <- <-]. split; [done|]. right. by exists w, c.
  - intros [= <- <-]. split; [done|]. by left.
Qed.

Lemma scored_metrics_numeric file_id r gt w c : numeric_entry
  {[ "file_id" := PStr file_id; "wer" := default PNone (scored r gt w c !! "wer");
     "cer" := default PNone (scored r gt w c !! "cer") ]}.
Proof.
  exists w, c. unfold scored.
  rewrite lookup_insert_eq, (lookup_insert_ne _ "cer" "wer"), lookup_insert_eq by done.
  split; reflexivity.
Qed.

Section RunInvariants.

Variables (J : jiwer_lib) (C : corpus) (D : Qc).
Variable transcribe : string → outcome (gmap string pyval).
Variable transcript_dict : gmap string string.
Variable found : output_dir.

Lemma process_item_consistent key file_id gt st rows :
  consistent_output found st rows →
  ∃ rows', consistent_output found (process_item J C transcribe key file_id gt st) rows'.
Proof.
  intros (Hcsv & Hdom & Hkept & Hlen & Hres). unfold process_item.
  destruct (download_file_from_s3 C key) as [path|]; [|by exists rows].
  destruct (get_audio_duration C path) as [d|]; [|by exists rows].
  assert (consistent_output found
            {| total_duration := PyFloat.add (total_duration st) d; results := results st;
               out := out st; calls := calls st ++ [path] |} rows) as Hskip.
  { repeat split; try done; cbn [results calls]; rewrite ?length_app; simpl; lia. }
  destruct (transcribe path) as [r|]; [|by exists rows].
  cbn [out]. destruct (save_result _ _ _ _ _) as [[r' dir']|] eqn:Hs; [|by exists rows].
  apply save_result_shape in Hs as [-> _].
  set (row := row_of file_id (if str_truthy (Some gt) then default "" (Some gt) else "") r').
  exists (rows ++ [row]). unfold consistent_output. cbn [out results calls].
  split; [|split; [|split; [|split]]].
  - unfold recorded. cbn [csv_file]. rewrite Hcsv, map_app. done.
  - unfold recorded. cbn [json_files]. rewrite dom_insert_L, Hdom, fmap_app, list_to_set_app_L.
    simpl. rewrite (right_id_L ∅ (∪)).
    rewrite (comm_L (∪) {[file_id]}), <- (assoc_L (∪)). done.
  - intros id Hid. rewrite fmap_app, not_elem_of_app in Hid. destruct Hid as [Hid Hne].
    unfold recorded. cbn [json_files]. rewrite lookup_insert_ne; [by apply Hkept|].
    intros <-. apply Hne. simpl. left.
  - rewrite !length_app. simpl. destruct (_ && _); rewrite ?length_app; simpl; lia.
  - assert (Forall (λ r0 : gmap string pyval, ∃ id, r0 !! "file_id" = Some (PStr id)
                      ∧ id ∈ row_file_id <$> rows ++ [row]) (results st)) as Hold.
    { eapply Forall_impl; [|exact Hres]. intros r0 (id & Hid & Hin).
      exists id. split; [done|]. rewrite fmap_app. apply elem_of_app. by left. }
    destruct (_ && _); [|done]. apply Forall_app. split; [done|].
    constructor; [|constructor]. exists file_id. split.
    + by rewrite lookup_insert_eq.
    + rewrite fmap_app. apply elem_of_app. right. simpl. left.
Qed.

Lemma process_files_consistent files : ∀ st rows,
  consistent_output found st rows →
  ∃ rows', consistent_output found
             (process_files J C D transcribe transcript_dict files st) rows'.
Proof.
  induction files as [|key rest IH]; intros st rows Hst; simpl; [by exists rows|].
  case_bool_decide; [by exists rows|].
  destruct (transcript_dict !! file_id_of key) as [gt|]; [|by apply (IH st rows)].
  destruct (process_item_consistent key (file_id_of key) gt st rows Hst) as [rows' Hst'].
  by apply (IH _ rows').
Qed.

Lemma process_item_calls key file_id gt st :
  (length (calls (process_item J C transcribe key file_id gt st))
   ≤ S (length (calls st)))%nat.
Proof.
  unfold process_item.
  destruct (download_file_from_s3 C key) as [path|]; [|lia].
  destruct (get_audio_duration C path) as [d|]; [|lia].
  destruct (transcribe path) as [r|]; [|cbn [calls]; rewrite length_app; simpl; lia].
  destruct (save_result _ _ _ _ _) as [[r' dir']|];
    cbn [calls]; rewrite length_app; simpl; lia.
Qed.

Lemma process_files_calls files : ∀ st,
  (length (calls (process_files J C D transcribe transcript_dict files st))
   ≤ length (calls st) + length files)%nat.
Proof.
  induction files as [|key rest IH]; intros st; simpl; [lia|].
  case_bool_decide; [lia|].
  destruct (transcript_dict !! file_id_of key) as [gt|].
  - pose proof (IH (process_item J C transcribe key (file_id_of key) gt st)).
    pose proof (process_item_calls key (file_id_of key) gt st). lia.
  - pose proof (IH st). lia.
Qed.

Hypothesis engine_results : ∀ path r, transcribe path = Ret r → no_metrics r.

Lemma process_item_numeric key file_id gt st :
  Forall numeric_entry (results st) →
  Forall numeric_entry (results (process_item J C transcribe key file_id gt st)).
Proof.
  intros Hst. unfold process_item.
  destruct (download_file_from_s3 C key) as [path|]; [|done].
  destruct (get_audio_duration C path) as [d|]; [|done].
  destruct (transcribe path) as [r|] eqn:Hr; [|done].
  cbn [out]. destruct (save_result _ _ _ _ _) as [[r' dir']|] eqn:Hs; [|done].
  cbn [results]. destruct (key_in "wer" r' && key_in "cer" r') eqn:Hk; [|done].
  apply Forall_app. split; [done|]. constructor; [|constructor].
  apply save_result_shape in Hs as [_ [->|(w & c & ->)]].
  - apply engine_results in Hr as [Hw _].
    apply andb_true_iff in Hk as [Hk _]. apply key_in_true in Hk as [x Hx]. congruence.
  - apply scored_metrics_numeric.
Qed.

Lemma process_files_numeric files : ∀ st,
  Forall numeric_entry (results st) →
  Forall numeric_entry (results (process_files J C D transcribe transcript_dict files st)).
Proof.
  induction files as [|key rest IH]; intros st Hst; simpl; [done|].
  case_bool_decide; [done|].
  destruct (transcript_dict !! file_id_of key) as [gt|]; [|by apply IH].
  by apply IH, process_item_numeric.
Qed.

End RunInvariants.

Lemma start_state_consistent found : consistent_output found (start_state found) [].
Proof.
  repeat split; try done. simpl. by rewrite (right_id_L ∅ (∪)).
Qed.

Lemma calculate_metrics_numeric (results : list (gmap string pyval)) :
  Forall numeric_entry results →
  ∃ m, calculate_metrics results = Ret m ∧ num_files m = length results.
Proof.
  intros Hn. destruct results as [|r l] eqn:Hres; [by eexists|]. rewrite <- Hres in *.
  assert (omap (λ r : gmap string pyval, r !! "wer") results
          = map PNum (map (λ r : gmap string pyval,
                             match r !! "wer" with Some (PNum q) => q | _ => 0 end)
                          results)) as Hw.
  { apply omap_numbers. eapply Forall_impl; [|exact Hn].
    intros r0 (w & c & -> & _). done. }
  assert (omap (λ r : gmap string pyval, r !! "cer") results
          = map PNum (map (λ r : gmap string pyval,
                             match r !! "cer" with Some (PNum q) => q | _ => 0 end)
                          results)) as Hc.
  { apply omap_numbers. eapply Forall_impl; [|exact Hn].
    intros r0 (w & c & _ & ->). done. }
  unfold calculate_metrics. rewrite Hw, Hc, !py_sum_numbers. rewrite Hres.
  eexists. split; [reflexivity | done].
Qed.

(** X2.  No failure of an item stops the run.  Once the listings are not
    empty and the transcript files have been read, [process_dataset]
    returns a summary whatever the download, the duration probe, the
    engine and jiwer do on any item (the engine's results carrying no wer
    or cer of their own), and whatever the output directory held;
    [num_files] is the number of items scored, which is at most the
    number of items transcribed, itself at most the number of audio
    files. *)
Theorem run_survives_item_failures (J : jiwer_lib) (C : corpus) (budget : Qc)
    (model_name test_set : string) (transcribe : string → outcome (gmap string pyval))
    (audio_files transcript_files : list string) (transcript_dict : gmap string string)
    (found : output_dir) :
  (∀ path r, transcribe path = Ret r → no_metrics r) →
  audio_files ≠ [] → transcript_files ≠ [] →
  build_transcript_dict C transcript_files = Ret transcript_dict →
  ∃ run, process_dataset J C budget model_name transcribe audio_files transcript_files
           test_set found = Ret (Some run) ∧
         run_final run = process_files J C budget transcribe transcript_dict audio_files
                           (start_state found) ∧
         num_files (run_metrics run) = length (results (run_final run)) ∧
         (length (results (run_final run)) ≤ length (calls (run_final run))
          ≤ length audio_files)%nat.
Proof.
  intros Heng Ha Ht Hd. unfold process_dataset.
  destruct audio_files as [|a al] eqn:Hal; [done|].
  destruct transcript_files as [|t tl] eqn:Htl; [done|].
  rewrite <- Hal, <- Htl in *. rewrite Hd. simpl mbind.
  set (st := process_files J C budget transcribe transcript_dict audio_files
              (start_state found)).
  destruct (calculate_metrics_numeric (results st)) as (m & Hm & Hn).
  { by apply process_files_numeric. }
  rewrite Hm. simpl mbind. eexists. split; [reflexivity|]. cbn [run_final run_metrics].
  split; [done|]. split; [done|].
  destruct (process_files_consistent J C budget transcribe transcript_dict found audio_files
              (start_state found) [] (start_state_consistent found))
    as (rows & _ & _ & _ & Hlen & _).
  pose proof (process_files_calls J C budget transcribe transcript_dict audio_files
                (start_state found)) as Hc.
  fold st in Hlen, Hc. simpl in Hc. lia.
Qed.

(** X2, witness: the five-file corpus with an engine that fails on one
    file. *)
Lemma run_survives_item_failures_witness :
  ∃ run, Sample.run_with Sample.stub_error_only = Ret (Some run) ∧
         (length (results (run_final run)) ≤ length (calls (run_final run)) ≤ 5)%nat.
Proof.
  destruct (run_survives_item_failures Sample.jiwer Sample.store max_audio_duration
              "stub" "test-clean" Sample.stub_error_only Sample.five_files
              ["librispeech/test-clean/1.trans.txt"]
              (foldl add_transcript_line ∅
                 ["a HELLO WORLD"; "b HELLO WORLD"; "c HELLO WORLD";
                  "d HELLO WORLD"; "e HELLO WORLD"]) new_directory)
    as (run & Hrun & _ & _ & Hlen).
  - intros path r. unfold Sample.stub_error_only.
    destruct (String.eqb path "/tmp/c.flac"); intros [= <-]; split; reflexivity.
  - done.
  - done.
  - reflexivity.
  - exists run. split; [exact Hrun | exact Hlen].
Defined.

(** X3.  What a run leaves in its output directory is consistent,
    whatever the directory held before and whatever happens to the
    items: [results.csv] is the five-column header followed by rows
    only; the JSON files are those that were there before, those the
    rows name, and [metrics.json], which holds the summary returned; a
    JSON file that no row names, other than [metrics.json], is as it
    was; every item counted in the aggregate has a row; and there are at
    least as many rows as items counted and at most as many as items
    transcribed. *)
Theorem run_output_consistent (J : jiwer_lib) (C : corpus) (budget : Qc)
    (model_name test_set : string) (transcribe : string → outcome (gmap string pyval))
    (audio_files transcript_files : list string) (found : output_dir)
    (run : dataset_run) :
  process_dataset J C budget model_name transcribe audio_files transcript_files
    test_set found = Ret (Some run) →
  ∃ rows,
    consistent_output found (run_final run) rows ∧
    csv_file (run_out run) = Some (log_header :: map CsvRow rows) ∧
    dom (json_files (run_out run))
      = dom (json_files found) ∪ list_to_set (row_file_id <$> rows) ∪ {["metrics"]} ∧
    json_files (run_out run) !! "metrics"
      = Some (metrics_json test_set model_name (run_metrics run)
                (run_total_duration run)) ∧
    (∀ id, id ≠ "metrics" → id ∉ row_file_id <$> rows →
           json_files (run_out run) !! id = json_files found !! id).
Proof.
  unfold process_dataset.
  destruct audio_files as [|a al] eqn:Hal; [done|].
  destruct transcript_files as [|t tl] eqn:Htl; [done|].
  rewrite <- Hal. unfold mbind, outcome_bind.
  destruct (build_transcript_dict C (t :: tl)) as [transcript_dict|]; [|done].
  set (st := process_files J C budget transcribe transcript_dict audio_files
              (start_state found)).
  destruct (calculate_metrics (results st)) as [m|]; [|done].
  intros [= <-]. cbn [run_final run_out run_metrics run_total_duration csv_file json_files].
  destruct (process_files_consistent J C budget transcribe transcript_dict found audio_files
              (start_state found) [] (start_state_consistent found)) as [rows Hrows].
  fold st in Hrows. exists rows. split; [done|].
  destruct Hrows as (Hcsv & Hdom & Hkept & _).
  split; [done|]. split; [|split].
  - rewrite dom_insert_L, Hdom. apply (comm_L (∪)).
  - apply lookup_insert_eq.
  - intros id Hm Hid. rewrite lookup_insert_ne by done. by apply Hkept.
Qed.

(** X3, witness: a run in a directory that holds the result of an
    earlier run. *)
Lemma run_output_consistent_witness :
  ∃ run rows,
    process_dataset Sample.jiwer Sample.store max_audio_duration "stub"
      Sample.stub_error_only Sample.five_files ["librispeech/test-clean/1.trans.txt"]
      "test-clean" Scenario.used_directory = Ret (Some run) ∧
    consistent_output Scenario.used_directory (run_final run) rows ∧
    dom (json_files (run_out run))
      = dom (json_files Scenario.used_directory) ∪ list_to_set (row_file_id <$> rows)
        ∪ {["metrics"]}.
Proof.
  destruct (process_dataset Sample.jiwer Sample.store max_audio_duration "stub"
              Sample.stub_error_only Sample.five_files
              ["librispeech/test-clean/1.trans.txt"] "test-clean" Scenario.used_directory)
    as [[run|]|e] eqn:Hrun.
  - destruct (run_output_consistent _ _ _ _ _ _ _ _ _ _ Hrun)
      as (rows & Hc & _ & Hdom & _).
    exists run, rows. split; [reflexivity|]. split; [exact Hc | exact Hdom].
  - exfalso. vm_compute in Hrun. discriminate Hrun.
  - exfalso. vm_compute in Hrun. discriminate Hrun.
Defined.

(** ** Transcript files and listings *)

Lemma split_first_no_sep c l a b : split_first c l = Some (a, b) → c ∉ a.
Proof.
  revert a. induction l as [|x l IH]; intros a; simpl; [done|].
  destruct (Ascii.eqb_spec x c) as [->|Hx].
  - intros [= <- <-]. apply not_elem_of_nil.
  - destruct (split_first c l) as [[a' b']|]; [|done].
    intros [= <- <-]. apply not_elem_of_cons. split; [congruence | by apply IH].
Qed.

Lemma split_first_app c a b : c ∉ a → split_first c (a ++ c :: b) = Some (a, b).
Proof.
  induction a as [|x a IH]; simpl; intros Ha.
  - by rewrite Ascii.eqb_refl.
  - apply not_elem_of_cons in Ha as [Hx Ha].
    destruct (Ascii.eqb_spec x c) as [->|_]; [done|]. by rewrite IH.
Qed.

Lemma lower_char_idempotent c :
  PyString.lower_char (PyString.lower_char c) = PyString.lower_char c.
Proof. by destruct c as [[] [] [] [] [] [] [] []]. Qed.

Lemma lower_idempotent s : PyString.lower (PyString.lower s) = PyString.lower s.
Proof.
  unfold PyString.lower. rewrite list_ascii_of_string_of_list_ascii.
  f_equal. rewrite <- list_fmap_compose. apply list_fmap_ext.
  intros _ c _. apply lower_char_idempotent.
Qed.

Lemma lstrip_chars_id l :
  (∀ c l', l = c :: l' → PyString.is_space c = false) → PyString.lstrip_chars l = l.
Proof. destruct l as [|c l]; [done|]. intros H. simpl. by rewrite (H c l). Qed.

Lemma strip_chars_id l : stripped l → PyString.strip_chars l = l.
Proof.
  intros [Hh Ht]. unfold PyString.strip_chars. rewrite (lstrip_chars_id l Hh).
  rewrite lstrip_chars_id; [apply rev_involutive|].
  intros c l' Heq. apply (Ht c (rev l')).
  apply (f_equal (@rev ascii)) in Heq. rewrite rev_involutive in Heq. by rewrite Heq.
Qed.

Lemma parse_transcript_line_entry line k t :
  parse_transcript_line line = Some (k, t) → entry_ok k t.
Proof.
  intros Hp. pose proof (parse_transcript_line_nonempty _ _ _ Hp) as Ht.
  unfold parse_transcript_line in Hp.
  destruct (split_first _ _) as [[key transcript]|] eqn:Hs; [|done].
  injection Hp as <- <-.
  pose proof (split_first_no_sep _ _ _ _ Hs) as Hno.
  apply split_first_Some in Hs.
  repeat split; try done.
  - destruct key as [|c key]; [|done]. simpl in Hs.
    destruct (strip_chars_stripped (list_ascii_of_string line)) as [Hh _].
    specialize (Hh _ _ Hs). vm_compute in Hh. discriminate Hh.
  - by rewrite list_ascii_of_string_of_list_ascii.
  - apply lower_idempotent.
Qed.

Lemma add_transcript_line_entries d line :
  (∀ k t, d !! k = Some t → entry_ok k t) →
  ∀ k t, add_transcript_line d line !! k = Some t → entry_ok k t.
Proof.
  intros Hd k t. unfold add_transcript_line.
  destruct (parse_transcript_line line) as [[key transcript]|] eqn:Hp; [|apply Hd].
  rewrite lookup_insert. case_decide as Hk.
  - intros [= <-]. subst k. by apply (parse_transcript_line_entry line).
  - apply Hd.
Qed.

(** X4.  Every entry of the dictionary that [build_transcript_dict]
    returns has an id that is not empty and contains no space, and a
    transcript that is not empty and is in lower case. *)
Theorem build_transcript_dict_entries (C : corpus) (transcript_keys : list string)
    (d : gmap string string) (k t : string) :
  build_transcript_dict C transcript_keys = Ret d → d !! k = Some t → entry_ok k t.
Proof.
  unfold build_transcript_dict. intros Hb. revert k t.
  assert (∀ k t, (∅ : gmap string string) !! k = Some t → entry_ok k t) as H0.
  { intros k t. by rewrite lookup_empty. }
  revert Hb H0. generalize (∅ : gmap string string).
  induction transcript_keys as [|key keys IH]; intros d0; simpl.
  - by intros [= <-].
  - unfold mbind, outcome_bind.
    destruct (download_file_from_s3 C key) as [path|]; [|done].
    destruct (read_lines C path) as [lines|]; [|done].
    intros Hb H0. apply (IH _ Hb). clear IH Hb. revert d0 H0.
    induction lines as [|line lines IHl]; intros d0 H0; simpl; [done|].
    by apply IHl, add_transcript_line_entries.
Qed.

(** X4, witness: the transcript file of the five-file corpus. *)
Lemma build_transcript_dict_entries_witness : entry_ok "c" "hello world".
Proof.
  apply (build_transcript_dict_entries Sample.store ["librispeech/test-clean/1.trans.txt"]
           (foldl add_transcript_line ∅
              ["a HELLO WORLD"; "b HELLO WORLD"; "c HELLO WORLD";
               "d HELLO WORLD"; "e HELLO WORLD"]) "c" "hello world");
    reflexivity.
Defined.

Lemma list_ascii_of_string_app (a b : string) :
  list_ascii_of_string (a ++ b)%string = list_ascii_of_string a ++ list_ascii_of_string b.
Proof. induction a as [|c a IH]; simpl; [done | by rewrite IH]. Qed.

(** X5.  A line made of an id without white space, one space and a
    transcript that does not end with white space is read back as that
    id with the transcript in lower case, whatever the dictionary held
    for the id before. *)
Theorem transcript_line_round_trip (d : gmap string string) (key transcript : string) :
  key ≠ "" →
  Forall (λ c, PyString.is_space c = false) (list_ascii_of_string key) →
  transcript ≠ "" →
  (∀ c l, list_ascii_of_string transcript = l ++ [c] → PyString.is_space c = false) →
  add_transcript_line d (key ++ " " ++ transcript)%string !! key
    = Some (PyString.lower transcript).
Proof.
  intros Hk Hsp Ht Hlast. unfold add_transcript_line, parse_transcript_line.
  rewrite !list_ascii_of_string_app. simpl.
  set (ks := list_ascii_of_string key) in *. set (ts := list_ascii_of_string transcript) in *.
  assert (ks ≠ []) as Hks.
  { intros H. apply Hk. rewrite <- (string_of_list_ascii_of_string key). fold ks.
    by rewrite H. }
  assert (ts ≠ []) as Hts.
  { intros H. apply Ht. rewrite <- (string_of_list_ascii_of_string transcript). fold ts.
    by rewrite H. }
  rewrite strip_chars_id.
  - rewrite split_first_app.
    + unfold ks, ts. rewrite !string_of_list_ascii_of_string. apply lookup_insert_eq.
    + intros Hin. rewrite Forall_forall in Hsp. apply list_elem_of_In, Hsp in Hin.
      vm_compute in Hin. discriminate Hin.
  - split.
    + intros c l' Heq. destruct ks as [|c0 ks']; [done|]. injection Heq as <- _.
      by inversion Hsp.
    + intros c l' Heq. destruct (exists_last Hts) as (l0 & c0 & Hl0).
      rewrite Hl0 in Heq. change (ks ++ " "%char :: l0 ++ [c0])
        with (ks ++ (" "%char :: l0) ++ [c0]) in Heq.
      rewrite app_assoc in Heq. apply app_inj_tail in Heq as [_ <-].
      by apply (Hlast c0 l0).
Qed.

(** X5, witness: a line of a LibriSpeech transcript file. *)
Lemma transcript_line_round_trip_witness :
  add_transcript_line ∅ "61-70968-0000 HE BEGAN A CONFUSED COMPLAINT" !! "61-70968-0000"
    = Some "he began a confused complaint".
Proof.
  apply (transcript_line_round_trip ∅ "61-70968-0000" "HE BEGAN A CONFUSED COMPLAINT").
  - done.
  - repeat constructor.
  - done.
  - intros c l Heq. apply (f_equal (@rev ascii)) in Heq.
    rewrite rev_app_distr in Heq. simpl in Heq. by injection Heq as <- _.
Defined.

Lemma filter_sublist {A} (f : A → bool) (l : list A) : sublist (List.filter f l) l.
Proof.
  induction l as [|x l IH]; simpl; [constructor|].
  destruct (f x); by constructor.
Qed.

Lemma is_suffix_last a x l : is_suffix (a ++ [x]) l = true → ∃ l', l = l' ++ [x].
Proof.
  unfold is_suffix. rewrite rev_app_distr. simpl.
  destruct (rev l) as [|c r] eqn:Hr; [done|]. simpl.
  intros [Hc _]%andb_true_iff. apply Ascii.eqb_eq in Hc as ->.
  exists (rev r). apply (f_equal (@rev ascii)) in Hr. by rewrite rev_involutive in Hr.
Qed.

Lemma endswith_audio_not_transcript s :
  endswith s audio_extensions = true → endswith s transcript_extensions = false.
Proof.
  intros Ha. apply not_true_is_false. intros Ht.
  unfold endswith, audio_extensions, transcript_extensions in *. cbn [existsb] in *.
  rewrite orb_false_r in Ht.
  apply (is_suffix_last (list_ascii_of_string ".trans.tx") "t") in Ht as [l' Hl'].
  rewrite Hl' in Ha. rewrite !orb_true_iff in Ha.
  destruct Ha as [Ha|[Ha|[Ha|Ha]]]; [| | |done].
  - apply (is_suffix_last (list_ascii_of_string ".wa") "v") in Ha as [l'' Hl''].
    by apply app_inj_tail in Hl'' as [_ ?].
  - apply (is_suffix_last (list_ascii_of_string ".mp") "3") in Ha as [l'' Hl''].
    by apply app_inj_tail in Hl'' as [_ ?].
  - apply (is_suffix_last (list_ascii_of_string ".fla") "c") in Ha as [l'' Hl''].
    by apply app_inj_tail in Hl'' as [_ ?].
Qed.

(** X6.  [list_files_in_s3] returns, in the order listed, exactly the
    keys of the pages whose name in lower case ends with one of the
    extensions; a page without contents gives nothing; and the audio
    listing and the transcript listing that [process_dataset] asks for
    never have a key in common. *)
Theorem list_files_in_s3_selects (pages : list (option (list string)))
    (extensions : list string) :
  (∀ key, key ∈ list_files_in_s3 pages extensions ↔
          key ∈ all_keys pages ∧ endswith (PyString.lower key) extensions = true) ∧
  sublist (list_files_in_s3 pages extensions) (all_keys pages) ∧
  (∀ key, key ∈ list_files_in_s3 pages audio_extensions →
          key ∉ list_files_in_s3 pages transcript_extensions).
Proof.
  assert (Hmem : ∀ exts key, key ∈ list_files_in_s3 pages exts ↔
            key ∈ all_keys pages ∧ endswith (PyString.lower key) exts = true).
  { intros exts key. unfold list_files_in_s3, all_keys.
    rewrite !list_elem_of_In, !in_flat_map. split.
    - intros ([contents|] & Hp & Hin); [|done].
      apply filter_In in Hin as [Hin He]. split; [|done]. by exists (Some contents).
    - intros [([contents|] & Hp & Hin) He]; [|done].
      exists (Some contents). split; [done|]. by apply filter_In. }
  split; [apply Hmem|]. split.
  - clear Hmem. unfold list_files_in_s3, all_keys.
    induction pages as [|[contents|] pages IH]; simpl; [constructor | | done].
    apply sublist_app; [apply filter_sublist | apply IH].
  - intros key [_ Ha]%Hmem [_ Ht]%Hmem.
    apply endswith_audio_not_transcript in Ha. congruence.
Qed.

Lemma rsplit_at_None c l : c ∉ l → PyString.rsplit_at c l = None.
Proof.
  induction l as [|x l IH]; simpl; [done|]. intros [Hx Hl]%not_elem_of_cons.
  rewrite IH by done. destruct (Ascii.eqb_spec x c); [congruence | done].
Qed.

Lemma rsplit_at_app c a b : c ∉ b → PyString.rsplit_at c (a ++ c :: b) = Some (a, b).
Proof.
  intros Hb. induction a as [|x a IH]; simpl.
  - rewrite rsplit_at_None by done. by rewrite Ascii.eqb_refl.
  - by rewrite IH.
Qed.

(** X7.  The id under which the runner looks up the ground truth of an
    audio file is the name of the file without its directories and
    without its last extension: for a key [dir/name.ext], whose [name]
    has no slash and is not made of dots only and whose [ext] has neither
    dot nor slash, the id is [name]. *)
Theorem file_id_of_key (dir name ext : string) :
  ("/"%char ∉ list_ascii_of_string name) →
  (∃ c, c ∈ list_ascii_of_string name ∧ c ≠ "."%char) →
  ("."%char ∉ list_ascii_of_string ext) → ("/"%char ∉ list_ascii_of_string ext) →
  file_id_of (dir ++ "/" ++ name ++ "." ++ ext)%string = name.
Proof.
  intros Hn (c & Hc & Hdot) He1 He2. unfold file_id_of, PyString.basename, PyString.splitext.
  rewrite !list_ascii_of_string_app. simpl.
  set (ns := list_ascii_of_string name) in *. set (es := list_ascii_of_string ext) in *.
  assert ("/"%char ∉ ns ++ "."%char :: es) as Hslash.
  { rewrite not_elem_of_app, not_elem_of_cons. done. }
  unfold PyString.basename_chars. rewrite rsplit_at_app by done.
  rewrite list_ascii_of_string_of_list_ascii. unfold PyString.splitext_chars.
  rewrite rsplit_at_None by done. rewrite rsplit_at_app by done.
  assert (forallb (Ascii.eqb ".") ns = false) as ->.
  { apply not_true_is_false. intros Hall. rewrite forallb_forall in Hall.
    apply list_elem_of_In, Hall, Ascii.eqb_eq in Hc. congruence. }
  simpl. unfold ns. apply string_of_list_ascii_of_string.
Qed.

(** X7, witness: a key of the LibriSpeech corpus. *)
Lemma file_id_of_key_witness :
  file_id_of "librispeech/test-clean/61/70968/61-70968-0000.flac" = "61-70968-0000".
Proof.
  apply (file_id_of_key "librispeech/test-clean/61/70968" "61-70968-0000" "flac").
  - apply (bool_decide_unpack _). vm_compute. exact I.
  - exists "6"%char. split; [left | discriminate].
  - apply (bool_decide_unpack _). vm_compute. exact I.
  - apply (bool_decide_unpack _). vm_compute. exact I.
Defined.

(** ** Dolphin: cleaning a text that is already clean *)

Lemma re_sub_tags_id l : ¬ has_tag l → Dolphin.re_sub_tags l = l.
Proof.
  induction l as [|c l IH]; intros Hno; [reflexivity|].
  assert (Dolphin.match_tag (c :: l) = None) as Hm.
  { destruct (Dolphin.match_tag (c :: l)) as [rest|] eqn:Hm; [|done].
    exfalso. apply Hno. exists [], (c :: l). split; [done|].
    apply match_tag_Some in Hm as (m & -> & Hne & Hgt). by exists m, rest. }
  rewrite (re_sub_tags_keep _ _ Hm). f_equal. apply IH.
  intros (a & s & -> & Htag). apply Hno. by exists (c :: a), s.
Qed.

(** X8.  Cleaning a Dolphin hypothesis twice gives what cleaning it once
    gives: no tag is made by deleting the tags and stripping the rest. *)
Theorem clean_hypothesis_text_idempotent (text : string) :
  Dolphin.clean_hypothesis_text (Dolphin.clean_hypothesis_text text)
    = Dolphin.clean_hypothesis_text text.
Proof.
  unfold Dolphin.clean_hypothesis_text. rewrite list_ascii_of_string_of_list_ascii.
  set (x := Dolphin.re_sub_tags (list_ascii_of_string text)).
  assert (¬ has_tag (PyString.strip_chars x)) as Hno.
  { intros Htag. apply (re_sub_tags_no_tag (list_ascii_of_string text)). fold x.
    destruct (strip_chars_infix x) as (a & b & Hx). rewrite Hx. by apply has_tag_infix. }
  rewrite (re_sub_tags_id _ Hno).
  by rewrite (strip_chars_id _ (strip_chars_stripped x)).
Qed.

(** ** Salad: the status requests that count *)

Lemma salad_poll_footprint E L L' self job_id retries : ∀ n,
  (∀ k url headers, (n ≤ k < n + retries)%nat →
     Salad.get L k url headers = Salad.get L' k url headers) →
  Salad.poll E L self job_id retries n = Salad.poll E L' self job_id retries n.
Proof.
  induction retries as [|retries IH]; intros n Hget; [reflexivity|].
  cbn [Salad.poll]. unfold Salad._get_job_status. rewrite (Hget n) by lia.
  assert (Salad.poll E L self job_id retries (S n)
          = Salad.poll E L' self job_id retries (S n)) as ->.
  { apply IH. intros k url headers Hk. apply Hget. lia. }
  reflexivity.
Qed.

(** X9.  A call of [SaladModel.transcribe] asks for the status of its
    job at most [max_retries] (60) times: two services that agree on the
    submission and on the first 60 status answers give the same
    result, whatever they would answer later. *)
Theorem salad_transcribe_first_answers (E : py_env) (L L' : Salad.lib) (self : Salad.t)
    (audio_path : string) :
  Salad.post L = Salad.post L' →
  (∀ k url headers, (k < Salad.max_retries)%nat →
     Salad.get L k url headers = Salad.get L' k url headers) →
  Salad.transcribe E L self audio_path = Salad.transcribe E L' self audio_path.
Proof.
  intros Hpost Hget. unfold Salad.transcribe, Salad._submit_transcription_job.
  rewrite Hpost. f_equal.
  assert (∀ job_id, Salad.poll E L self job_id Salad.max_retries 0
                    = Salad.poll E L' self job_id Salad.max_retries 0) as Hpoll.
  { intros job_id. apply salad_poll_footprint. intros k url headers Hk. apply Hget. lia. }
  generalize dependent Salad.max_retries. intros retries _ Hpoll.
  unfold mbind, outcome_bind.
  destruct (Salad.post L' _ _ _) as [response|]; [|done].
  destruct (if negb (status_code response =? 200)%Z then _ else _) as [jr|]; [|done].
  destruct (if negb (py_truthy jr) then _ else _) as [[]|]; [done| |done].
  destruct (py_getitem jr "id") as [job_id|]; [|done].
  by rewrite Hpoll.
Qed.

(** X9, witness: a job that would be reported as succeeded from the
    61st status request on is not seen to succeed. *)
Lemma salad_transcribe_first_answers_witness :
  Salad.transcribe (Sample.env ∅) (Scenario.salad_lib_after 60 "running" "succeeded")
    Sample.salad_engine "/tmp/a.wav"
  = Salad.transcribe (Sample.env ∅) (Sample.salad_lib "running") Sample.salad_engine
      "/tmp/a.wav".
Proof.
  apply salad_transcribe_first_answers; [reflexivity|].
  intros k url headers Hk. unfold Salad.max_retries in Hk. cbn [Salad.get Scenario.salad_lib_after Sample.salad_lib].
  destruct (Nat.ltb_spec k 60); [reflexivity | lia].
Defined.

Lemma salad_poll_skip E L self job_id j : ∀ retries n,
  (∀ k, (n ≤ k < n + j)%nat → salad_pending E L self job_id k) →
  Salad.poll E L self job_id (j + retries) n = Salad.poll E L self job_id retries (n + j).
Proof.
  induction j as [|j IH]; intros retries n Hpend.
  - by rewrite Nat.add_0_r.
  - change (S j + retries)%nat with (S (j + retries)). cbn [Salad.poll].
    destruct (Hpend n) as (js & -> & Hjs); [lia|]. unfold mbind, outcome_bind.
    assert (Salad.poll E L self job_id (j + retries) (S n)
            = Salad.poll E L self job_id retries (n + S j)) as Hrest.
    { rewrite IH; [f_equal; lia|]. intros k Hk. apply Hpend. lia. }
    destruct Hjs as [->|(s & -> & Hs)]; [done|].
    destruct (negb (py_truthy js)); [done|]. cbn [py_lower].
    assert (∀ x, x ∈ ["succeeded"; "completed"; "failed"; "error"] →
                 String.eqb (PyString.lower s) x = false) as Hne.
    { intros x Hx. destruct (String.eqb_spec (PyString.lower s) x); [congruence | done]. }
    rewrite !Hne by set_solver. done.
Qed.

Lemma salad_poll_first_final E L self job_id j retries (P : outcome Salad.poll_end → Prop) :
  (j < retries)%nat →
  (∀ k, (k < j)%nat → salad_pending E L self job_id k) →
  (∀ rest, P (Salad.poll E L self job_id (S rest) j)) →
  P (Salad.poll E L self job_id retries 0).
Proof.
  intros Hj Hpend HP. replace retries with (j + S (retries - S j))%nat by lia.
  rewrite salad_poll_skip; [apply HP|]. intros k Hk. apply Hpend. lia.
Qed.

Lemma salad_submitted_id E L self audio_path job_id :
  salad_submitted E L self audio_path job_id →
  Salad.transcribe E L self audio_path =
    try_except (ended ← Salad.poll E L self job_id Salad.max_retries 0;
                match ended with
                | Salad.TimedOut => Ret (error_result "Job timed out")
                | Salad.JobFailed result => Ret result
                | Salad.Completed job_status =>
                    text ← py_get job_status "text" (PStr "");
                    has_words ← py_contains job_status "words";
                    words_info ←
                      (if has_words : bool then py_get job_status "words" (PList [])
                       else
                         has_segments ← py_contains job_status "word_segments";
                         if has_segments : bool
                         then py_get job_status "word_segments" (PList [])
                         else Ret (PList []));
                    words_info ← py_iter words_info;
                    chunks ← for_each Salad.format_word words_info;
                    Ret {[ "text" := text; "chunks" := PList chunks; "job_id" := job_id ]}
                end)
               (λ e, Ret (error_result (py_str_exn e))).
Proof.
  intros (d & Hsub & Hid). unfold Salad.transcribe. rewrite Hsub.
  generalize Salad.max_retries. intros retries.
  destruct d as [|kv d]; [done|].
  unfold mbind, outcome_bind at 1 2 3. cbn [py_truthy negb py_contains py_getitem].
  rewrite Hid. rewrite bool_decide_eq_true_2 by (by eexists). reflexivity.
Qed.

(** X10.  When Salad accepts the job and, after status answers on which
    the loop goes on, answers within the 60 requests that the job has
    failed, [transcribe] returns at once the empty text with the error
    of that answer ([Unknown error] when it has none) after [Job
    failed: ]. *)
Theorem salad_job_failure_reported (E : py_env) (L : Salad.lib) (self : Salad.t)
    (audio_path : string) (job_id : pyval) (j : nat) (answer : list (string * pyval))
    (s : string) :
  salad_submitted E L self audio_path job_id →
  (j < Salad.max_retries)%nat →
  (∀ k, (k < j)%nat → salad_pending E L self job_id k) →
  Salad._get_job_status E L self j job_id = Ret (PDict answer) →
  assoc "status" answer = Some (PStr s) →
  PyString.lower s ∈ ["failed"; "error"] →
  Salad.transcribe E L self audio_path =
    Ret (error_result ("Job failed: "
           ++ format_value E (default (PStr "Unknown error") (assoc "error" answer)))).
Proof.
  intros Hsub Hj Hpend Hans Hst Hs.
  rewrite (salad_submitted_id _ _ _ _ _ Hsub).
  generalize dependent Salad.max_retries. intros retries Hj.
  apply (salad_poll_first_final E L self job_id j retries); [done..|].
  intros rest. cbn [Salad.poll]. rewrite Hans.
  destruct answer as [|kv answer]; [done|].
  unfold mbind, outcome_bind. cbn [py_truthy negb py_get]. rewrite Hst.
  change (default (PStr "") (Some (PStr s))) with (PStr s). cbn [py_lower].
  assert (String.eqb (PyString.lower s) "succeeded" = false ∧
          String.eqb (PyString.lower s) "completed" = false ∧
          String.eqb (PyString.lower s) "failed" || String.eqb (PyString.lower s) "error"
            = true) as (-> & -> & ->).
  { apply elem_of_cons in Hs as [->|Hs]; [done|].
    apply elem_of_cons in Hs as [->|Hs]; [done|]. by apply elem_of_nil in Hs. }
  reflexivity.
Qed.

(** X10, witness: the job is reported as failed at the fourth status
    request. *)
Lemma salad_job_failure_reported_witness :
  Salad.transcribe (Sample.env ∅) (Scenario.salad_lib_after 3 "running" "failed")
    Sample.salad_engine "/tmp/a.wav"
  = Ret (error_result "Job failed: Unknown error").
Proof.
  apply (salad_job_failure_reported (Sample.env ∅) (Scenario.salad_lib_after 3 "running" "failed")
           Sample.salad_engine "/tmp/a.wav" (PStr "job-1") 3 [("status", PStr "failed")]
           "failed").
  - exists [("id", PStr "job-1")]. split; reflexivity.
  - unfold Salad.max_retries. lia.
  - intros k Hk. exists (PDict [("status", PStr "running")]). split.
    + destruct k as [|[|[|k]]]; [reflexivity..|lia].
    + right. exists "running". split; [reflexivity|].
      apply (bool_decide_unpack _). vm_compute. exact I.
  - reflexivity.
  - reflexivity.
  - apply (bool_decide_unpack _). vm_compute. exact I.
Defined.

(** ** AWS: a job that fails *)

Lemma aws_wait_skip tc job_name j : ∀ fuel n w,
  AWS.transcribe_client_of (AWS.me w) = Some tc →
  (∀ k, (n ≤ k < n + j)%nat → aws_job_running tc job_name k) →
  AWS.wait_for_job job_name (j + fuel) n w =
  AWS.wait_for_job job_name fuel (n + j)
    {| AWS.me := AWS.me w;
       AWS.trace := AWS.trace w ++ replicate j (AWS.GetJob job_name) |}.
Proof.
  induction j as [|j IH]; intros fuel n w Hc Hrun.
  - rewrite Nat.add_0_r. simpl. rewrite app_nil_r. by destruct w.
  - change (S j + fuel)%nat with (S (j + fuel)). cbn [AWS.wait_for_job].
    destruct (Hrun n) as (status & js & Hget & Hst & Hc1 & Hc2); [lia|].
    unfold aws_job_status in Hst.
    unfold AWS.bind, AWS.the_transcribe, AWS.get_me, AWS.ret, AWS.request, AWS.lift.
    cbn -[AWS.wait_for_job replicate]. rewrite Hc. cbn -[AWS.wait_for_job replicate].
    rewrite Hget. cbn -[AWS.wait_for_job replicate]. rewrite Hst.
    rewrite Hc1, Hc2. cbn -[AWS.wait_for_job replicate].
    rewrite IH; [|done|intros k Hk; apply Hrun; lia].
    cbn [AWS.me AWS.trace replicate]. rewrite <- app_assoc.
    by replace (S n + j)%nat with (n + S j)%nat by lia.
Qed.

(** X11.  When [transcribe] is called with the audio path alone, as the
    runner calls it, and the job is reported [FAILED] after status
    answers on which the loop goes on, the result is the empty text with
    the failure reason of that answer ([Unknown error] when it has none)
    after [Transcription job failed: ].  The requests sent are the
    upload, the start of the job and the status requests: nothing is
    downloaded and nothing is deleted, so the uploaded audio stays in the
    bucket. *)
Theorem aws_failed_job_reported (E : py_env) (L : AWS.lib) (fuel j : nat)
    (audio_path : string) (w : AWS.world) (tc : AWS.transcribe_client)
    (s3 : AWS.s3_client) (answer job : list (string * pyval)) :
  let job_name := ("transcribe-" ++ AWS.uuid4 L)%string in
  let bucket := "your-transcribe-temp-bucket" in
  let key := ("temp-uploads/" ++ PyString.basename audio_path)%string in
  aws_loaded w tc s3 →
  AWS.upload_file s3 audio_path bucket key = Ret tt →
  (∀ uri format language output_key, ∃ started,
     AWS.start_transcription_job tc job_name uri format language bucket output_key
       = Ret started) →
  (j < fuel)%nat →
  (∀ k, (k < j)%nat → aws_job_running tc job_name k) →
  AWS.get_transcription_job tc j job_name = Ret (PDict answer) →
  assoc "TranscriptionJob" answer = Some (PDict job) →
  assoc "TranscriptionJobStatus" job = Some (PStr "FAILED") →
  let r := AWS.transcribe E L fuel audio_path None None w in
  r.1 = AWS.Returned
          (error_result ("Transcription job failed: "
             ++ format_value E (default (PStr "Unknown error")
                                  (assoc "FailureReason" job)))%string) ∧
  AWS.trace r.2 =
    AWS.trace w
    ++ [AWS.Upload audio_path bucket key;
        AWS.StartJob job_name ("s3://" ++ bucket ++ "/" ++ key)%string]
    ++ replicate (S j) (AWS.GetJob job_name).
Proof.
  intros job_name bucket key [Htc Hs3] Hup Hstart Hj Hrun Hget Hjob Hst r. subst r.
  replace fuel with (j + S (fuel - S j))%nat by lia.
  destruct w as [[cfg nm tco s3o lc mcj obn op] tr]. simpl in Htc, Hs3. subst tco s3o.
  unfold AWS.transcribe, AWS.try_catch, AWS.bind.
  cbn -[AWS.wait_for_job replicate Nat.add]. fold bucket key job_name. rewrite Hup.
  cbn -[AWS.wait_for_job replicate Nat.add].
  match goal with
  | |- context [AWS.start_transcription_job tc job_name ?u ?f ?l bucket ?o] =>
      destruct (Hstart u f l o) as [started ->]
  end.
  cbn -[AWS.wait_for_job replicate Nat.add].
  rewrite (aws_wait_skip tc job_name j); [|done|intros k Hk; apply Hrun; lia].
  cbn -[replicate]. rewrite Hget. cbn -[replicate]. rewrite Hjob.
  cbn -[replicate]. rewrite Hst. cbn -[replicate]. rewrite Hjob.
  unfold AWS.lift. cbn -[replicate].
  split; [reflexivity|].
  rewrite <- !app_assoc. f_equal. cbn [app]. do 2 f_equal.
  change (S j) with (1 + j)%nat. rewrite Nat.add_comm. by rewrite replicate_add.
Qed.

(** X11, witness: the job fails for [bad audio] at the third status
    request. *)
Lemma aws_failed_job_reported_witness :
  let r := AWS.transcribe (Sample.env ∅) (Sample.aws_lib "IN_PROGRESS") 5 "/tmp/a.wav"
             None None (Scenario.failing_world 2 "bad audio") in
  r.1 = AWS.Returned (error_result "Transcription job failed: bad audio") ∧
  AWS.trace r.2 =
    [AWS.Upload "/tmp/a.wav" "your-transcribe-temp-bucket" "temp-uploads/a.wav";
     AWS.StartJob "transcribe-0000" "s3://your-transcribe-temp-bucket/temp-uploads/a.wav";
     AWS.GetJob "transcribe-0000"; AWS.GetJob "transcribe-0000";
     AWS.GetJob "transcribe-0000"].
Proof.
  apply (aws_failed_job_reported (Sample.env ∅) (Sample.aws_lib "IN_PROGRESS") 5 2
           "/tmp/a.wav" (Scenario.failing_world 2 "bad audio")
           (Scenario.failing_service 2 "bad audio") Sample.s3
           [("TranscriptionJob",
             PDict [("TranscriptionJobStatus", PStr "FAILED");
                    ("FailureReason", PStr "bad audio")])]
           [("TranscriptionJobStatus", PStr "FAILED"); ("FailureReason", PStr "bad audio")]).
  - split; reflexivity.
  - reflexivity.
  - intros. eexists. reflexivity.
  - lia.
  - intros k Hk. exists (Sample.status_response "IN_PROGRESS"), (PStr "IN_PROGRESS").
    split; [|repeat split; reflexivity].
    destruct k as [|[|k]]; [reflexivity..|lia].
  - reflexivity.
  - reflexivity.
  - reflexivity.
Defined.

(** ** Transcribing with an engine that was not loaded *)

(** X12.  An engine on which [load] has set nothing does not raise from
    [transcribe]: the Whisper, Dolphin, Deepgram and AWS engines return
    the empty text with an error, and the AWS engine has sent no
    request by then.  (Google and Salad keep nothing from [load].) *)
Theorem transcribe_before_load (e : engine) :
  unloaded e →
  match e with
  | WhisperModel m =>
      ∀ audio_path, ∃ msg, Whisper.transcribe m audio_path = Ret (error_result msg)
  | DolphinModel m =>
      ∀ L audio_path, ∃ msg, Dolphin.transcribe L m audio_path = Ret (error_result msg)
  | DeepgramModel m =>
      ∀ E audio_path, ∃ msg, Deepgram.transcribe E m audio_path = Ret (error_result msg)
  | AWSModel m =>
      ∀ E L fuel audio_path bucket_name audio_key sent,
        let r := AWS.transcribe E L fuel audio_path bucket_name audio_key
                   {| AWS.me := m; AWS.trace := sent |} in
        (∃ msg, r.1 = AWS.Returned (error_result msg)) ∧ AWS.trace r.2 = sent
  | GoogleModel _ | SaladModel _ => True
  end.
Proof.
  destruct e as [m|m|m|m|m|m]; simpl; try done.
  - intros Hm L audio_path. unfold Dolphin.transcribe. rewrite Hm.
    destruct (Dolphin.load_audio L audio_path); simpl; by eexists.
  - intros (_ & _ & Hp) audio_path. unfold Whisper.transcribe. rewrite Hp.
    simpl. by eexists.
  - intros [Htc Hs3] E L fuel audio_path bucket_name audio_key sent.
    unfold AWS.transcribe, AWS.try_catch, AWS.bind, AWS.the_s3, AWS.the_transcribe,
      AWS.get_me, AWS.set_output_bucket_name.
    destruct (negb (str_truthy bucket_name)); cbn -[AWS.wait_for_job].
    + rewrite Hs3. cbn. split; [by eexists | done].
    + rewrite Htc. cbn. split; [by eexists | done].
  - intros Hc E audio_path. unfold Deepgram.transcribe. rewrite Hc.
    destruct (read_file E audio_path); simpl; by eexists.
Qed.

(** X12, witness: the AWS engine as [get_model] gives it. *)
Lemma transcribe_before_load_witness :
  ∃ m, get_model (Sample.env ∅) "aws" ∅ = Ret (AWSModel m) ∧
       let r := AWS.transcribe (Sample.env ∅) (Sample.aws_lib "COMPLETED") 1 "/tmp/a.wav"
                  None None {| AWS.me := m; AWS.trace := [] |} in
       (∃ msg, r.1 = AWS.Returned (error_result msg)) ∧ AWS.trace r.2 = [].
Proof.
  eexists. split; [reflexivity|].
  apply (transcribe_before_load (AWSModel _)). split; reflexivity.
Defined.

(** ** evaluate.py: which files are scored, and the summary *)

Lemma omap_scored_entries (rows : list Evaluate.row) :
  omap (λ r : gmap string pyval, r !! "wer")
       (map (λ r, scored_entry (Evaluate.ev_file_id r) (Evaluate.ev_wer r)
                    (Evaluate.ev_cer r)) rows)
    = map PNum (map Evaluate.ev_wer rows) ∧
  omap (λ r : gmap string pyval, r !! "cer")
       (map (λ r, scored_entry (Evaluate.ev_file_id r) (Evaluate.ev_wer r)
                    (Evaluate.ev_cer r)) rows)
    = map PNum (map Evaluate.ev_cer rows).
Proof.
  induction rows as [|r rows [IHw IHc]]; [done|]. split.
  - change (PNum (Evaluate.ev_wer r) :: omap (λ r : gmap string pyval, r !! "wer")
              (map (λ r, scored_entry (Evaluate.ev_file_id r) (Evaluate.ev_wer r)
                           (Evaluate.ev_cer r)) rows)
            = PNum (Evaluate.ev_wer r) :: map PNum (map Evaluate.ev_wer rows)).
    by rewrite IHw.
  - change (PNum (Evaluate.ev_cer r) :: omap (λ r : gmap string pyval, r !! "cer")
              (map (λ r, scored_entry (Evaluate.ev_file_id r) (Evaluate.ev_wer r)
                           (Evaluate.ev_cer r)) rows)
            = PNum (Evaluate.ev_cer r) :: map PNum (map Evaluate.ev_cer rows)).
    by rewrite IHc.
Qed.

(** X13.  The summary evaluate.py saves for its rows is the metrics
    [calculate_metrics] of utils.py gives for the entries the runner
    keeps for the same scores: the two programs average alike. *)
Theorem evaluate_summary_agrees (rows : list Evaluate.row) :
  calculate_metrics
    (map (λ r, scored_entry (Evaluate.ev_file_id r) (Evaluate.ev_wer r) (Evaluate.ev_cer r))
         rows)
  = Ret (Evaluate.save_summary rows).
Proof.
  destruct rows as [|r rows]; [reflexivity|].
  set (rs := r :: rows). unfold calculate_metrics, Evaluate.save_summary.
  destruct (omap_scored_entries rs) as [Hw Hc].
  change (map _ rs) with
    (scored_entry (Evaluate.ev_file_id r) (Evaluate.ev_wer r) (Evaluate.ev_cer r)
     :: map (λ r, scored_entry (Evaluate.ev_file_id r) (Evaluate.ev_wer r)
                    (Evaluate.ev_cer r)) rows) at 1.
  cbv beta iota.
  change (scored_entry (Evaluate.ev_file_id r) (Evaluate.ev_wer r) (Evaluate.ev_cer r)
     :: map (λ r, scored_entry (Evaluate.ev_file_id r) (Evaluate.ev_wer r)
                    (Evaluate.ev_cer r)) rows)
    with (map (λ r, scored_entry (Evaluate.ev_file_id r) (Evaluate.ev_wer r)
                      (Evaluate.ev_cer r)) rs).
  rewrite Hw, Hc, !py_sum_numbers. unfold mbind, outcome_bind.
  rewrite length_map, bool_decide_eq_true_2 by (unfold rs; simpl; lia).
  subst rs. reflexivity.
Qed.

Lemma evaluate_fold (J : jiwer_lib) (hypotheses : gmap string string)
    (step : list Evaluate.row → string * string → outcome (list Evaluate.row))
    (all : list (string * string)) :
  step = (λ results '(file_id, reference),
       match hypotheses !! file_id with
       | Some hypothesis =>
           file_wer ← wer J reference hypothesis;
           file_cer ← cer J reference hypothesis;
           Ret (results ++ [ {| Evaluate.ev_file_id := file_id;
                                Evaluate.ev_reference := reference;
                                Evaluate.ev_hypothesis := hypothesis;
                                Evaluate.ev_wer := file_wer;
                                Evaluate.ev_cer := file_cer |} ])
       | None => Ret results
       end) →
  ∀ references acc,
    (∀ id ref hyp, (id, ref) ∈ references → hypotheses !! id = Some hyp →
       ∃ w c, wer J ref hyp = Ret w ∧ cer J ref hyp = Ret c) →
    (∀ x, x ∈ references → x ∈ all) →
    ∃ new, fold_outcome step references acc = Ret (acc ++ new) ∧
      map Evaluate.ev_file_id new
        = filter (λ id, is_Some (hypotheses !! id)) references.*1 ∧
      Forall (row_scored J all hypotheses) new.
Proof.
  intros Hstep. induction references as [|[id ref] references IH]; intros acc Hj Hall.
  - exists []. by rewrite app_nil_r.
  - cbn [fold_outcome]. cbn [fmap list_fmap fst].
    assert (∀ id' ref' hyp, (id', ref') ∈ references → hypotheses !! id' = Some hyp →
              ∃ w c, wer J ref' hyp = Ret w ∧ cer J ref' hyp = Ret c) as Hj'.
    { intros id' ref' hyp Hin. apply Hj. by right. }
    assert (∀ x, x ∈ references → x ∈ all) as Hall' by (intros x Hx; apply Hall; by right).
    destruct (hypotheses !! id) as [hyp|] eqn:Hh.
    + destruct (Hj id ref hyp) as (w & c & Hw & Hc); [left | done |].
      assert (step acc (id, ref)
              = Ret (acc ++ [ {| Evaluate.ev_file_id := id; Evaluate.ev_reference := ref;
                                 Evaluate.ev_hypothesis := hyp; Evaluate.ev_wer := w;
                                 Evaluate.ev_cer := c |} ])) as ->.
      { rewrite Hstep. cbv beta iota. by rewrite Hh, Hw, Hc. }
      unfold mbind, outcome_bind.
      destruct (IH (acc ++ [ {| Evaluate.ev_file_id := id; Evaluate.ev_reference := ref;
                                Evaluate.ev_hypothesis := hyp; Evaluate.ev_wer := w;
                                Evaluate.ev_cer := c |} ]) Hj' Hall')
        as (new & -> & Hids & Hrows).
      eexists (_ :: new). split; [by rewrite <- app_assoc|]. split.
      * rewrite filter_cons_True by (by rewrite Hh). simpl. by rewrite Hids.
      * constructor; [|done]. repeat split; try done. simpl. apply Hall. left.
    + assert (step acc (id, ref) = Ret acc) as ->.
      { rewrite Hstep. cbv beta iota. by rewrite Hh. }
      unfold mbind, outcome_bind.
      destruct (IH acc Hj' Hall') as (new & -> & Hids & Hrows).
      exists new. split; [done|]. split; [|done].
      rewrite filter_cons_False; [done|]. rewrite Hh. by intros [? ?].
Qed.

(** X14.  evaluate.py scores the files that have both a reference and a
    hypothesis, in the order of the references, each with the WER and
    the CER of its own pair of texts; it returns its rows whenever jiwer
    raises on none of these pairs. *)
Theorem evaluate_scores_common_files (J : jiwer_lib) (references : list (string * string))
    (hypotheses : gmap string string) :
  (∀ id ref hyp, (id, ref) ∈ references → hypotheses !! id = Some hyp →
     ∃ w c, wer J ref hyp = Ret w ∧ cer J ref hyp = Ret c) →
  ∃ results, Evaluate.calculate_metrics J references hypotheses = Ret results ∧
    map Evaluate.ev_file_id results
      = filter (λ id, is_Some (hypotheses !! id)) references.*1 ∧
    Forall (row_scored J references hypotheses) results.
Proof.
  intros Hj. unfold Evaluate.calculate_metrics.
  destruct (evaluate_fold J hypotheses _ references eq_refl references [] Hj)
    as (new & Hr & Hids & Hrows); [done|].
  exists new. by rewrite Hr.
Qed.

(** X14, witness: of two references, the one that has a hypothesis is
    scored. *)
Lemma evaluate_scores_common_files_witness :
  ∃ results,
    Evaluate.calculate_metrics Sample.jiwer [("a", "hello world"); ("b", "good day")]
      {[ "a" := "hello word" ]} = Ret results ∧
    map Evaluate.ev_file_id results
      = filter (λ id, is_Some (({[ "a" := "hello word" ]} : gmap string string) !! id))
               ["a"; "b"] ∧
    Forall (row_scored Sample.jiwer [("a", "hello world"); ("b", "good day")]
              {[ "a" := "hello word" ]}) results.
Proof.
  apply (evaluate_scores_common_files Sample.jiwer [("a", "hello world"); ("b", "good day")]
           {[ "a" := "hello word" ]}).
  intros id ref hyp Hin Hh.
  apply elem_of_cons in Hin as [[= -> ->]|Hin].
  - apply lookup_singleton_Some in Hh as [_ <-]. eexists _, _. split; vm_compute; reflexivity.
  - apply elem_of_cons in Hin as [[= -> ->]|Hin]; [|by apply elem_of_nil in Hin].
    by apply lookup_singleton_Some in Hh as [? _].
Defined.

(** ** The key given on the command line *)

Lemma main_model_config_key (model k : string) :
  k ≠ "" →
  main_model_config model (Some k)
    = <["api_key" := PStr k]> (default ∅ (MODEL_CONFIGS !! model)).
Proof.
  intros Hk. unfold main_model_config. rewrite (str_truthy_true k Hk).
  unfold key_in. rewrite lookup_insert_eq. simpl.
  by destruct (String.eqb_spec k "").
Qed.

Lemma main_model_config_no_key (model : string) (api_key : option string) :
  str_truthy api_key = false →
  main_model_config model api_key = default ∅ (MODEL_CONFIGS !! model).
Proof.
  intros Hk. unfold main_model_config. rewrite Hk.
  destruct (key_in model API_KEYS) eqn:Hin; [|done].
  apply key_in_true in Hin as [v Hv]. rewrite Hv. simpl.
  unfold API_KEYS in Hv.
  repeat (apply lookup_insert_Some in Hv as [[_ <-]|[_ Hv]]; [done|]).
  by apply lookup_singleton_Some in Hv as [_ <-].
Qed.

(** X15.  The engine [main] creates for Salad, Deepgram or Google takes
    its key from the environment variable of the engine when it is set;
    otherwise from [--api-key] when that is given and not empty;
    otherwise it has no key, config.py giving none. *)
Theorem main_api_key (E : py_env) (api_key : option string) :
  let resolved var :=
    match environ E !! var with
    | Some v => PStr v
    | None => if str_truthy api_key then PStr (default "" api_key) else PNone
    end in
  (∃ m, main_get_model E "salad" api_key = Ret (SaladModel m) ∧
        Salad.api_key m = resolved "SALAD_API_KEY") ∧
  (∃ m, main_get_model E "deepgram" api_key = Ret (DeepgramModel m) ∧
        Deepgram.api_key m = resolved "DEEPGRAM_API_KEY") ∧
  (∃ m, main_get_model E "google" api_key = Ret (GoogleModel m) ∧
        Google.api_key m = resolved "GOOGLE_API_KEY").
Proof.
  intros resolved. unfold main_get_model.
  assert (∀ model, model ∈ ["salad"; "deepgram"; "google"] →
            config_get (main_model_config model api_key) "api_key" PNone
            = if str_truthy api_key then PStr (default "" api_key) else PNone) as Hkey.
  { intros model Hm. unfold config_get. destruct (str_truthy api_key) eqn:Hk.
    - destruct api_key as [k|]; [|done]. simpl in Hk.
      rewrite main_model_config_key by (intros ->; done).
      by rewrite lookup_insert_eq.
    - rewrite main_model_config_no_key by done.
      repeat (apply elem_of_cons in Hm as [->|Hm]; [vm_compute; reflexivity|]).
      by apply elem_of_nil in Hm. }
  repeat split.
  - eexists. split; [reflexivity|]. cbn [Salad.api_key]. unfold environ_get, resolved.
    rewrite Hkey by set_solver. done.
  - eexists. split; [reflexivity|]. cbn [Deepgram.api_key]. unfold environ_get, resolved.
    rewrite Hkey by set_solver. done.
  - eexists. split; [reflexivity|]. cbn [Google.api_key]. unfold environ_get, resolved.
    rewrite Hkey by set_solver. done.
Qed.

(** ** The transcripts kept for a file id *)

Lemma build_transcript_dict_read (C : corpus) (transcript_keys : list string)
    (files : list (list string)) :
  read_transcripts C transcript_keys = Ret files →
  build_transcript_dict C transcript_keys
    = Ret (foldl add_transcript_line ∅ (concat files)).
Proof.
  unfold build_transcript_dict, read_transcripts. generalize (∅ : gmap string string).
  revert files. induction transcript_keys as [|key keys IH]; intros files acc Hread.
  - by injection Hread as <-.
  - cbn [for_each fold_outcome] in *. unfold mbind, outcome_bind in *.
    destruct (download_file_from_s3 C key) as [path|]; [|done].
    destruct (read_lines C path) as [lines|]; [|done].
    destruct (for_each _ keys) as [rest|] eqn:Hrest; [|done].
    injection Hread as <-. rewrite (IH rest) by done.
    by rewrite concat_cons, foldl_app.
Qed.

Lemma foldl_add_transcript_line_last (lines : list string) (d : gmap string string)
    (file_id : string) :
  foldl add_transcript_line d lines !! file_id
    = match last_transcript file_id lines with
      | Some t => Some t
      | None => d !! file_id
      end.
Proof.
  induction lines as [|line lines IH] using rev_ind; [done|].
  unfold last_transcript in *. rewrite foldl_app, omap_app. cbn [foldl].
  match goal with
  | |- context [omap ?f [line]] =>
      change (omap f [line]) with (match f line with Some y => [y] | None => [] end)
  end.
  unfold add_transcript_line at 1.
  destruct (parse_transcript_line line) as [[key t]|].
  - destruct (String.eqb_spec key file_id) as [->|Hne].
    + by rewrite last_snoc, lookup_insert_eq.
    + rewrite app_nil_r, lookup_insert_ne by done. apply IH.
  - rewrite app_nil_r. apply IH.
Qed.

(** X16.  When the transcript files can be read, [build_transcript_dict]
    returns a dictionary that has, for each file id, the transcript of
    the last line kept for that id, over the files in the order given:
    a later line replaces an earlier one. *)
Theorem transcript_last_line_wins (C : corpus) (transcript_keys : list string)
    (files : list (list string)) :
  read_transcripts C transcript_keys = Ret files →
  ∃ d, build_transcript_dict C transcript_keys = Ret d ∧
       ∀ file_id, d !! file_id = last_transcript file_id (concat files).
Proof.
  intros Hread. eexists. split; [by apply build_transcript_dict_read|].
  intros file_id. rewrite foldl_add_transcript_line_last.
  by destruct (last_transcript file_id (concat files)).
Qed.

(** X16, witness: of the two lines for [a], the second is kept. *)
Lemma transcript_last_line_wins_witness :
  ∃ d, build_transcript_dict Scenario.repeated_store ["1.trans.txt"] = Ret d ∧
       ∀ file_id, d !! file_id
                  = last_transcript file_id (concat [["a FIRST"; "b OTHER"; "a SECOND"]]).
Proof.
  apply (transcript_last_line_wins Scenario.repeated_store ["1.trans.txt"]
           [["a FIRST"; "b OTHER"; "a SECOND"]]).
  reflexivity.
Defined.

Lemma dict_set_elem (k v : string) (d : list (string * string)) :
  NoDup d.*1 →
  NoDup (Evaluate.dict_set k v d).*1 ∧
  ∀ k' v', (k', v') ∈ Evaluate.dict_set k v d ↔
           (k' = k ∧ v' = v) ∨ (k' ≠ k ∧ (k', v') ∈ d).
Proof.
  induction d as [|[k1 v1] d IH]; intros Hnd.
  - split; [apply NoDup_singleton|]. intros k' v'. simpl. rewrite list_elem_of_singleton.
    split; [intros [= -> ->]; by left | intros [[-> ->]|[_ H]]; [done | by apply elem_of_nil in H]].
  - apply list.NoDup_cons in Hnd as [Hk1 Hnd]. destruct (IH Hnd) as [IHn IHe].
    cbn [Evaluate.dict_set]. destruct (String.eqb_spec k k1) as [<-|Hne].
    + split; [by apply list.NoDup_cons|]. intros k' v'. rewrite !elem_of_cons. split.
      * intros [[= -> ->]|Hin]; [by left|]. right. split; [|by right].
        intros ->. apply Hk1. apply list_elem_of_fmap. by exists (k, v').
      * intros [[-> ->]|[Hk' [[= ? ?]|Hin]]]; [by left | done | by right].
    + split.
      * cbn [fmap list_fmap fst]. apply list.NoDup_cons. split; [|done].
        intros ([k2 v2] & Heq & Hin)%list_elem_of_fmap. simpl in Heq. subst k2.
        apply IHe in Hin as [[-> _]|[_ Hin]]; [done|].
        apply Hk1. apply list_elem_of_fmap. by exists (k1, v2).
      * intros k' v'. rewrite !elem_of_cons, IHe. split.
        -- intros [[= -> ->]|[?|[? ?]]]; [right; split; [done | by left] | by left |].
           right. split; [done | by right].
        -- intros [?|[? [?|?]]]; [right; by left | by left | right; right; done].
Qed.

Lemma add_line_same_transcripts (references : list (string * string))
    (d : gmap string string) (line : string) :
  same_transcripts references d →
  same_transcripts (Evaluate.add_reference_line references line)
                   (add_transcript_line d line).
Proof.
  intros [Hnd Hsame]. unfold Evaluate.add_reference_line, add_transcript_line.
  destruct (parse_transcript_line line) as [[key t]|]; [|done].
  destruct (dict_set_elem key t references Hnd) as [Hnd' Helem].
  split; [done|]. intros k v. rewrite Helem, lookup_insert_Some, Hsame.
  split; intros [[-> ->]|[? ?]]; auto.
Qed.

Lemma foldl_lines_same_transcripts (lines : list string) : ∀ references d,
  same_transcripts references d →
  same_transcripts (foldl Evaluate.add_reference_line references lines)
                   (foldl add_transcript_line d lines).
Proof.
  induction lines as [|line lines IH]; intros references d Hsame; [done|].
  simpl. by apply IH, add_line_same_transcripts.
Qed.

Lemma load_reference_transcripts_concat (files : list (list string)) :
  Evaluate.load_reference_transcripts files
    = foldl Evaluate.add_reference_line [] (concat files).
Proof.
  unfold Evaluate.load_reference_transcripts. generalize ([] : list (string * string)).
  induction files as [|lines files IH]; intros acc; [done|].
  simpl. by rewrite IH, foldl_app.
Qed.

(** X17.  The references evaluate.py loads from transcript files are
    the ground truths the runner builds from the same files: every file
    id is there once, with the transcript [build_transcript_dict] has
    for it. *)
Theorem references_agree_with_runner (C : corpus) (transcript_keys : list string)
    (files : list (list string)) :
  read_transcripts C transcript_keys = Ret files →
  ∃ d, build_transcript_dict C transcript_keys = Ret d ∧
       same_transcripts (Evaluate.load_reference_transcripts files) d.
Proof.
  intros Hread. eexists. split; [by apply build_transcript_dict_read|].
  rewrite load_reference_transcripts_concat. apply foldl_lines_same_transcripts.
  split; [constructor|]. intros k v. rewrite lookup_empty.
  split; [by intros ?%elem_of_nil | done].
Qed.

(** X17, witness: the transcript file with two lines for [a]. *)
Lemma references_agree_with_runner_witness :
  ∃ d, build_transcript_dict Scenario.repeated_store ["1.trans.txt"] = Ret d ∧
       same_transcripts
         (Evaluate.load_reference_transcripts [["a FIRST"; "b OTHER"; "a SECOND"]]) d.
Proof.
  apply (references_agree_with_runner Scenario.repeated_store ["1.trans.txt"]
           [["a FIRST"; "b OTHER"; "a SECOND"]]).
  reflexivity.
Defined.

(** ** evaluate.py: the hypotheses read from a directory *)

Lemma add_hypothesis_readable (h : gmap string string)
    (json_file : string * outcome pyval) :
  readable_json json_file →
  ∃ h', Evaluate.add_hypothesis h json_file = Ret h' ∧
        ∀ file_id, h' !! file_id = match hypothesis_in file_id json_file with
                                   | Some t => Some t
                                   | None => h !! file_id
                                   end.
Proof.
  destruct json_file as [path [data|e]]; unfold readable_json, hypothesis_in,
    Evaluate.add_hypothesis; cbn [fst snd].
  - destruct data as [| | | |l|d]; try done. intros Hd. cbn [mbind outcome_bind py_contains].
    unfold mbind, outcome_bind, py_getitem.
    destruct (assoc "text" d) as [[| | |s| |]|] eqn:Ht; try done.
    + rewrite bool_decide_eq_true_2 by (by eexists). cbn [py_lower try_except].
      eexists. split; [reflexivity|]. intros file_id. fold (file_id_of path).
      destruct (String.eqb_spec (file_id_of path) file_id) as [->|Hne].
      * by rewrite lookup_insert_eq.
      * by rewrite lookup_insert_ne.
    + rewrite bool_decide_eq_false_2 by (by intros [? ?]). by exists h.
  - intros He. cbn [mbind outcome_bind try_except]. rewrite He. by exists h.
Qed.

(** X18.  When every JSON file of the directory either does not parse
    or is an object whose [text], if any, is a string,
    [load_hypothesis_transcripts] returns; a file id has the [text], in
    lower case, of the last file named after it that has one, and
    files that do not parse or have no [text] (as the [metrics.json] of
    a run) give no hypothesis. *)
Theorem hypotheses_from_readable_files (json_files : list (string * outcome pyval)) :
  Forall readable_json json_files →
  ∃ h, Evaluate.load_hypothesis_transcripts json_files = Ret h ∧
       ∀ file_id, h !! file_id = list.last (omap (hypothesis_in file_id) json_files).
Proof.
  unfold Evaluate.load_hypothesis_transcripts.
  assert (∀ h0, Forall readable_json json_files →
            ∃ h, fold_outcome Evaluate.add_hypothesis json_files h0 = Ret h ∧
                 ∀ file_id, h !! file_id
                   = match list.last (omap (hypothesis_in file_id) json_files) with
                     | Some t => Some t
                     | None => h0 !! file_id
                     end) as Hgen.
  { induction json_files as [|f fs IH]; intros h0 Hall.
    - by exists h0.
    - apply list.Forall_cons in Hall as [Hf Hfs].
      destruct (add_hypothesis_readable h0 f Hf) as (h1 & Hh1 & Hl1).
      destruct (IH h1 Hfs) as (h & Hh & Hl).
      exists h. cbn [fold_outcome]. rewrite Hh1. split; [done|].
      intros file_id. rewrite Hl, Hl1.
      change (omap (hypothesis_in file_id) (f :: fs))
        with (match hypothesis_in file_id f with
              | Some y => y :: omap (hypothesis_in file_id) fs
              | None => omap (hypothesis_in file_id) fs
              end).
      destruct (hypothesis_in file_id f) as [t|]; [|done].
      rewrite last_cons. by destruct (list.last _). }
  intros Hall. destruct (Hgen ∅ Hall) as (h & Hh & Hl). exists h. split; [done|].
  intros file_id. rewrite Hl, lookup_empty. by destruct (list.last _).
Qed.

(** X18, witness: a scored result, the metrics of the run, and a file
    that is not JSON. *)
Lemma hypotheses_from_readable_files_witness :
  ∃ h, Evaluate.load_hypothesis_transcripts
         [("out/a.json", Ret (PDict [("text", PStr "Hello World"); ("wer", PNum 0)]));
          ("out/metrics.json", Ret (PDict [("num_files", PNum 1)]));
          ("out/b.json", Raise (Exn "JSONDecodeError" "Expecting value"))] = Ret h ∧
       ∀ file_id, h !! file_id = list.last (omap (hypothesis_in file_id)
         [("out/a.json", Ret (PDict [("text", PStr "Hello World"); ("wer", PNum 0)]));
          ("out/metrics.json", Ret (PDict [("num_files", PNum 1)]));
          ("out/b.json", Raise (Exn "JSONDecodeError" "Expecting value"))]).
Proof.
  apply hypotheses_from_readable_files. repeat constructor.
Defined.

(** ** Google: the token *)

(** X19.  With a key, the Google engine never runs gcloud: [load] and
    [transcribe] do the same whatever gcloud would answer. *)
Theorem google_key_without_gcloud (E : py_env) (L L' : Google.lib) (self : Google.t)
    (audio_path : string) :
  py_truthy (Google.api_key self) = true → Google.post L = Google.post L' →
  Google.load L self = Google.load L' self ∧
  Google.transcribe E L self audio_path = Google.transcribe E L' self audio_path.
Proof.
  intros Hkey Hpost. unfold Google.load, Google.transcribe, Google._get_access_token.
  rewrite Hkey, Hpost. done.
Qed.

(** X19, witness: a machine without gcloud and one that is logged in. *)
Lemma google_key_without_gcloud_witness :
  Google.load Sample.google_lib (Scenario.google_engine (PStr "key"))
    = Google.load Scenario.google_lib_logged_in (Scenario.google_engine (PStr "key")) ∧
  Google.transcribe (Sample.env ∅) Sample.google_lib (Scenario.google_engine (PStr "key"))
      "/tmp/a.wav"
    = Google.transcribe (Sample.env ∅) Scenario.google_lib_logged_in
        (Scenario.google_engine (PStr "key")) "/tmp/a.wav".
Proof.
  apply google_key_without_gcloud; reflexivity.
Defined.

(** X20.  Without a key and without a token from gcloud, [transcribe]
    of the Google engine returns the empty text with [Failed to get
    access token], whatever the service would answer: no request is
    sent. *)
Theorem google_no_token_no_request (E : py_env) (L : Google.lib) (self : Google.t)
    (audio_path : string) :
  py_truthy (Google.api_key self) = false → no_gcloud_token L →
  Google.transcribe E L self audio_path
    = Ret {[ "error" := PStr "Failed to get access token"; "text" := PStr "" ]}.
Proof.
  intros Hkey Hno. unfold Google.transcribe, Google._get_access_token, no_gcloud_token in *.
  rewrite Hkey. destruct (Google.gcloud_print_access_token L) as [stdout|e].
  - rewrite Hno. reflexivity.
  - rewrite Hno. reflexivity.
Qed.

(** X20, witness: no key and no gcloud program. *)
Lemma google_no_token_no_request_witness :
  Google.transcribe (Sample.env ∅) Sample.google_lib (Scenario.google_engine PNone)
    "/tmp/a.wav"
  = Ret {[ "error" := PStr "Failed to get access token"; "text" := PStr "" ]}.
Proof.
  apply google_no_token_no_request; reflexivity.
Defined.

(** ** The scores of a run, computed again by evaluate.py *)

(** X21.  For an item the runner scores, evaluate.py computes again the
    scores the run stored: [save_result] leaves in the JSON of the item
    its [text] with a [wer] and a [cer], and [calculate_metrics] of
    evaluate.py, given the ground truth as the reference and that [text]
    in lower case as the hypothesis, returns one row with the same two
    numbers.  The ground truth is in lower case, as the transcripts read
    from the transcript files are. *)
Theorem evaluate_reproduces_run_score (J : jiwer_lib) (dir dir' : output_dir)
    (file_id ground_truth t : string) (result result' : gmap string pyval) :
  save_result J dir file_id result (Some ground_truth) = Ret (result', dir') →
  ground_truth ≠ "" → PyString.lower ground_truth = ground_truth →
  result !! "text" = Some (PStr t) →
  ∃ w c, result' !! "text" = Some (PStr t) ∧
         result' !! "wer" = Some (PNum w) ∧ result' !! "cer" = Some (PNum c) ∧
         Evaluate.calculate_metrics J [(file_id, ground_truth)]
           {[ file_id := PyString.lower t ]}
         = Ret [ {| Evaluate.ev_file_id := file_id;
                    Evaluate.ev_reference := ground_truth;
                    Evaluate.ev_hypothesis := PyString.lower t;
                    Evaluate.ev_wer := w; Evaluate.ev_cer := c |} ].
Proof.
  intros Hs Hgt Hlow Ht. unfold save_result in Hs.
  rewrite (str_truthy_true _ Hgt) in Hs.
  assert (key_in "text" result = true) as Hin by (apply key_in_true; eauto).
  rewrite Hin in Hs. cbn [andb] in Hs.
  change (default "" (Some ground_truth)) with ground_truth in Hs.
  rewrite lookup_insert_ne in Hs by done. rewrite Ht in Hs.
  change (default PNone (Some (PStr t))) with (PStr t) in Hs.
  unfold mbind, outcome_bind in Hs. cbn [py_lower] in Hs. rewrite Hlow in Hs.
  destruct (wer J ground_truth (PyString.lower t)) as [w|] eqn:Hw; [|done].
  rewrite !lookup_insert_ne in Hs by done. rewrite Ht in Hs.
  change (default PNone (Some (PStr t))) with (PStr t) in Hs. cbn [py_lower] in Hs.
  destruct (cer J ground_truth (PyString.lower t)) as [c|] eqn:Hc; [|done].
  injection Hs as <- _. exists w, c.
  split; [by rewrite !lookup_insert_ne by done|].
  split; [by rewrite lookup_insert_ne, lookup_insert_eq by done|].
  split; [by rewrite lookup_insert_eq|].
  unfold Evaluate.calculate_metrics. cbn [fold_outcome].
  rewrite lookup_singleton_eq. unfold mbind, outcome_bind. by rewrite Hw, Hc.
Qed.

(** X21, witness: a hypothesis with capitals against its reference. *)
Lemma evaluate_reproduces_run_score_witness :
  ∃ w c, Evaluate.calculate_metrics Sample.jiwer [("a", "hello world")]
           {[ "a" := PyString.lower "Hello World" ]}
         = Ret [ {| Evaluate.ev_file_id := "a"; Evaluate.ev_reference := "hello world";
                    Evaluate.ev_hypothesis := PyString.lower "Hello World";
                    Evaluate.ev_wer := w; Evaluate.ev_cer := c |} ].
Proof.
  destruct (save_result Sample.jiwer (out initial_state) "a"
              {[ "text" := PStr "Hello World" ]} (Some "hello world"))
    as [[result' dir']|e] eqn:Hs.
  - destruct (evaluate_reproduces_run_score Sample.jiwer (out initial_state) dir' "a"
                "hello world" "Hello World" {[ "text" := PStr "Hello World" ]} result' Hs)
      as (w & c & _ & _ & _ & He); [done | reflexivity | reflexivity |].
    exists w, c. exact He.
  - exfalso. vm_compute in Hs. discriminate Hs.
Defined.

(** ** The log and the confidence of a result *)

(** X22.  [save_result] appends to a log that exists without touching
    its header.  In a run, whose log starts with the five-column header,
    the row of a result that has a [confidence] carries that confidence
    as a sixth value, which the header does not name; the JSON file of
    the item holds the result as saved. *)
Theorem confidence_row_under_short_header (J : jiwer_lib) (dir dir' : output_dir)
    (file_id : string) (result result' : gmap string pyval)
    (ground_truth : option string) (lines : list csv_line) (confidence : pyval) :
  save_result J dir file_id result ground_truth = Ret (result', dir') →
  csv_file dir = Some (log_header :: lines) →
  result !! "confidence" = Some confidence →
  ∃ row, csv_file dir' = Some (log_header :: lines ++ [CsvRow row]) ∧
         row_file_id row = file_id ∧ row_confidence row = Some confidence ∧
         json_files dir' !! file_id = Some result'.
Proof.
  intros Hs Hcsv Hconf. apply save_result_shape in Hs as [-> Hr].
  eexists. unfold recorded. cbn [csv_file json_files]. rewrite Hcsv.
  split; [reflexivity|]. split; [reflexivity|]. split; [|apply lookup_insert_eq].
  cbn [row_of row_confidence].
  destruct Hr as [->|(w & c & ->)]; [done|].
  unfold scored. by rewrite !lookup_insert_ne by done.
Qed.

(** X22, witness: the first item of a run, an engine result with a
    confidence. *)
Lemma confidence_row_under_short_header_witness :
  ∃ row, csv_file (recorded (out initial_state) "a" ""
                     {[ "text" := PStr "hello"; "confidence" := PNum 1 ]})
           = Some (log_header :: [] ++ [CsvRow row]) ∧
         row_file_id row = "a" ∧ row_confidence row = Some (PNum 1) ∧
         json_files (recorded (out initial_state) "a" ""
                       {[ "text" := PStr "hello"; "confidence" := PNum 1 ]}) !! "a"
           = Some {[ "text" := PStr "hello"; "confidence" := PNum 1 ]}.
Proof.
  apply (confidence_row_under_short_header Sample.jiwer (out initial_state) _ "a"
           {[ "text" := PStr "hello"; "confidence" := PNum 1 ]} _ None [] (PNum 1));
    reflexivity.
Defined.
